(** * The image-generation pipeline of mythweaver

    A shallow embedding of [generateImage] and [postToStableDiffusion]
    (the image service of the API, together with its two blob-store
    back ends [saveImageLocally] and [uploadImage]) and the properties of
    the retry loop: how many artifacts are recorded, which notifications
    are pushed, how the try counter evolves and what happens on abort.

    The code is asynchronous but strictly sequential (every call is
    awaited), so it is embedded as a state-passing program over a [World]
    that logs every externally visible effect in the order it happens.

    The pipeline is embedded twice.  The first embedding takes the
    collaborators at their word: the generation service rejects a request
    or answers it with artifacts, and the file system, the bucket, the
    image table and the websocket do what they are asked; the properties
    of the retry loop are proved there.  [Faulty] is the same code with
    the failures of those collaborators in it, none of which
    [generateImage] catches; it agrees with the first embedding when
    nothing fails, and it is where the exceptions of [generateImage] and
    the failures of [saveImageLocally] are settled.

    The second part embeds the session controller and the seed script
    over the tables of the database ([Backend]) and proves the access
    rules, the two-step delete, the patch, the DM-only calls, the recap
    mails, the listing and the idempotence of the seed. *)

From Stdlib Require Import ZArith List String Bool Lia DecimalString.
From Stdlib Require Import Sorted Permutation DecimalNat.
Import ListNotations.
Local Open Scope string_scope.
Local Open Scope list_scope.
Local Open Scope Z_scope.

(** ** Data model *)

Inductive FinishReason : Type := SUCCESS | CONTENT_FILTERED | ERROR.

Definition FinishReason_eqb (a b : FinishReason) : bool :=
  match a, b with
  | SUCCESS, SUCCESS => true
  | CONTENT_FILTERED, CONTENT_FILTERED => true
  | ERROR, ERROR => true
  | _, _ => false
  end.

(** One element of [GenerationResponse.artifacts]. *)
Record SDArtifact : Type := mkArtifact {
  base64 : string;
  seed : Z;
  finishReason : FinishReason
}.

Record GenerationResponse : Type := mkResponse {
  artifacts : list SDArtifact;
  updatedPrompt : option string
}.

Record Linking : Type := mkLinking {
  sessionId : option Z;
  conjurationId : option Z;
  characterId : option Z
}.

(** [ImageRequest]; the optional fields are [option]s, [None] is
    [undefined]. *)
Record ImageRequest : Type := mkRequest {
  userId : Z;
  prompt : string;
  count : Z;
  negativePrompt : option string;
  stylePreset : option string;
  linking : option Linking
}.

(** The object spread [{ ...request, count: c }]. *)
Definition withCount (request : ImageRequest) (c : Z) : ImageRequest :=
  mkRequest (userId request) (prompt request) c (negativePrompt request)
            (stylePreset request) (linking request).

(** *** The HTTP request sent to the generation service *)

Record TextPrompt : Type := mkTextPrompt { text : string; weight : Z }.

Record PostBody : Type := mkBody {
  text_prompts : list TextPrompt;
  cfg_scale : Z;
  height : Z;
  width : Z;
  steps : Z;
  samples : Z;
  style_preset : string
}.

Record HttpPost : Type := mkPost {
  url : string;
  body : PostBody;
  authorization : string
}.

(** *** Externally visible records *)

(** The [data] object handed to [prisma.image.create], and the row of
    the [image] table it becomes; [row_id] is the key the database
    assigns. *)
Record ImageData : Type := mkData {
  row_userId : Z;
  row_uri : string;
  row_prompt : string;
  row_negativePrompt : option string;
  row_stylePreset : string;
  row_sessionId : option Z;
  row_conjurationId : option Z;
  row_characterId : option Z
}.

Record ImageRow : Type := mkRow { row_id : Z; row_data : ImageData }.

Inductive WebSocketEvent : Type :=
| ImagePromptRephrased
| ImageCreated
| ImageFiltered
| ImageGenerationDone
| ImageError.

Definition WebSocketEvent_eqb (a b : WebSocketEvent) : bool :=
  match a, b with
  | ImagePromptRephrased, ImagePromptRephrased => true
  | ImageCreated, ImageCreated => true
  | ImageFiltered, ImageFiltered => true
  | ImageGenerationDone, ImageGenerationDone => true
  | ImageError, ImageError => true
  | _, _ => false
  end.

Inductive Payload : Type :=
| PText (s : string)            (* a bare string *)
| PImage (row : ImageRow)       (* the created image record *)
| PMessage (message : string)   (* { message: ... } *)
| PEmpty.                       (* {} *)

Record WsMessage : Type := mkMsg {
  ws_user : Z;
  ws_event : WebSocketEvent;
  ws_payload : Payload
}.

(** What the blob store receives.  The decoded buffer
    [Buffer.from(imageBase64, 'base64')] is represented by the base64
    text it is decoded from. *)
Inductive BlobWrite : Type :=
| LocalFile (path : string) (data : string)
| S3Object (bucket : string) (key : string) (data : string).

(** ** Environment and world *)

(** Everything the module reads but never writes: the process
    environment, the deployment flag, the generation service and the
    source of identifiers.  [axios_post n p] is the answer of the service
    to the [n]-th request of the process when that request is [p]:
    [None] when the promise is rejected, [Some arts] for a response whose
    [data.artifacts] is [arts].  [uuidv4 n] is the [n]-th identifier
    drawn. *)
Record Env : Type := mkEnv {
  STABILITY_API_KEY : option string;
  API_HOST : option string;
  DATA_DIR : option string;
  API_URL : option string;
  isLocalDevelopment : bool;
  axios_post : nat -> HttpPost -> option (list SDArtifact);
  uuidv4 : nat -> string
}.

(** The effects performed so far, oldest first. *)
Record World : Type := mkWorld {
  posts : list HttpPost;      (* requests sent to the generation service *)
  dirs : list string;         (* directories that exist on the local disk *)
  blobs : list BlobWrite;     (* objects written by the blob store *)
  images : list ImageRow;     (* rows created in the image table *)
  sent : list WsMessage;      (* websocket messages pushed *)
  drawn : nat                 (* identifiers drawn from uuidv4 *)
}.

Definition emptyWorld : World := mkWorld [] [] [] [] [] 0.

(** ** JavaScript idioms *)

(** Truthiness of a [string | undefined]. *)
Definition truthy (s : option string) : bool :=
  match s with
  | Some x => negb (x =? EmptyString)%string
  | None => false
  end.

(** [a || d] on a [string | undefined]. *)
Definition orElse (a : option string) (d : string) : string :=
  match a with
  | Some x => if (x =? EmptyString)%string then d else x
  | None => d
  end.

(** [a ?? d]. *)
Definition nullish (a : option string) (d : string) : string :=
  match a with
  | Some x => x
  | None => d
  end.

(** A [string | undefined] inside a template literal. *)
Definition interpolate (a : option string) : string :=
  match a with
  | Some x => x
  | None => "undefined"
  end.

(** ** The state monad of the embedding *)

Definition M (A : Type) : Type := World -> A * World.

Definition ret {A : Type} (a : A) : M A := fun w => (a, w).

Definition bind {A B : Type} (m : M A) (k : A -> M B) : M B :=
  fun w => let (a, w') := m w in k a w'.

Declare Scope io_scope.
Delimit Scope io_scope with io.
Notation "x <- m ;; k" := (bind m (fun x => k))
  (at level 61, m at next level, right associativity) : io_scope.
Notation "m ;; k" := (bind m (fun _ => k))
  (at level 61, right associativity) : io_scope.
Local Open Scope io_scope.

(** *** Primitive effects *)

Definition sendWebsocketMessage (user : Z) (ev : WebSocketEvent) (p : Payload)
  : M unit :=
  fun w => (tt, mkWorld (posts w) (dirs w) (blobs w) (images w)
                        (sent w ++ [mkMsg user ev p]) (drawn w)).

Definition writeBlob (b : BlobWrite) : M unit :=
  fun w => (tt, mkWorld (posts w) (dirs w) (blobs w ++ [b]) (images w)
                        (sent w) (drawn w)).

Definition existsSync (dir : string) : M bool :=
  fun w => (existsb (String.eqb dir) (dirs w), w).

Definition mkdirSync (dir : string) : M unit :=
  fun w => (tt, mkWorld (posts w) (dirs w ++ [dir]) (blobs w) (images w)
                        (sent w) (drawn w)).

(** [prisma.image.create({ data })]: the row is appended and returned
    with the key the table gives it. *)
Definition prisma_image_create (data : ImageData) : M ImageRow :=
  fun w =>
    let created := mkRow (Z.of_nat (List.length (images w)) + 1) data in
    (created, mkWorld (posts w) (dirs w) (blobs w) (images w ++ [created])
                      (sent w) (drawn w)).

Section Pipeline.

Variable env : Env.

Definition engineId : string := "stable-diffusion-v1-6".
Definition apiHost : string := nullish (API_HOST env) "https://api.stability.ai".
Definition apiKey : option string := STABILITY_API_KEY env.

Definition draw_uuid : M string :=
  fun w => (uuidv4 env (drawn w),
            mkWorld (posts w) (dirs w) (blobs w) (images w) (sent w)
                    (S (drawn w))).

(** [axios.post]: the request is logged, the service answers; [None] is
    the rejected promise the [try] catches.  An answer is taken to hold
    its [data.artifacts]; [Faulty.http_post] has the answers that do
    not. *)
Definition http_post (p : HttpPost) : M (option (list SDArtifact)) :=
  fun w => (axios_post env (List.length (posts w)) p,
            mkWorld (posts w ++ [p]) (dirs w) (blobs w) (images w) (sent w)
                    (drawn w)).

(** ** Blob store

    The two back ends when the file system and the bucket do not fail;
    [Faulty.saveImageLocally] and [Faulty.uploadImage] have the calls
    that throw. *)

Definition saveImageLocally (imageId imageBase64 : string) : M string :=
  let dataDir := nullish (DATA_DIR env) "./public/images" in
  ex <- existsSync dataDir ;;
  (if negb ex then mkdirSync dataDir else ret tt) ;;
  writeBlob (LocalFile (dataDir ++ "/" ++ imageId ++ ".png") imageBase64) ;;
  ret (interpolate (API_URL env) ++ "/images/" ++ imageId ++ ".png")%string.

Definition uploadImage (imageId imageBase64 : string) : M string :=
  let key := (imageId ++ ".png")%string in
  writeBlob (S3Object "mythweaver-assets" key imageBase64) ;;
  ret ("https://assets.mythweaver.co/" ++ key)%string.

(** ** Generation client *)

Definition sdRequest (request : ImageRequest) (preset : string) : HttpPost :=
  mkPost
    (apiHost ++ "/v1/generation/" ++ engineId ++ "/text-to-image")%string
    (mkBody
       [ mkTextPrompt (prompt request) 1;
         mkTextPrompt ("blurry, bad, " ++ interpolate (negativePrompt request))
                      (-1) ]
       7 1024 1024 30 (count request) preset)
    ("Bearer " ++ interpolate apiKey)%string.

Definition imageErrorMessage : string :=
  "There was an error generating your image. Your prompt was rejected by the content filtering system. Please try again.".

Definition postToStableDiffusion (request : ImageRequest) (preset : string)
    (promptHistory : list string) (depth : Z)
  : M (option GenerationResponse) :=
  if 5 <? depth then ret None
  else
    response <- http_post (sdRequest request preset) ;;
    match response with
    | None =>
        sendWebsocketMessage (userId request) ImageError
                             (PMessage imageErrorMessage) ;;
        ret None
    | Some arts =>
        ret (Some (mkResponse arts
                     (if depth =? 0 then None else Some (prompt request))))
    end.

(** ** Retry orchestrator *)

(** The locals of [generateImage] that the loop updates. *)
Record LoopState : Type := mkLoop {
  urls : list string;
  validImageCount : Z;
  tries : Z
}.

Definition maxImageTries : Z := 30.

Definition filteredMessage : string :=
  "The image generation service was unable to generate an image that met the criteria. Please try again.".

Definition missingKeyMessage : string := "Missing Stability API key.".

(** The [if (!isLocalDevelopment) ... else ...] of the loop. *)
Definition storeImage (imageId imageBase64 : string) : M string :=
  if negb (isLocalDevelopment env) then uploadImage imageId imageBase64
  else saveImageLocally imageId imageBase64.

(** The [data] of [prisma.image.create]; [...request.linking] spreads
    the three optional keys, and nothing when [linking] is undefined. *)
Definition imageData (request : ImageRequest) (preset url : string)
  : ImageData :=
  mkData (userId request) url (prompt request) (negativePrompt request) preset
         (match linking request with Some l => sessionId l | None => None end)
         (match linking request with Some l => conjurationId l | None => None end)
         (match linking request with Some l => characterId l | None => None end).

(** [for (const image of artifacts) { ... }], with its [break]. *)
Fixpoint acceptArtifacts (request : ImageRequest) (preset : string)
    (arts : list SDArtifact) (st : LoopState) : M LoopState :=
  match arts with
  | [] => ret st
  | image :: rest =>
      if validImageCount st =? count request then ret st
      else
        imageId <- draw_uuid ;;
        url <- storeImage imageId (base64 image) ;;
        created <- prisma_image_create (imageData request preset url) ;;
        sendWebsocketMessage (userId request) ImageCreated (PImage created) ;;
        acceptArtifacts request preset rest
          (mkLoop (urls st ++ [url]) (validImageCount st + 1) (tries st))
  end.

(** One pass through the body of the [do ... while]: [Abort] is the
    [return undefined], [Completed] reaches the loop test.  Both carry
    the locals as they are at that point. *)
Inductive Iteration : Type :=
| Abort (st : LoopState)
| Completed (st : LoopState).

Definition loopBody (request : ImageRequest) (preset : string)
    (st : LoopState) : M Iteration :=
  let st1 := mkLoop (urls st) (validImageCount st) (tries st + count request) in
  imageResponse <-
    postToStableDiffusion
      (withCount request (count request - validImageCount st1)) preset [] 0 ;;
  match imageResponse with
  | None => ret (Abort st1)
  | Some resp =>
      (if truthy (updatedPrompt resp)
       then sendWebsocketMessage (userId request) ImagePromptRephrased
              (PText (interpolate (updatedPrompt resp)))
       else ret tt) ;;
      let successes :=
        filter (fun a => FinishReason_eqb (finishReason a) SUCCESS)
               (artifacts resp) in
      st2 <- acceptArtifacts request preset successes st1 ;;
      ret (Completed st2)
  end.

Definition loopTest (request : ImageRequest) (st : LoopState) : bool :=
  (validImageCount st <? count request) && (tries st <? maxImageTries).

Inductive LoopExit : Type :=
| Aborted (st : LoopState)
| Finished (st : LoopState)
| OutOfFuel.

(** The [do { body } while (test)] loop.  [fuel] bounds the number of
    passes; [doWhile_terminates] shows that 30 passes are never used up. *)
Fixpoint doWhile (fuel : nat) (request : ImageRequest) (preset : string)
    (st : LoopState) : M LoopExit :=
  match fuel with
  | O => ret OutOfFuel
  | S fuel' =>
      it <- loopBody request preset st ;;
      match it with
      | Abort st' => ret (Aborted st')
      | Completed st' =>
          if loopTest request st' then doWhile fuel' request preset st'
          else ret (Finished st')
      end
  end.

Definition initialLoop : LoopState := mkLoop [] 0 0.

Definition presetOf (request : ImageRequest) : string :=
  orElse (stylePreset request) "fantasy-art".

(** What the caller of [generateImage] observes: the rejection with an
    [Error], or the value the promise resolves to ([None] is
    [undefined]). *)
Inductive Outcome : Type :=
| Threw (msg : string)
| Returned (v : option (list string))
| Unfinished.

Definition generateImage_fuel (fuel : nat) (request : ImageRequest)
  : M Outcome :=
  if negb (truthy apiKey) then ret (Threw missingKeyMessage)
  else
    let preset := presetOf request in
    ex <- doWhile fuel request preset initialLoop ;;
    match ex with
    | OutOfFuel => ret Unfinished
    | Aborted _ => ret (Returned None)
    | Finished st =>
        (if validImageCount st <? count request
         then sendWebsocketMessage (userId request) ImageFiltered
                (PMessage filteredMessage)
         else sendWebsocketMessage (userId request) ImageGenerationDone
                PEmpty) ;;
        ret (Returned (Some (urls st)))
    end.

Definition generateImage (request : ImageRequest) : M Outcome :=
  generateImage_fuel (Z.to_nat maxImageTries) request.

End Pipeline.

(** ** Vocabulary of the properties *)

(** The notification pushed for a created row, and the URI collected
    for it. *)
Definition createdMsg (request : ImageRequest) (r : ImageRow) : WsMessage :=
  mkMsg (userId request) ImageCreated (PImage r).

Definition uriOf (r : ImageRow) : string := row_uri (row_data r).

Definition errorMsg (request : ImageRequest) : WsMessage :=
  mkMsg (userId request) ImageError (PMessage imageErrorMessage).

Definition filteredMsg (request : ImageRequest) : WsMessage :=
  mkMsg (userId request) ImageFiltered (PMessage filteredMessage).

Definition doneMsg (request : ImageRequest) : WsMessage :=
  mkMsg (userId request) ImageGenerationDone PEmpty.

(** The terminal notification after a loop that recorded [n] rows. *)
Definition terminalMsg (request : ImageRequest) (n : nat) : WsMessage :=
  if Z.of_nat n <? count request then filteredMsg request
  else doneMsg request.

(** The request of one pass: the remainder, not the original count. *)
Definition passRequest (env : Env) (request : ImageRequest) (preset : string)
    (st : LoopState) : HttpPost :=
  sdRequest env (withCount request (count request - validImageCount st))
            preset.

Definition successesOf (arts : list SDArtifact) : list SDArtifact :=
  filter (fun a => FinishReason_eqb (finishReason a) SUCCESS) arts.

(** What holds of the locals [st'] with which the loop is left, when it
    was entered with [st] and made the requests [ps] and the rows
    [rows]. *)
Definition exitFacts (request : ImageRequest) (st st' : LoopState)
    (ps : list HttpPost) (rows : list ImageRow) : Prop :=
  (1 <= List.length ps)%nat /\
  tries st' = tries st + count request * Z.of_nat (List.length ps) /\
  validImageCount st' = validImageCount st + Z.of_nat (List.length rows) /\
  urls st' = urls st ++ map uriOf rows /\
  (tries st < maxImageTries -> tries st' - count request < maxImageTries) /\
  (validImageCount st <= count request ->
   validImageCount st' <= count request).

Definition abortTail (request : ImageRequest) (ex : LoopExit)
  : list WsMessage :=
  match ex with
  | Aborted _ => [errorMsg request]
  | _ => []
  end.

(** The world after the requests [ps] went out and nothing else
    happened. *)
Definition withPosts (w : World) (ps : list HttpPost) : World :=
  mkWorld (posts w ++ ps) (dirs w) (blobs w) (images w) (sent w) (drawn w).

Definition withSent (w : World) (ms : list WsMessage) : World :=
  mkWorld (posts w) (dirs w) (blobs w) (images w) (sent w ++ ms) (drawn w).

(** ** Scenarios

    Generation services and environments on which the properties are
    exercised. *)

Definition okArtifact : SDArtifact := mkArtifact "aGVsbG8=" 1 SUCCESS.

Definition filteredArtifact : SDArtifact :=
  mkArtifact EmptyString 2 CONTENT_FILTERED.

(** Answers every request with as many SUCCESS artifacts as asked. *)
Definition obligingService (n : nat) (p : HttpPost)
  : option (list SDArtifact) :=
  Some (repeat okArtifact (Z.to_nat (samples (body p)))).

(** Answers every request, but filters every image. *)
Definition filteringService (n : nat) (p : HttpPost)
  : option (list SDArtifact) :=
  Some (repeat filteredArtifact (Z.to_nat (samples (body p)))).

(** Answers every request with two SUCCESS images more than asked. *)
Definition generousService (n : nat) (p : HttpPost)
  : option (list SDArtifact) :=
  Some (repeat okArtifact (2 + Z.to_nat (samples (body p)))).

(** Rejects every request. *)
Definition downService (n : nat) (p : HttpPost) : option (list SDArtifact) :=
  None.

(** Three of the first ten images pass; every later image is
    filtered. *)
Definition threeThenFiltered (n : nat) (p : HttpPost)
  : option (list SDArtifact) :=
  match n with
  | O => Some (repeat okArtifact 3 ++ repeat filteredArtifact 7)
  | S _ => filteringService n p
  end.

(** Three of the first ten images pass; the second request is
    rejected. *)
Definition threeThenDown (n : nat) (p : HttpPost)
  : option (list SDArtifact) :=
  match n with
  | O => Some (repeat okArtifact 3 ++ repeat filteredArtifact 7)
  | S _ => None
  end.

(** One accepted and one filtered image first, then two accepted
    ones. *)
Definition oneThenTwo (n : nat) (p : HttpPost) : option (list SDArtifact) :=
  match n with
  | O => Some [okArtifact; filteredArtifact]
  | S _ => Some [okArtifact; okArtifact]
  end.

(** Answers every request with one accepted and one filtered image. *)
Definition stingyService (n : nat) (p : HttpPost) : option (list SDArtifact) :=
  Some [okArtifact; filteredArtifact].

Definition uuidOf (n : nat) : string :=
  ("uuid-" ++ NilEmpty.string_of_uint (Nat.to_uint n))%string.

Definition envWith (key : option string)
    (service : nat -> HttpPost -> option (list SDArtifact)) : Env :=
  mkEnv key None None (Some "http://localhost:8000") true service uuidOf.

Definition requestFor (n : Z) : ImageRequest :=
  mkRequest 1 "a dragon" n None None None.

(** ** Vocabulary of the blob store *)

Definition dataDirOf (env : Env) : string :=
  nullish (DATA_DIR env) "./public/images".

(** The object the blob store writes for an identifier, and the URI it
    hands back, in the deployment mode of [env]. *)
Definition blobOf (env : Env) (imageId imageBase64 : string) : BlobWrite :=
  if negb (isLocalDevelopment env)
  then S3Object "mythweaver-assets" (imageId ++ ".png") imageBase64
  else LocalFile (dataDirOf env ++ "/" ++ imageId ++ ".png") imageBase64.

Definition urlOf (env : Env) (imageId : string) : string :=
  if negb (isLocalDevelopment env)
  then "https://assets.mythweaver.co/" ++ (imageId ++ ".png")
  else interpolate (API_URL env) ++ "/images/" ++ imageId ++ ".png".

(** Where an object lives: the path of a file, the key of a bucket
    object. *)
Definition blobName (b : BlobWrite) : string :=
  match b with
  | LocalFile path _ => path
  | S3Object _ key _ => key
  end.

Definition blobData (b : BlobWrite) : string :=
  match b with
  | LocalFile _ data => data
  | S3Object _ _ data => data
  end.

(** The directories after one [storeImage]: the data directory is made
    in local mode when it is missing. *)
Definition dirsAfterStore (env : Env) (ds : list string) : list string :=
  if isLocalDevelopment env
  then if existsb (String.eqb (dataDirOf env)) ds then ds
       else ds ++ [dataDirOf env]
  else ds.

(** The artifacts the [for] loop takes from a batch when it starts with
    [v] valid images and [c] are requested. *)
Fixpoint taken (c v : Z) (arts : list SDArtifact) : list SDArtifact :=
  match arts with
  | [] => []
  | a :: rest => if v =? c then [] else a :: taken c (v + 1) rest
  end.

(** The identifiers [uuidv4] yields for the draws [start], ...,
    [start + n - 1]. *)
Definition drawnIds (env : Env) (start n : nat) : list string :=
  map (uuidv4 env) (seq start n).

Definition eventsOf (ms : list WsMessage) : list WebSocketEvent :=
  map ws_event ms.

(** The payload of a blob comes from a SUCCESS artifact of some answer
    of the generation service. *)
Definition fromAcceptedArtifact (env : Env) (b : BlobWrite) : Prop :=
  exists n p arts a,
    axios_post env n p = Some arts /\
    In a arts /\
    finishReason a = SUCCESS /\
    blobData b = base64 a.

(** The request a pass sends when [v] images are valid. *)
Definition requestAt (env : Env) (request : ImageRequest) (preset : string)
    (v : Z) : HttpPost :=
  sdRequest env (withCount request (count request - v)) preset.

(** Environments with a configured key, one per service. *)
Definition obligingEnv : Env := envWith (Some "sk-test") obligingService.
Definition generousEnv : Env := envWith (Some "sk-test") generousService.
Definition stingyEnv : Env := envWith (Some "sk-test") stingyService.
Definition mixedEnv : Env := envWith (Some "sk-test") threeThenFiltered.

(** * The session controller and the seed script

    [SessionController] and the seed script work on the database through
    the Prisma client.  [Backend] holds the tables they touch and the
    logs of the other effects (tracking, the completion queue, mail, the
    logger); a call is a function from the state to its outcome and the
    new state. *)

Module Backend.

Inductive HttpCode : Type := BAD_REQUEST | FORBIDDEN | NOT_FOUND.

Record AppError : Type := mkAppError {
  description : string;
  httpCode : HttpCode
}.

(** What a rejected call carries: an [AppError] thrown by the
    controller, or an error of the Prisma client: [update] or [delete]
    found no record, or the [data] of an [update] gives null to a column
    that cannot hold it. *)
Inductive Thrown : Type :=
| Raised (e : AppError)
| RecordNotFound
| ValidationError.

Inductive AppEvent : Type :=
| GetSessions
| GetSession
| CreateSession
| UpdateSession
| ArchiveSession
| DeleteSession
| CompleteSession
| SessionAudioUploaded.

Record TrackingInfo : Type := mkTrackingInfo { ip : string }.

(** A key of a JavaScript object: absent (or undefined), null, or a
    value. *)
Inductive Key (A : Type) : Type :=
| Absent
| Null
| Value (v : A).

Arguments Absent {A}.
Arguments Null {A}.
Arguments Value {A} v.

(** The columns of [Session] the controller and the PATCH route can
    read or write; a nullable column is an [option]. *)
Module Session.
Record t : Type := make {
  id : Z;
  userId : option Z;
  campaignId : Z;
  name : option string;
  imageUri : option string;
  planning : option string;
  recap : option string;
  summary : option string;
  transcript : option string;
  suggestions : option string;
  suggestedName : option string;
  suggestedSummary : option string;
  suggestedSuggestions : option string;
  suggestedImageUri : option string;
  suggestedImagePrompt : option string;
  archived : bool;
  completed : bool;
  audioName : option string;
  audioUri : option string;
  createdAt : Z
}.
End Session.

(** The [data] of [prisma.session.update].  An absent key leaves the
    column alone, null empties a nullable column, a value is written.
    [archived] and [completed] are booleans the controller negates and
    filters on, not nullable columns: Prisma refuses a [data] that gives
    them null before it touches the table. *)
Module Data.
Record t : Type := make {
  userId : Key Z;
  name : Key string;
  imageUri : Key string;
  planning : Key string;
  recap : Key string;
  summary : Key string;
  transcript : Key string;
  suggestions : Key string;
  suggestedName : Key string;
  suggestedSummary : Key string;
  suggestedSuggestions : Key string;
  suggestedImageUri : Key string;
  suggestedImagePrompt : Key string;
  archived : Key bool;
  completed : Key bool;
  audioName : Key string;
  audioUri : Key string
}.

Definition set {A : Type} (new : Key A) (old : A) : A :=
  match new with
  | Value v => v
  | Absent | Null => old
  end.

Definition setNullable {A : Type} (new : Key A) (old : option A)
  : option A :=
  match new with
  | Value v => Some v
  | Null => None
  | Absent => old
  end.

Definition isNull {A : Type} (k : Key A) : bool :=
  match k with
  | Null => true
  | Absent | Value _ => false
  end.

Definition wellTyped (d : t) : bool :=
  negb (isNull (archived d)) && negb (isNull (completed d)).

Definition apply (d : t) (s : Session.t) : Session.t :=
  Session.make
    (Session.id s)
    (setNullable (userId d) (Session.userId s))
    (Session.campaignId s)
    (setNullable (name d) (Session.name s))
    (setNullable (imageUri d) (Session.imageUri s))
    (setNullable (planning d) (Session.planning s))
    (setNullable (recap d) (Session.recap s))
    (setNullable (summary d) (Session.summary s))
    (setNullable (transcript d) (Session.transcript s))
    (setNullable (suggestions d) (Session.suggestions s))
    (setNullable (suggestedName d) (Session.suggestedName s))
    (setNullable (suggestedSummary d) (Session.suggestedSummary s))
    (setNullable (suggestedSuggestions d) (Session.suggestedSuggestions s))
    (setNullable (suggestedImageUri d) (Session.suggestedImageUri s))
    (setNullable (suggestedImagePrompt d) (Session.suggestedImagePrompt s))
    (set (archived d) (Session.archived s))
    (set (completed d) (Session.completed s))
    (setNullable (audioName d) (Session.audioName s))
    (setNullable (audioUri d) (Session.audioUri s))
    (Session.createdAt s).
End Data.

Record Member : Type := mkMember {
  memberUserId : option Z;
  memberCampaignId : Z;
  role : Z;
  memberEmail : option string
}.

Record User : Type := mkUser { userKey : Z; email : string }.

Record Campaign : Type := mkCampaign { campaignKey : Z; campaignName : string }.

Record Character : Type := mkCharacter {
  characterKey : Z;
  characterName : string
}.

Record Mail : Type := mkMail {
  template : string;
  subject : string;
  recipient : string;
  variables : list (string * string)
}.

Record State : Type := mkState {
  sessions : list Session.t;
  members : list Member;
  campaigns : list Campaign;
  users : list User;
  characters : list Character;
  tracked : list (AppEvent * Z * TrackingInfo);  (* track(event, userId, info) *)
  jobs : list (Z * Z);                 (* completeSessionQueue: userId, sessionId *)
  mails : list Mail;                   (* sendTransactionalEmail *)
  warnings : list (string * Z)         (* logger.warn *)
}.

Definition withSessions (db : State) (l : list Session.t) : State :=
  mkState l (members db) (campaigns db) (users db) (characters db)
          (tracked db) (jobs db) (mails db) (warnings db).

(** What the module reads from elsewhere: the role constant
    [CampaignRole.DM], [urlPrefix], the rows the database makes for a
    [create] (its defaults, its fresh key and time stamp), and the order
    in which the database lists two sessions of the same [createdAt]:
    [orderBy] names no other column, so the choice is the database's, and
    it may change from one state to the next. *)
Record Config : Type := mkConfig {
  DM : Z;
  urlPrefix : string;
  freshSession : list Session.t -> Session.t;
  freshUserKey : list User -> Z;
  tieOrder : State -> Session.t -> Session.t -> bool
}.

(** ** Calls *)

Definition Call (A : Type) : Type := State -> (Thrown + A) * State.

Definition pure {A : Type} (a : A) : Call A := fun db => (inr a, db).

Definition throw {A : Type} (e : Thrown) : Call A := fun db => (inl e, db).

Definition andThen {A B : Type} (m : Call A) (k : A -> Call B) : Call B :=
  fun db =>
    match m db with
    | (inl e, db') => (inl e, db')
    | (inr a, db') => k a db'
    end.

Declare Scope call_scope.
Delimit Scope call_scope with call.
Notation "x <- m ;; k" := (andThen m (fun x => k))
  (at level 61, m at next level, right associativity) : call_scope.
Notation "m ;; k" := (andThen m (fun _ => k))
  (at level 61, right associativity) : call_scope.
Local Open Scope call_scope.

(** ** The Prisma client *)

Definition hasId (key : Z) (s : Session.t) : bool := Session.id s =? key.

Definition session_findUnique (key : Z) : Call (option Session.t) :=
  fun db => (inr (find (hasId key) (sessions db)), db).

Definition session_update (key : Z) (d : Data.t) : Call Session.t :=
  fun db =>
    if negb (Data.wellTyped d) then (inl ValidationError, db)
    else
      match find (hasId key) (sessions db) with
      | None => (inl RecordNotFound, db)
      | Some s =>
          (inr (Data.apply d s),
           withSessions db
             (map (fun x => if hasId key x then Data.apply d x else x)
                  (sessions db)))
      end.

Definition session_delete (key : Z) : Call Session.t :=
  fun db =>
    match find (hasId key) (sessions db) with
    | None => (inl RecordNotFound, db)
    | Some s =>
        (inr s,
         withSessions db (filter (fun x => negb (hasId key x)) (sessions db)))
    end.

Definition session_create (row : Session.t) : Call Session.t :=
  fun db => (inr row, withSessions db (sessions db ++ [row])).

(** [orderBy: { createdAt: 'desc' }]: a later session comes first, and
    [first] says which of two sessions of the same [createdAt] does. *)
Fixpoint insertByDate (first : Session.t -> Session.t -> bool)
    (s : Session.t) (l : list Session.t) : list Session.t :=
  match l with
  | [] => [s]
  | x :: rest =>
      if Session.createdAt x <? Session.createdAt s then s :: l
      else if (Session.createdAt x =? Session.createdAt s) && first s x
           then s :: l
           else x :: insertByDate first s rest
  end.

Definition newestFirst (first : Session.t -> Session.t -> bool)
    (l : list Session.t) : list Session.t :=
  fold_right (insertByDate first) [] l.

Definition matchesWhere (user campaign : Z) (arch : bool) (s : Session.t)
  : bool :=
  match Session.userId s with
  | Some u => u =? user
  | None => false
  end
  && (Session.campaignId s =? campaign)
  && Bool.eqb (Session.archived s) arch.

(** [skip] and [take]; an undefined one is left out.  Prisma rejects a
    negative [skip] and reads a negative [take] backwards: the numbers
    are naturals here. *)
Definition page {A : Type} (skip take : option nat) (l : list A) : list A :=
  let skipped := match skip with Some n => skipn n l | None => l end in
  match take with
  | Some n => firstn n skipped
  | None => skipped
  end.

Definition session_findMany (cfg : Config) (user campaign : Z) (arch : bool)
    (skip take : option nat) : Call (list Session.t) :=
  fun db =>
    (inr (page skip take
            (newestFirst (tieOrder cfg db)
                         (filter (matchesWhere user campaign arch)
                                 (sessions db)))),
     db).

Definition member_findUnique (user campaign : Z) : Call (option Member) :=
  fun db =>
    (inr (find (fun m =>
                  match memberUserId m with
                  | Some u => u =? user
                  | None => false
                  end
                  && (memberCampaignId m =? campaign))
               (members db)),
     db).

(** [member.user], the row the member's [userId] points to. *)
Definition userOf (db : State) (m : Member) : option User :=
  match memberUserId m with
  | Some u => find (fun x => userKey x =? u) (users db)
  | None => None
  end.

(** [prisma.campaign.findUnique] with its members and their users. *)
Definition campaign_findUnique (key : Z)
  : Call (option (Campaign * list (Member * option User))) :=
  fun db =>
    (inr match find (fun c => campaignKey c =? key) (campaigns db) with
         | None => None
         | Some c =>
             Some (c,
                   map (fun m => (m, userOf db m))
                       (filter (fun m => memberCampaignId m =? campaignKey c)
                               (members db)))
         end,
     db).

(** ** The other collaborators *)

Definition track (ev : AppEvent) (user : Z) (info : TrackingInfo) : Call unit :=
  fun db =>
    (inr tt,
     mkState (sessions db) (members db) (campaigns db) (users db)
             (characters db) (tracked db ++ [(ev, user, info)]) (jobs db)
             (mails db) (warnings db)).

Definition queue_add (user session : Z) : Call unit :=
  fun db =>
    (inr tt,
     mkState (sessions db) (members db) (campaigns db) (users db)
             (characters db) (tracked db) (jobs db ++ [(user, session)])
             (mails db) (warnings db)).

Definition sendTransactionalEmail (m : Mail) : Call unit :=
  fun db =>
    (inr tt,
     mkState (sessions db) (members db) (campaigns db) (users db)
             (characters db) (tracked db) (jobs db) (mails db ++ [m])
             (warnings db)).

Definition logger_warn (msg : string) (session : Z) : Call unit :=
  fun db =>
    (inr tt,
     mkState (sessions db) (members db) (campaigns db) (users db)
             (characters db) (tracked db) (jobs db) (mails db)
             (warnings db ++ [(msg, session)])).

(** A number inside a template literal. *)
Definition showNumber (n : Z) : string := NilZero.string_of_int (Z.to_int n).

End Backend.

Module SessionController.

Import Backend.
Local Open Scope call_scope.

Record GetSessionsResponse : Type := mkGetSessionsResponse {
  data : list Session.t;
  offset : option nat;
  limit : option nat
}.

Record PostSessionRequest : Type := mkPostSessionRequest {
  post_campaignId : Z;
  post_name : string
}.

(** The body of a PATCH as it reaches [patchSession]: the route hands
    on [req.body] once [patchSessionsSchema] has accepted it, so the
    object can hold each key of that schema, with a value or with null.
    The interface [PatchSessionRequest] names seven of them; the
    controller spreads the object whole. *)
Record PatchSessionRequest : Type := mkPatchSessionRequest {
  patch_name : Key string;
  patch_archived : Key bool;
  patch_planning : Key string;
  patch_imageUri : Key string;
  patch_recap : Key string;
  patch_summary : Key string;
  patch_transcript : Key string;
  patch_suggestions : Key string;
  patch_suggestedName : Key string;
  patch_suggestedSummary : Key string;
  patch_suggestedSuggestions : Key string;
  patch_suggestedImageUri : Key string;
  patch_suggestedImagePrompt : Key string
}.

Record PostCompleteSessionRequest : Type := mkPostCompleteSessionRequest {
  complete_recap : string
}.

Record PostSessionAudioRequest : Type := mkPostSessionAudioRequest {
  audio_name : string;
  audio_uri : string
}.

Record PostSessionAudioResponse : Type := mkPostSessionAudioResponse {
  response_audioName : string;
  response_audioUri : string
}.

Section Controller.

Variable cfg : Config.

Definition getSessions (userId : Z) (trackingInfo : TrackingInfo)
    (campaignId : Z) (offset limit : option nat) (archived : bool)
  : Call GetSessionsResponse :=
  sessions <- session_findMany cfg userId campaignId archived offset limit ;;
  track GetSessions userId trackingInfo ;;
  pure (mkGetSessionsResponse sessions offset limit).

Definition getSession (userId : Z) (trackingInfo : TrackingInfo)
    (sessionId : Z) : Call Session.t :=
  session <- session_findUnique sessionId ;;
  match session with
  | None => throw (Raised (mkAppError "Session not found." NOT_FOUND))
  | Some session =>
      match Session.userId session with
      | Some owner =>
          if negb (owner =? userId)
          then throw (Raised (mkAppError
                                "You do not have access to this session."
                                FORBIDDEN))
          else track GetSession userId trackingInfo ;; pure session
      | None => track GetSession userId trackingInfo ;; pure session
      end
  end.

Definition postSession (userId : Z) (trackingInfo : TrackingInfo)
    (request : PostSessionRequest) : Call Session.t :=
  session <-
    (fun db =>
       session_create
         (let fresh := freshSession cfg (sessions db) in
          Session.make (Session.id fresh) (Some userId)
            (post_campaignId request) (Some (post_name request))
            (Session.imageUri fresh) (Session.planning fresh)
            (Session.recap fresh) (Session.summary fresh)
            (Session.transcript fresh) (Session.suggestions fresh)
            (Session.suggestedName fresh) (Session.suggestedSummary fresh)
            (Session.suggestedSuggestions fresh)
            (Session.suggestedImageUri fresh)
            (Session.suggestedImagePrompt fresh)
            (Session.archived fresh) (Session.completed fresh)
            (Session.audioName fresh) (Session.audioUri fresh)
            (Session.createdAt fresh))
         db) ;;
  track CreateSession userId trackingInfo ;;
  pure session.

(** [{ userId, ...request }]. *)
Definition patchData (userId : Z) (request : PatchSessionRequest) : Data.t :=
  Data.make (Value userId) (patch_name request) (patch_imageUri request)
            (patch_planning request) (patch_recap request)
            (patch_summary request) (patch_transcript request)
            (patch_suggestions request) (patch_suggestedName request)
            (patch_suggestedSummary request)
            (patch_suggestedSuggestions request)
            (patch_suggestedImageUri request)
            (patch_suggestedImagePrompt request)
            (patch_archived request) Absent Absent Absent.

Definition patchSession (userId : Z) (trackingInfo : TrackingInfo)
    (sessionId : Z) (request : PatchSessionRequest) : Call Session.t :=
  getSession userId trackingInfo sessionId ;;
  session <- session_update sessionId (patchData userId request) ;;
  track UpdateSession userId trackingInfo ;;
  pure session.

Definition archivedData : Data.t :=
  Data.make Absent Absent Absent Absent Absent Absent Absent Absent Absent
            Absent Absent Absent Absent (Value true) Absent Absent Absent.

Definition deleteSession (userId : Z) (trackingInfo : TrackingInfo)
    (sessionId : Z) : Call bool :=
  session <- getSession userId trackingInfo sessionId ;;
  (if negb (Session.archived session)
   then session_update sessionId archivedData ;;
        track ArchiveSession userId trackingInfo
   else session_delete sessionId ;;
        track DeleteSession userId trackingInfo) ;;
  pure true.

(** [!campaignMember || campaignMember.role !== CampaignRole.DM]. *)
Definition notDM (m : option Member) : bool :=
  match m with
  | None => true
  | Some member => negb (role member =? DM cfg)
  end.

Definition recapData (r : string) : Data.t :=
  Data.make Absent Absent Absent Absent (Value r) Absent Absent Absent Absent
            Absent Absent Absent Absent Absent Absent Absent Absent.

Definition postGenerateSummary (userId : Z) (trackingInfo : TrackingInfo)
    (sessionId : Z) (request : PostCompleteSessionRequest) : Call bool :=
  session <- getSession userId trackingInfo sessionId ;;
  campaignMember <- member_findUnique userId (Session.campaignId session) ;;
  if notDM campaignMember
  then throw (Raised (mkAppError
                        "You do not have permission to complete this session."
                        FORBIDDEN))
  else
    session_update sessionId (recapData (complete_recap request)) ;;
    queue_add userId sessionId ;;
    track CompleteSession userId trackingInfo ;;
    pure true.

(** [member.user?.email || member.email]. *)
Definition emailOf (m : Member * option User) : option string :=
  match snd m with
  | Some u => if (email u =? EmptyString)%string then memberEmail (fst m)
              else Some (email u)
  | None => memberEmail (fst m)
  end.

Definition recapMail (campaign : Campaign) (session : Session.t)
    (m : Member * option User) : Mail :=
  mkMail "post-session"
         ("🎲 MythWeaver Session Recap: " ++ campaignName campaign ++ " 🐉")
         (orElse (emailOf m) EmptyString)
         [ ("CHARACTER_NAME", orElse (emailOf m) EmptyString);
           ("CAMPAIGN_NAME", campaignName campaign);
           ("SUMMARY", orElse (Session.summary session) EmptyString);
           ("SUGGESTIONS", orElse (Session.suggestions session) EmptyString);
           ("SESSION_URL",
            (urlPrefix cfg ++ "/sessions/" ++ showNumber (Session.id session)
                       ++ "/edit")%string);
           ("SESSION_IMAGE_URI",
            orElse (Session.imageUri session) EmptyString) ].

(** [for (const member of campaign.members) { await send... }]. *)
Fixpoint mailMembers (campaign : Campaign) (session : Session.t)
    (ms : list (Member * option User)) : Call unit :=
  match ms with
  | [] => pure tt
  | m :: rest =>
      sendTransactionalEmail (recapMail campaign session m) ;;
      mailMembers campaign session rest
  end.

Definition completedData : Data.t :=
  Data.make Absent Absent Absent Absent Absent Absent Absent Absent Absent
            Absent Absent Absent Absent Absent (Value true) Absent Absent.

Definition postCompleteSession (userId : Z) (trackingInfo : TrackingInfo)
    (sessionId : Z) : Call unit :=
  session <- session_findUnique sessionId ;;
  match session with
  | None =>
      logger_warn "Session not found" sessionId ;;
      throw (Raised (mkAppError "Session not found." BAD_REQUEST))
  | Some session =>
      campaign <- campaign_findUnique (Session.campaignId session) ;;
      match campaign with
      | None =>
          logger_warn "Campaign not found" sessionId ;;
          throw (Raised (mkAppError "Campaign not found." BAD_REQUEST))
      | Some (campaign, campaignMembers) =>
          mailMembers campaign session campaignMembers ;;
          session_update sessionId completedData ;;
          pure tt
      end
  end.

Definition audioData (request : PostSessionAudioRequest) : Data.t :=
  Data.make Absent Absent Absent Absent Absent Absent Absent Absent Absent
            Absent Absent Absent Absent Absent Absent
            (Value (audio_name request)) (Value (audio_uri request)).

Definition postSessionAudio (userId : Z) (trackingInfo : TrackingInfo)
    (sessionId : Z) (request : PostSessionAudioRequest)
  : Call PostSessionAudioResponse :=
  session <- getSession userId trackingInfo sessionId ;;
  campaignMember <- member_findUnique userId (Session.campaignId session) ;;
  if notDM campaignMember
  then throw (Raised (mkAppError
                        "You do not have permission to add audio to this session."
                        FORBIDDEN))
  else
    session_update sessionId (audioData request) ;;
    track SessionAudioUploaded userId trackingInfo ;;
    pure (mkPostSessionAudioResponse (audio_name request)
                                     (audio_uri request)).

End Controller.

End SessionController.

Module Seed.

Import Backend.
Local Open Scope call_scope.

Record SeedUser : Type := mkSeedUser { seed_email : string }.

Definition users : list SeedUser := [ mkSeedUser "azurfluh@bitmischief.io" ].

Definition characters : list Character := [ mkCharacter 1 "Muad'Dib" ].

Section Script.

Variable cfg : Config.

(** [prisma.user.upsert({ where: { email }, update: {}, create })]: a
    row that is found is left as it is. *)
Definition user_upsert (whereEmail : string) (createEmail : string)
  : Call User :=
  fun db =>
    match find (fun u => (email u =? whereEmail)%string) (Backend.users db) with
    | Some u => (inr u, db)
    | None =>
        let u := mkUser (freshUserKey cfg (Backend.users db)) createEmail in
        (inr u,
         mkState (sessions db) (members db) (campaigns db)
                 (Backend.users db ++ [u]) (Backend.characters db)
                 (tracked db) (jobs db) (mails db) (warnings db))
    end.

(** [prisma.character.upsert({ where: { id }, update: {}, create })]. *)
Definition character_upsert (whereId : Z) (create : Character)
  : Call Character :=
  fun db =>
    match find (fun c => characterKey c =? whereId) (Backend.characters db) with
    | Some c => (inr c, db)
    | None =>
        (inr create,
         mkState (sessions db) (members db) (campaigns db) (Backend.users db)
                 (Backend.characters db ++ [create]) (tracked db) (jobs db)
                 (mails db) (warnings db))
    end.

Fixpoint seedUsers (l : list SeedUser) : Call unit :=
  match l with
  | [] => pure tt
  | user :: rest =>
      user_upsert (seed_email user) (seed_email user) ;; seedUsers rest
  end.

Fixpoint seedCharacters (l : list Character) : Call unit :=
  match l with
  | [] => pure tt
  | character :: rest =>
      character_upsert (characterKey character) character ;;
      seedCharacters rest
  end.

Definition seed : Call unit :=
  seedUsers users ;; seedCharacters characters.

End Script.

End Seed.

(** ** Vocabulary of the controller's properties *)

Module SessionTerms.

Import Backend SessionController.

(** The caller may see the session: it has no owner, or the caller owns
    it. *)
Definition accessible (user : Z) (s : Session.t) : Prop :=
  Session.userId s = None \/ Session.userId s = Some user.

(** The state after [track]. *)
Definition tracking (db : State) (ev : AppEvent) (user : Z)
    (info : TrackingInfo) : State :=
  mkState (sessions db) (members db) (campaigns db) (users db)
          (characters db) (tracked db ++ [(ev, user, info)]) (jobs db)
          (mails db) (warnings db).

Definition notFound : Thrown :=
  Raised (mkAppError "Session not found." NOT_FOUND).

Definition noAccess : Thrown :=
  Raised (mkAppError "You do not have access to this session." FORBIDDEN).

(** [m] is the row of [CampaignMember] that makes [user] a member of
    [campaign]. *)
Definition memberOf (db : State) (user campaign : Z) (m : Member) : Prop :=
  In m (members db) /\
  memberUserId m = Some user /\
  memberCampaignId m = campaign.

(** The table holds one row at most for a user and a campaign: the pair
    is the compound key [userId_campaignId] by which the controller looks
    a member up. *)
Definition uniqueMembers (db : State) : Prop :=
  forall user campaign m m',
    memberOf db user campaign m -> memberOf db user campaign m' -> m = m'.

(** A nullable text as it is sent: empty when it is null. *)
Definition textOf (o : option string) : string :=
  match o with
  | Some x => x
  | None => EmptyString
  end.

(** The address a member is mailed at: the e-mail of the member's user
    when the member has a user with one, else the address kept on the
    member row, else the empty address. *)
Definition addressOf (db : State) (m : Member) : string :=
  match memberUserId m with
  | Some u =>
      match find (fun x => userKey x =? u) (users db) with
      | Some x =>
          if (email x =? EmptyString)%string then textOf (memberEmail m)
          else email x
      | None => textOf (memberEmail m)
      end
  | None => textOf (memberEmail m)
  end.

(** The session with another recap, with a recording, marked
    completed: every other column as it was. *)
Definition withRecap (s : Session.t) (r : string) : Session.t :=
  Session.make (Session.id s) (Session.userId s) (Session.campaignId s)
    (Session.name s) (Session.imageUri s) (Session.planning s) (Some r)
    (Session.summary s) (Session.transcript s) (Session.suggestions s)
    (Session.suggestedName s) (Session.suggestedSummary s)
    (Session.suggestedSuggestions s) (Session.suggestedImageUri s)
    (Session.suggestedImagePrompt s) (Session.archived s)
    (Session.completed s) (Session.audioName s) (Session.audioUri s)
    (Session.createdAt s).

Definition withAudio (s : Session.t) (file uri : string) : Session.t :=
  Session.make (Session.id s) (Session.userId s) (Session.campaignId s)
    (Session.name s) (Session.imageUri s) (Session.planning s)
    (Session.recap s) (Session.summary s) (Session.transcript s)
    (Session.suggestions s) (Session.suggestedName s)
    (Session.suggestedSummary s) (Session.suggestedSuggestions s)
    (Session.suggestedImageUri s) (Session.suggestedImagePrompt s)
    (Session.archived s) (Session.completed s) (Some file) (Some uri)
    (Session.createdAt s).

Definition asCompleted (s : Session.t) : Session.t :=
  Session.make (Session.id s) (Session.userId s) (Session.campaignId s)
    (Session.name s) (Session.imageUri s) (Session.planning s)
    (Session.recap s) (Session.summary s) (Session.transcript s)
    (Session.suggestions s) (Session.suggestedName s)
    (Session.suggestedSummary s) (Session.suggestedSuggestions s)
    (Session.suggestedImageUri s) (Session.suggestedImagePrompt s)
    (Session.archived s) true (Session.audioName s) (Session.audioUri s)
    (Session.createdAt s).

Definition newerOrEqual (a b : Session.t) : Prop :=
  Session.createdAt b <= Session.createdAt a.

Definition archive (s : Session.t) : Session.t := Data.apply archivedData s.

Definition notTheDM (what : string) : Thrown :=
  Raised (mkAppError what FORBIDDEN).

Definition badRequest (what : string) : Thrown :=
  Raised (mkAppError what BAD_REQUEST).

(** The state after [logger.warn]. *)
Definition warned (db : State) (msg : string) (session : Z) : State :=
  mkState (sessions db) (members db) (campaigns db) (users db)
          (characters db) (tracked db) (jobs db) (mails db)
          (warnings db ++ [(msg, session)]).

(** The session after a patch by [user]. *)
Definition patched (user : Z) (request : PatchSessionRequest)
    (s : Session.t) : Session.t :=
  Data.apply (patchData user request) s.

End SessionTerms.

(** ** Scenarios for the controller *)

Module Fixtures.

Import Backend.

Definition info : TrackingInfo := mkTrackingInfo "127.0.0.1".

Definition blankSession (key : Z) (owner : option Z) (campaign : Z)
    (arch : bool) (created : Z) : Session.t :=
  Session.make key owner campaign (Some "Session") None None None None None
               None None None None None None arch false None None created.

(** User 1 is the DM of campaign 7 and owns session 1; session 2 of the
    same campaign belongs to user 2, a player; session 3 has no owner. *)
Definition db0 : State :=
  mkState
    [ blankSession 1 (Some 1) 7 false 100;
      blankSession 2 (Some 2) 7 false 200;
      blankSession 3 None 7 false 300 ]
    [ mkMember (Some 1) 7 1 None;
      mkMember (Some 2) 7 2 (Some "player@example.org");
      mkMember None 7 2 (Some "guest@example.org") ]
    [ mkCampaign 7 "Dune" ]
    [ mkUser 1 "dm@example.org"; mkUser 2 EmptyString ]
    [] [] [] [] [].

Definition session1 : Session.t := blankSession 1 (Some 1) 7 false 100.

Definition session2 : Session.t := blankSession 2 (Some 2) 7 false 200.

Definition session3 : Session.t := blankSession 3 None 7 false 300.

(** Four sessions of user 1 in campaign 7, created at different
    times. *)
Definition shelf : State :=
  mkState
    [ blankSession 1 (Some 1) 7 false 100;
      blankSession 2 (Some 1) 7 false 400;
      blankSession 3 (Some 1) 7 false 200;
      blankSession 4 (Some 1) 7 false 300 ]
    [ mkMember (Some 1) 7 1 None ]
    [ mkCampaign 7 "Dune" ]
    [ mkUser 1 "dm@example.org" ]
    [] [] [] [] [].

Definition rename : SessionController.PatchSessionRequest :=
  SessionController.mkPatchSessionRequest (Value "The spice must flow") Absent
    Absent Absent Absent Absent Absent Absent Absent Absent Absent Absent
    Absent.

(** A body with a new name, null for the summary, a suggested name and
    the archived flag. *)
Definition revise : SessionController.PatchSessionRequest :=
  SessionController.mkPatchSessionRequest (Value "The spice must flow")
    (Value true) Absent Absent Absent Null Absent Absent (Value "Arrakis")
    Absent Absent Absent Absent.

Definition recap0 : SessionController.PostCompleteSessionRequest :=
  SessionController.mkPostCompleteSessionRequest "The worm came.".

Definition audio0 : SessionController.PostSessionAudioRequest :=
  SessionController.mkPostSessionAudioRequest "session.mp3"
    "https://cdn.example.org/session.mp3".

Definition newSession : SessionController.PostSessionRequest :=
  SessionController.mkPostSessionRequest 7 "New Session".

Definition cfg0 : Config :=
  mkConfig 1 "https://app.example.org"
           (fun l => blankSession (Z.of_nat (List.length l) + 1) None 0 false 0)
           (fun l => Z.of_nat (List.length l) + 1)
           (fun _ a b => Session.id a <? Session.id b).

End Fixtures.

(** ** Vocabulary of the later passes *)

(** The locals and the world with which the loop of [generateImage]
    stands before its pass number [n + 1]: [n] passes were made, each
    got an answer, reached the loop test and found it true.  [None] when
    the loop was left before that. *)
Fixpoint afterPasses (env : Env) (n : nat) (request : ImageRequest)
    (preset : string) (st : LoopState) (w : World)
  : option (LoopState * World) :=
  match n with
  | O => Some (st, w)
  | S n' =>
      match loopBody env request preset st w with
      | (Completed st1, w1) =>
          if loopTest request st1
          then afterPasses env n' request preset st1 w1
          else None
      | (Abort _, _) => None
      end
  end.

(** * The image service when a collaborator fails

    The pipeline above takes the collaborators at their word: an answer
    of the generation service holds a list of artifacts, and the file
    system, the bucket, the image table and the websocket do what they
    are asked.  [generateImage] has no [try] of its own and
    [postToStableDiffusion] has one around [axios.post] only, so a
    failure anywhere else leaves [generateImage] as an exception.
    [Faulty] is the same code with those failures in it: [Faults] says
    where they strike, and with no fault the two models agree
    ([faultless_generateImage]). *)

Module Faulty.

Inductive Exception : Type :=
| Error (message : string)   (* [throw new Error(message)] *)
| TypeError                  (* a property read on undefined *)
| SystemError                (* thrown by [fs.mkdirSync], [fs.writeFileSync] *)
| S3ServiceException         (* [s3.send] rejected *)
| PrismaClientError          (* [prisma.image.create] rejected *)
| SocketError.               (* [sendWebsocketMessage] rejected *)

(** What an answer of the generation service holds: [data.artifacts],
    a [data] without [artifacts], or no [data]. *)
Inductive Shape : Type :=
| WithArtifacts
| WithoutArtifacts
| WithoutData.

(** Where the collaborators fail; each may depend on all that happened
    before. *)
Record Faults : Type := mkFaults {
  answerShape : nat -> HttpPost -> Shape;
  mkdirSync_throws : World -> string -> bool;
  writeFileSync_throws : World -> string -> bool;
  s3_send_rejects : World -> string -> bool;
  image_create_rejects : World -> ImageData -> bool;
  sendWebsocketMessage_rejects : World -> WsMessage -> bool
}.

Definition noFaults : Faults :=
  mkFaults (fun _ _ => WithArtifacts) (fun _ _ => false) (fun _ _ => false)
           (fun _ _ => false) (fun _ _ => false) (fun _ _ => false).

(** The outcome of [axios.post]: a rejected promise, or the [data] of
    the response. *)
Inductive Answer : Type :=
| Rejected
| NoData
| Data (artifacts : option (list SDArtifact)).

(** [{ artifacts: response.data.artifacts, updatedPrompt }]. *)
Record GenerationResponse : Type := mkGenerationResponse {
  response_artifacts : option (list SDArtifact);
  response_updatedPrompt : option string
}.

(** A computation that can throw. *)
Definition F (A : Type) : Type := World -> (Exception + A) * World.

Definition retF {A : Type} (a : A) : F A := fun w => (inr a, w).

Definition throwF {A : Type} (e : Exception) : F A := fun w => (inl e, w).

Definition bindF {A B : Type} (m : F A) (k : A -> F B) : F B :=
  fun w =>
    match m w with
    | (inl e, w') => (inl e, w')
    | (inr a, w') => k a w'
    end.

(** A computation of the pipeline above, which throws nothing. *)
Definition ok {A : Type} (m : M A) : F A :=
  fun w => let (a, w') := m w in (inr a, w').

Declare Scope fio_scope.
Delimit Scope fio_scope with fio.
Notation "x <- m ;; k" := (bindF m (fun x => k))
  (at level 61, m at next level, right associativity) : fio_scope.
Notation "m ;; k" := (bindF m (fun _ => k))
  (at level 61, right associativity) : fio_scope.
Local Open Scope fio_scope.

Section Pipeline.

Variable env : Env.
Variable flt : Faults.

(** *** Primitive effects *)

Definition sendWebsocketMessage (user : Z) (ev : WebSocketEvent) (p : Payload)
  : F unit :=
  fun w =>
    if sendWebsocketMessage_rejects flt w (mkMsg user ev p)
    then (inl SocketError, w)
    else ok (sendWebsocketMessage user ev p) w.

(** No file has the empty path. *)
Definition existsSync (dir : string) : F bool :=
  fun w =>
    if (dir =? EmptyString)%string then (inr false, w)
    else ok (existsSync dir) w.

(** [fs.mkdirSync(dir, { recursive: true })]: ENOENT for the empty
    path. *)
Definition mkdirSync (dir : string) : F unit :=
  fun w =>
    if (dir =? EmptyString)%string || mkdirSync_throws flt w dir
    then (inl SystemError, w)
    else ok (mkdirSync dir) w.

Definition writeFileSync (path data : string) : F unit :=
  fun w =>
    if writeFileSync_throws flt w path then (inl SystemError, w)
    else ok (writeBlob (LocalFile path data)) w.

Definition s3_send (bucket key data : string) : F unit :=
  fun w =>
    if s3_send_rejects flt w key then (inl S3ServiceException, w)
    else ok (writeBlob (S3Object bucket key data)) w.

Definition prisma_image_create (data : ImageData) : F ImageRow :=
  fun w =>
    if image_create_rejects flt w data then (inl PrismaClientError, w)
    else ok (prisma_image_create data) w.

(** [axios.post]: the request is logged; the service rejects it or
    answers, and the answer has the shape [answerShape] gives it. *)
Definition http_post (p : HttpPost) : F Answer :=
  fun w =>
    (inr match axios_post env (List.length (posts w)) p with
         | None => Rejected
         | Some arts =>
             match answerShape flt (List.length (posts w)) p with
             | WithArtifacts => Data (Some arts)
             | WithoutArtifacts => Data None
             | WithoutData => NoData
             end
         end,
     mkWorld (posts w ++ [p]) (dirs w) (blobs w) (images w) (sent w)
             (drawn w)).

(** *** Blob store *)

Definition saveImageLocally (imageId imageBase64 : string) : F string :=
  let dataDir := nullish (DATA_DIR env) "./public/images" in
  ex <- existsSync dataDir ;;
  (if negb ex then mkdirSync dataDir else retF tt) ;;
  writeFileSync (dataDir ++ "/" ++ imageId ++ ".png") imageBase64 ;;
  retF (interpolate (API_URL env) ++ "/images/" ++ imageId ++ ".png")%string.

Definition uploadImage (imageId imageBase64 : string) : F string :=
  let key := (imageId ++ ".png")%string in
  s3_send "mythweaver-assets" key imageBase64 ;;
  retF ("https://assets.mythweaver.co/" ++ key)%string.

(** *** Generation client: the [try] covers [axios.post], the read of
    [response.data.artifacts] comes after it. *)
Definition postToStableDiffusion (request : ImageRequest) (preset : string)
    (promptHistory : list string) (depth : Z)
  : F (option GenerationResponse) :=
  if 5 <? depth then retF None
  else
    response <- http_post (sdRequest env request preset) ;;
    match response with
    | Rejected =>
        sendWebsocketMessage (userId request) ImageError
                             (PMessage imageErrorMessage) ;;
        retF None
    | NoData => throwF TypeError
    | Data arts =>
        retF (Some (mkGenerationResponse arts
                      (if depth =? 0 then None else Some (prompt request))))
    end.

(** *** Retry orchestrator *)

Definition storeImage (imageId imageBase64 : string) : F string :=
  if negb (isLocalDevelopment env) then uploadImage imageId imageBase64
  else saveImageLocally imageId imageBase64.

Fixpoint acceptArtifacts (request : ImageRequest) (preset : string)
    (arts : list SDArtifact) (st : LoopState) : F LoopState :=
  match arts with
  | [] => retF st
  | image :: rest =>
      if validImageCount st =? count request then retF st
      else
        imageId <- ok (draw_uuid env) ;;
        url <- storeImage imageId (base64 image) ;;
        created <- prisma_image_create (imageData request preset url) ;;
        sendWebsocketMessage (userId request) ImageCreated (PImage created) ;;
        acceptArtifacts request preset rest
          (mkLoop (urls st ++ [url]) (validImageCount st + 1) (tries st))
  end.

(** One pass; [imageResponse.artifacts.filter] throws when the answer
    had no [artifacts]. *)
Definition loopBody (request : ImageRequest) (preset : string)
    (st : LoopState) : F Iteration :=
  let st1 := mkLoop (urls st) (validImageCount st) (tries st + count request) in
  imageResponse <-
    postToStableDiffusion
      (withCount request (count request - validImageCount st1)) preset [] 0 ;;
  match imageResponse with
  | None => retF (Abort st1)
  | Some resp =>
      (if truthy (response_updatedPrompt resp)
       then sendWebsocketMessage (userId request) ImagePromptRephrased
              (PText (interpolate (response_updatedPrompt resp)))
       else retF tt) ;;
      match response_artifacts resp with
      | None => throwF TypeError
      | Some arts =>
          let successes :=
            filter (fun a => FinishReason_eqb (finishReason a) SUCCESS) arts in
          st2 <- acceptArtifacts request preset successes st1 ;;
          retF (Completed st2)
      end
  end.

Fixpoint doWhile (fuel : nat) (request : ImageRequest) (preset : string)
    (st : LoopState) : F LoopExit :=
  match fuel with
  | O => retF OutOfFuel
  | S fuel' =>
      it <- loopBody request preset st ;;
      match it with
      | Abort st' => retF (Aborted st')
      | Completed st' =>
          if loopTest request st' then doWhile fuel' request preset st'
          else retF (Finished st')
      end
  end.

(** What the caller of [generateImage] observes: the exception the
    promise is rejected with, or the value it resolves to. *)
Inductive Result : Type :=
| Throws (e : Exception)
| Returns (v : option (list string))
| OutOfPasses.

Definition generateImage_fuel (fuel : nat) (request : ImageRequest)
  : World -> Result * World :=
  fun w =>
    if negb (truthy (apiKey env))
    then (Throws (Error missingKeyMessage), w)
    else
      match doWhile fuel request (presetOf request) initialLoop w with
      | (inl e, w') => (Throws e, w')
      | (inr OutOfFuel, w') => (OutOfPasses, w')
      | (inr (Aborted _), w') => (Returns None, w')
      | (inr (Finished st), w') =>
          match (if validImageCount st <? count request
                 then sendWebsocketMessage (userId request) ImageFiltered
                        (PMessage filteredMessage)
                 else sendWebsocketMessage (userId request)
                        ImageGenerationDone PEmpty) w' with
          | (inl e, w'') => (Throws e, w'')
          | (inr _, w'') => (Returns (Some (urls st)), w'')
          end
      end.

Definition generateImage (request : ImageRequest) : World -> Result * World :=
  generateImage_fuel (Z.to_nat maxImageTries) request.

End Pipeline.

(** The outcome of the pipeline above, as an outcome here. *)
Definition outcomeOf (o : Outcome) : Result :=
  match o with
  | Threw msg => Throws (Error msg)
  | Returned v => Returns v
  | Unfinished => OutOfPasses
  end.

(** No collaborator fails, and the data directory has a name where it
    is used. *)
Definition quiet (env : Env) (flt : Faults) : Prop :=
  (forall n p, answerShape flt n p = WithArtifacts) /\
  (forall w d, mkdirSync_throws flt w d = false) /\
  (forall w f, writeFileSync_throws flt w f = false) /\
  (forall w k, s3_send_rejects flt w k = false) /\
  (forall w d, image_create_rejects flt w d = false) /\
  (forall w m, sendWebsocketMessage_rejects flt w m = false) /\
  (isLocalDevelopment env = true ->
   nullish (DATA_DIR env) "./public/images" <> EmptyString).

End Faulty.

(** ** Scenarios with a failing collaborator *)

(** The service answers every request without [artifacts]. *)
Definition emptyAnswers : Faulty.Faults :=
  Faulty.mkFaults (fun _ _ => Faulty.WithoutArtifacts) (fun _ _ => false)
                  (fun _ _ => false) (fun _ _ => false) (fun _ _ => false)
                  (fun _ _ => false).

(** The image table takes one row and rejects the next. *)
Definition secondRowRejected : Faulty.Faults :=
  Faulty.mkFaults (fun _ _ => Faulty.WithArtifacts) (fun _ _ => false)
                  (fun _ _ => false) (fun _ _ => false)
                  (fun w _ => (List.length (images w) =? 1)%nat)
                  (fun _ _ => false).

(** Local development with [DATA_DIR] set to the empty string. *)
Definition namelessDirEnv : Env :=
  mkEnv (Some "sk-test") None (Some EmptyString)
        (Some "http://localhost:8000") true obligingService uuidOf.

(** ** Reasoning about runs *)

Section Runs.

Variable env : Env.
Variable request : ImageRequest.
Variable preset : string.

Ltac run :=
  repeat (unfold bind, ret, sendWebsocketMessage, writeBlob, existsSync,
          mkdirSync, prisma_image_create, draw_uuid, http_post in *;
          simpl in * ).

(** The blob store writes one object and touches nothing else that the
    pipeline logs. *)
Lemma storeImage_spec (imageId data : string) (w : World) :
  exists b destDirs,
    storeImage env imageId data w
    = (match b with
       | LocalFile _ _ =>
           (interpolate (API_URL env) ++ "/images/" ++ imageId ++ ".png")%string
       | S3Object _ key _ => ("https://assets.mythweaver.co/" ++ key)%string
       end,
       mkWorld (posts w) destDirs (blobs w ++ [b]) (images w) (sent w)
               (drawn w)).
Proof.
  unfold storeImage, uploadImage, saveImageLocally.
  destruct (isLocalDevelopment env); simpl.
  - run. destruct (existsb _ (dirs w)); simpl;
      eexists (LocalFile _ _), _; reflexivity.
  - run. eexists (S3Object _ _ _), _; reflexivity.
Qed.

Lemma acceptArtifacts_spec (arts : list SDArtifact) :
  forall (st : LoopState) (w : World) (st' : LoopState) (w' : World),
    acceptArtifacts env request preset arts st w = (st', w') ->
    exists rows bs,
      posts w' = posts w /\
      images w' = images w ++ rows /\
      blobs w' = blobs w ++ bs /\
      List.length bs = List.length rows /\
      sent w' = sent w ++ map (createdMsg request) rows /\
      urls st' = urls st ++ map uriOf rows /\
      validImageCount st' = validImageCount st + Z.of_nat (List.length rows) /\
      tries st' = tries st /\
      (validImageCount st <= count request ->
       validImageCount st'
       = Z.min (count request)
               (validImageCount st + Z.of_nat (List.length arts))).
Proof.
  induction arts as [|image rest IH]; intros st w st' w' H.
  - inversion H; subst. exists [], []. rewrite !app_nil_r. simpl.
    repeat split; try lia.
  - simpl in H. destruct (validImageCount st =? count request) eqn:E.
    + inversion H; subst. exists [], []. rewrite !app_nil_r.
      apply Z.eqb_eq in E. simpl. repeat split; try lia.
    + apply Z.eqb_neq in E. unfold bind at 1 in H. simpl in H.
      unfold bind at 1 in H.
      destruct (storeImage_spec (uuidv4 env (drawn w)) (base64 image)
                  (mkWorld (posts w) (dirs w) (blobs w) (images w) (sent w)
                           (S (drawn w)))) as (b & dd & Hs).
      rewrite Hs in H. clear Hs. run.
      apply IH in H. simpl in H.
      destruct H as (rows & bs & Hp & Hi & Hb & Hl & Hm & Hu & Hv & Ht & Hmin).
      eexists (_ :: rows), (b :: bs).
      rewrite Hp, Hi, Hb, Hm, Hu, Hv, Ht. rewrite <- !app_assoc. simpl.
      repeat split; try reflexivity; lia.
Qed.

Lemma postToStableDiffusion_spec (r : ImageRequest) (history : list string)
    (depth : Z) (w : World) :
  depth <= 5 ->
  postToStableDiffusion env r preset history depth w
  = match axios_post env (List.length (posts w)) (sdRequest env r preset) with
    | None =>
        (None,
         mkWorld (posts w ++ [sdRequest env r preset]) (dirs w) (blobs w)
                 (images w)
                 (sent w ++ [mkMsg (userId r) ImageError
                                   (PMessage imageErrorMessage)])
                 (drawn w))
    | Some arts =>
        (Some (mkResponse arts
                 (if depth =? 0 then None else Some (prompt r))),
         mkWorld (posts w ++ [sdRequest env r preset]) (dirs w) (blobs w)
                 (images w) (sent w) (drawn w))
    end.
Proof.
  intros Hd. unfold postToStableDiffusion.
  replace (5 <? depth) with false by (symmetry; apply Z.ltb_ge; lia).
  run. destruct (axios_post env _ _); reflexivity.
Qed.

(** One pass: exactly one request goes out, asking for the remainder;
    the try counter grows by the original count; a rejected request
    aborts after the error notification, an answered one records some
    rows, one blob and one notification each. *)
Lemma loopBody_spec (st : LoopState) (w : World) (it : Iteration) (w' : World) :
  loopBody env request preset st w = (it, w') ->
  exists rows bs,
    posts w' = posts w ++ [passRequest env request preset st] /\
    images w' = images w ++ rows /\
    blobs w' = blobs w ++ bs /\
    List.length bs = List.length rows /\
    match it with
    | Abort st' =>
        axios_post env (List.length (posts w)) (passRequest env request preset st) = None /\
        rows = [] /\
        st' = mkLoop (urls st) (validImageCount st)
                     (tries st + count request) /\
        sent w' = sent w ++ [errorMsg request]
    | Completed st' =>
        exists arts,
          axios_post env (List.length (posts w)) (passRequest env request preset st) = Some arts /\
          sent w' = sent w ++ map (createdMsg request) rows /\
          urls st' = urls st ++ map uriOf rows /\
          validImageCount st'
          = validImageCount st + Z.of_nat (List.length rows) /\
          tries st' = tries st + count request /\
          (validImageCount st <= count request ->
           validImageCount st'
           = Z.min (count request)
               (validImageCount st
                + Z.of_nat (List.length (successesOf arts))))
    end.
Proof.
  unfold loopBody. unfold bind at 1.
  rewrite postToStableDiffusion_spec by lia. simpl validImageCount.
  fold (passRequest env request preset st).
  destruct (axios_post env _ _) as [arts|] eqn:Hax; intros H.
  - simpl in H. unfold bind at 1 in H. unfold ret at 1 in H.
    unfold bind in H.
    destruct (acceptArtifacts _ _ _ _ _ _) as [st2 w2] eqn:Hacc.
    inversion H; subst it w'. clear H.
    apply acceptArtifacts_spec in Hacc. simpl in Hacc.
    destruct Hacc as (rows & bs & Hp & Hi & Hb & Hl & Hm & Hu & Hv & Ht & Hmin).
    exists rows, bs. repeat split; try assumption.
    exists arts. repeat split; assumption.
  - inversion H; subst it w'. exists [], []. simpl.
    rewrite !app_nil_r. repeat split; reflexivity.
Qed.

Lemma doWhile_spec (fuel : nat) :
  forall (st : LoopState) (w : World) (ex : LoopExit) (w' : World),
    doWhile env fuel request preset st w = (ex, w') ->
    exists ps rows bs,
      posts w' = posts w ++ ps /\
      images w' = images w ++ rows /\
      blobs w' = blobs w ++ bs /\
      List.length bs = List.length rows /\
      sent w' = sent w ++ map (createdMsg request) rows ++ abortTail request ex /\
      (0 <= validImageCount st <= count request ->
       Forall (fun p => 0 <= samples (body p) <= count request) ps /\
       validImageCount st + Z.of_nat (List.length rows) <= count request) /\
      match ex with
      | OutOfFuel => True
      | Aborted st' =>
          exitFacts request st st' ps rows /\
          exists ps0 p,
            ps = ps0 ++ [p] /\
            axios_post env (List.length (posts w) + List.length ps0) p = None
      | Finished st' =>
          exitFacts request st st' ps rows /\ loopTest request st' = false
      end.
Proof.
  induction fuel as [|fuel IH]; intros st w ex w' H.
  - inversion H; subst. exists [], [], []. simpl. rewrite !app_nil_r.
    repeat split; auto; lia.
  - simpl in H. unfold bind at 1 in H.
    destruct (loopBody env request preset st w) as [it w1] eqn:Hb.
    apply loopBody_spec in Hb.
    destruct Hb as (rows1 & bs1 & Hp1 & Hi1 & Hb1 & Hl1 & Hit).
    assert (Hsamp : 0 <= validImageCount st <= count request ->
                    0 <= samples (body (passRequest env request preset st)) <= count request)
      by (simpl; lia).
    destruct it as [st1|st1].
    + destruct Hit as (Hax & -> & -> & Hs1). inversion H; subst ex w'.
      exists [passRequest env request preset st], [], bs1. simpl.
      repeat split; try assumption; try (simpl; lia).
      * constructor; auto.
      * rewrite app_nil_r. reflexivity.
      * exists [], (passRequest env request preset st).
        rewrite Nat.add_0_r. split; [reflexivity|exact Hax].
    + destruct Hit as (arts & _ & Hs1 & Hu1 & Hv1 & Ht1 & Hmin1).
      destruct (loopTest request st1) eqn:Htest.
      * apply IH in H.
        destruct H as (ps & rows & bs & Hp & Hi & Hb & Hl & Hs & Hsam & Hex).
        exists (passRequest env request preset st :: ps), (rows1 ++ rows), (bs1 ++ bs).
        rewrite Hp, Hi, Hb, Hs, Hp1, Hi1, Hb1, Hs1.
        rewrite map_app, <- !app_assoc, !length_app. simpl.
        unfold loopTest in Htest. apply andb_prop in Htest.
        destruct Htest as [Hlt1 Hlt2].
        apply Z.ltb_lt in Hlt1. apply Z.ltb_lt in Hlt2.
        assert (Hgo : 0 <= validImageCount st <= count request ->
                      0 <= validImageCount st1 <= count request) by lia.
        repeat split; try reflexivity; try lia.
        -- constructor; [auto|]. apply Hsam. auto.
        -- unfold exitFacts in *. rewrite map_app, length_app.
           destruct ex as [st'|st'|]; [| |exact I].
           ++ destruct Hex as ((E1 & E2 & E3 & E4 & E5 & E6) & ps0 & p & Eps & Hax).
              rewrite E2, E3, E4, Hu1, Hv1, Ht1, <- app_assoc.
              cbn [List.length].
              repeat split; try reflexivity; try lia.
              exists (passRequest env request preset st :: ps0), p.
              rewrite Eps. split; [reflexivity|].
              rewrite Hp1, length_app in Hax. cbn [List.length] in *.
              rewrite <- Hax. f_equal. lia.
           ++ destruct Hex as ((E1 & E2 & E3 & E4 & E5 & E6) & E7).
              rewrite E2, E3, E4, Hu1, Hv1, Ht1, <- app_assoc.
              cbn [List.length].
              repeat split; try reflexivity; try lia. exact E7.
      * inversion H; subst ex w'.
        exists [passRequest env request preset st], rows1, bs1. simpl.
        rewrite app_nil_r. unfold exitFacts. cbn [List.length].
        repeat split; try assumption; try lia.
        constructor; auto.
Qed.

(** The loop is left before the fuel is: each further pass needs
    [validImageCount < count], hence a positive [count], and adds it to
    [tries], which must stay below [maxImageTries]. *)
Lemma doWhile_terminates (fuel : nat) :
  forall (st : LoopState) (w : World),
    0 <= validImageCount st ->
    (1 <= fuel)%nat ->
    maxImageTries - tries st <= Z.of_nat fuel ->
    fst (doWhile env fuel request preset st w) <> OutOfFuel.
Proof.
  induction fuel as [|fuel IH]; intros st w Hv Hf Ht; [lia|].
  simpl. unfold bind at 1.
  destruct (loopBody env request preset st w) as [it w1] eqn:Hb.
  apply loopBody_spec in Hb.
  destruct Hb as (rows1 & bs1 & _ & _ & _ & _ & Hit).
  destruct it as [st1|st1]; [simpl; discriminate|].
  destruct Hit as (arts & _ & _ & _ & Hv1 & Ht1 & _).
  destruct (loopTest request st1) eqn:Htest; [|simpl; discriminate].
  unfold loopTest in Htest. apply andb_prop in Htest.
  destruct Htest as [Hlt1 Hlt2].
  apply Z.ltb_lt in Hlt1. apply Z.ltb_lt in Hlt2.
  apply IH; lia.
Qed.

Lemma doWhile_more_fuel (fuel : nat) :
  forall (extra : nat) (st : LoopState) (w : World),
    fst (doWhile env fuel request preset st w) <> OutOfFuel ->
    doWhile env (fuel + extra) request preset st w
    = doWhile env fuel request preset st w.
Proof.
  induction fuel as [|fuel IH]; intros extra st w H.
  - simpl in H. congruence.
  - simpl in *. unfold bind at 1 in H. unfold bind at 1. unfold bind at 1.
    destruct (loopBody env request preset st w) as [it w1].
    destruct it as [st1|st1]; [reflexivity|].
    destruct (loopTest request st1); [|reflexivity].
    apply IH. exact H.
Qed.

(** *** Unfolding the loop *)

Lemma doWhile_unfold (fuel : nat) (st : LoopState) (w : World) :
  doWhile env (S fuel) request preset st w
  = let (it, w1) := loopBody env request preset st w in
    match it with
    | Abort st' => (Aborted st', w1)
    | Completed st' =>
        if loopTest request st' then doWhile env fuel request preset st' w1
        else (Finished st', w1)
    end.
Proof.
  cbn [doWhile]. unfold bind at 1.
  destruct (loopBody env request preset st w) as [it w1].
  destruct it as [st'|st']; [reflexivity|].
  destruct (loopTest request st'); reflexivity.
Qed.

Lemma successesOf_all (arts : list SDArtifact) :
  Forall (fun a => finishReason a = SUCCESS) arts -> successesOf arts = arts.
Proof.
  induction 1 as [|a arts Ha _ IH]; [reflexivity|].
  unfold successesOf in *. simpl. rewrite Ha, IH. reflexivity.
Qed.

Lemma successesOf_none (arts : list SDArtifact) :
  Forall (fun a => finishReason a = CONTENT_FILTERED) arts ->
  successesOf arts = [].
Proof.
  induction 1 as [|a arts Ha _ IH]; [reflexivity|].
  unfold successesOf in *. simpl. rewrite Ha, IH. reflexivity.
Qed.

(** Once the requested count is reached the [for] loop breaks at
    once. *)
Lemma acceptArtifacts_full (arts : list SDArtifact) (st : LoopState)
    (w : World) :
  validImageCount st = count request ->
  acceptArtifacts env request preset arts st w = (st, w).
Proof.
  intros Hfull. destruct arts as [|image rest]; [reflexivity|].
  simpl. rewrite Hfull, Z.eqb_refl. reflexivity.
Qed.

(** A pass whose response holds no accepted image, or that starts with
    the count already reached, only sends its request. *)
Lemma loopBody_nothing_accepted (arts : list SDArtifact) (st : LoopState)
    (w : World) :
  axios_post env (List.length (posts w)) (passRequest env request preset st)
  = Some arts ->
  successesOf arts = [] \/ validImageCount st = count request ->
  loopBody env request preset st w
  = (Completed (mkLoop (urls st) (validImageCount st)
                       (tries st + count request)),
     withPosts w [passRequest env request preset st]).
Proof.
  intros Hax Hno. unfold loopBody. unfold bind at 1.
  rewrite postToStableDiffusion_spec by lia. cbn [validImageCount].
  fold (passRequest env request preset st). rewrite Hax.
  cbn [updatedPrompt artifacts truthy Z.eqb]. unfold bind at 1.
  unfold ret at 1. unfold bind. fold (successesOf arts).
  destruct Hno as [Hno|Hfull].
  - rewrite Hno. reflexivity.
  - rewrite acceptArtifacts_full by exact Hfull. reflexivity.
Qed.

(** A pass whose request is rejected pushes the error notification and
    aborts. *)
Lemma loopBody_rejected (st : LoopState) (w : World) :
  axios_post env (List.length (posts w)) (passRequest env request preset st)
  = None ->
  loopBody env request preset st w
  = (Abort (mkLoop (urls st) (validImageCount st) (tries st + count request)),
     withSent (withPosts w [passRequest env request preset st])
              [errorMsg request]).
Proof.
  intros Hax. unfold loopBody. unfold bind at 1.
  rewrite postToStableDiffusion_spec by lia. cbn [validImageCount].
  fold (passRequest env request preset st). rewrite Hax. reflexivity.
Qed.

Lemma withPosts_app (w : World) (ps qs : list HttpPost) :
  withPosts (withPosts w ps) qs = withPosts w (ps ++ qs).
Proof.
  unfold withPosts. simpl. rewrite <- app_assoc. reflexivity.
Qed.

(** When no image is ever accepted the loop keeps asking for the same
    remainder until [tries] reaches the budget. *)
Lemma doWhile_nothing_accepted (fuel : nat) :
  (forall n p, exists arts,
      axios_post env n p = Some arts /\ successesOf arts = []) ->
  forall (st : LoopState) (w : World),
    validImageCount st < count request ->
    0 <= validImageCount st ->
    tries st < maxImageTries ->
    maxImageTries - tries st <= count request * Z.of_nat fuel ->
    exists n : nat,
      doWhile env fuel request preset st w
      = (Finished (mkLoop (urls st) (validImageCount st)
                          (tries st + count request * Z.of_nat n)),
         withPosts w (repeat (passRequest env request preset st) n)) /\
      (1 <= n <= fuel)%nat /\
      tries st + count request * (Z.of_nat n - 1) < maxImageTries /\
      maxImageTries <= tries st + count request * Z.of_nat n.
Proof.
  intros Hsvc. induction fuel as [|fuel IH]; intros st w Hlt Hv Ht Hfuel.
  - lia.
  - rewrite doWhile_unfold.
    destruct (Hsvc (List.length (posts w)) (passRequest env request preset st))
      as (arts & Hax & Hno).
    rewrite (loopBody_nothing_accepted arts) by auto.
    unfold loopTest. cbn [validImageCount tries].
    replace (validImageCount st <? count request) with true
      by (symmetry; apply Z.ltb_lt; exact Hlt).
    cbn [andb].
    destruct (tries st + count request <? maxImageTries) eqn:Hmore.
    + apply Z.ltb_lt in Hmore.
      destruct (IH (mkLoop (urls st) (validImageCount st)
                           (tries st + count request))
                   (withPosts w [passRequest env request preset st]))
        as (n & Hrun & Hn & Hlo & Hhi); cbn [validImageCount tries]; try lia.
      exists (S n). rewrite Hrun. cbn [urls validImageCount tries].
      rewrite withPosts_app.
      replace (passRequest env request preset
                 (mkLoop (urls st) (validImageCount st)
                         (tries st + count request)))
        with (passRequest env request preset st) by reflexivity.
      cbn [tries] in Hlo, Hhi.
      replace (tries st + count request * Z.of_nat (S n))
        with (tries st + count request + count request * Z.of_nat n) by lia.
      repeat split; try lia.
    + apply Z.ltb_ge in Hmore. exists 1%nat. cbn [repeat].
      replace (tries st + count request * Z.of_nat 1)
        with (tries st + count request) by lia.
      repeat split; try lia.
Qed.

End Runs.

(** ** The whole of [generateImage] *)

Section Orchestrator.

Variable env : Env.
Variable request : ImageRequest.

Lemma generateImage_fuel_missing_key (fuel : nat) (w : World) :
  truthy (apiKey env) = false ->
  generateImage_fuel env fuel request w = (Threw missingKeyMessage, w).
Proof.
  intros H. unfold generateImage_fuel. rewrite H. reflexivity.
Qed.

Lemma generateImage_fuel_spec (fuel : nat) (w : World) (out : Outcome)
    (w' : World) :
  truthy (apiKey env) = true ->
  generateImage_fuel env fuel request w = (out, w') ->
  exists ps rows bs,
    posts w' = posts w ++ ps /\
    images w' = images w ++ rows /\
    blobs w' = blobs w ++ bs /\
    List.length bs = List.length rows /\
    (0 <= count request ->
     Forall (fun p => 0 <= samples (body p) <= count request) ps /\
     Z.of_nat (List.length rows) <= count request) /\
    match out with
    | Threw _ => False
    | Unfinished => True
    | Returned None =>
        (exists ps0 p,
           ps = ps0 ++ [p] /\
           axios_post env (List.length (posts w) + List.length ps0) p = None) /\
        sent w' = sent w ++ map (createdMsg request) rows ++ [errorMsg request]
    | Returned (Some us) =>
        (1 <= List.length ps)%nat /\
        us = map uriOf rows /\
        sent w'
        = sent w ++ map (createdMsg request) rows
                 ++ [terminalMsg request (List.length rows)]
    end.
Proof.
  intros Hkey H. unfold generateImage_fuel in H. rewrite Hkey in H.
  simpl in H. unfold bind at 1 in H.
  destruct (doWhile env fuel request (presetOf request) initialLoop w)
    as [ex w1] eqn:Hloop.
  apply doWhile_spec in Hloop.
  destruct Hloop as (ps & rows & bs & Hp & Hi & Hb & Hl & Hs & Hsam & Hex).
  simpl in Hsam, Hex.
  destruct ex as [st'|st'|].
  - inversion H; subst out w'. clear H.
    destruct Hex as ((E1 & E2 & E3 & E4 & E5 & E6) & Hrej). simpl in *.
    exists ps, rows, bs. repeat split; try assumption.
    + apply Hsam. lia.
    + apply Hsam. lia.
  - destruct Hex as ((E1 & E2 & E3 & E4 & E5 & E6) & E7). simpl in *.
    assert (Hterm :
      sent w' = sent w1 ++ [terminalMsg request (List.length rows)] /\
      out = Returned (Some (urls st'))).
    { unfold terminalMsg. rewrite <- E3.
      destruct (validImageCount st' <? count request);
        unfold bind, sendWebsocketMessage, ret in H;
        inversion H; subst; simpl; split; reflexivity. }
    destruct Hterm as [Hs' ->].
    assert (Hw : posts w' = posts w1 /\ images w' = images w1 /\
                 blobs w' = blobs w1).
    { destruct (validImageCount st' <? count request);
        unfold bind, sendWebsocketMessage, ret in H;
        inversion H; subst; simpl; repeat split; reflexivity. }
    destruct Hw as (Hp' & Hi' & Hb').
    exists ps, rows, bs. rewrite Hp', Hi', Hb', Hs', Hs, E4.
    rewrite app_nil_r, <- app_assoc.
    repeat split; try assumption; try reflexivity.
    + apply Hsam. lia.
    + apply Hsam. lia.
  - inversion H; subst out w'. exists ps, rows, bs.
    repeat split; try assumption.
    + apply Hsam. lia.
    + apply Hsam. lia.
Qed.

(** Thirty passes are never used up, and more fuel changes nothing:
    [generateImage] returns on every input. *)
Lemma generateImage_terminates (fuel : nat) (w : World) :
  (Z.to_nat maxImageTries <= fuel)%nat ->
  generateImage_fuel env fuel request w = generateImage env request w /\
  fst (generateImage env request w) <> Unfinished.
Proof.
  intros Hf. unfold generateImage.
  assert (Hloop : forall w0,
    fst (doWhile env (Z.to_nat maxImageTries) request (presetOf request)
                 initialLoop w0) <> OutOfFuel).
  { intros w0. apply doWhile_terminates; unfold maxImageTries; simpl; lia. }
  split.
  - replace fuel
      with (Z.to_nat maxImageTries + (fuel - Z.to_nat maxImageTries))%nat
      by lia.
    unfold generateImage_fuel. destruct (truthy (apiKey env)); cbn [negb];
      [|reflexivity].
    unfold bind at 1. unfold bind at 2.
    rewrite doWhile_more_fuel by apply Hloop. reflexivity.
  - unfold generateImage_fuel. destruct (truthy (apiKey env)); cbn [negb];
      [|simpl; discriminate].
    unfold bind at 1. specialize (Hloop w).
    destruct (doWhile env _ request (presetOf request) initialLoop w)
      as [ex w1].
    destruct ex as [st|st|]; cbn [fst] in Hloop.
    + simpl. discriminate.
    + destruct (validImageCount st <? count request); simpl; discriminate.
    + congruence.
Qed.

Lemma generateImage_finishes (w : World) (out : Outcome) (w' : World) :
  generateImage env request w = (out, w') -> out <> Unfinished.
Proof.
  intros Hrun.
  pose proof (proj2 (generateImage_terminates _ w (le_n _))) as Hfin.
  rewrite Hrun in Hfin. exact Hfin.
Qed.

End Orchestrator.

(** ** Passes that lead to a later one *)

Section LaterPasses.

Variable env : Env.
Variable request : ImageRequest.
Variable preset : string.

(** What [n] passes that all went on have done. *)
Lemma afterPasses_spec (n : nat) :
  forall (st : LoopState) (w : World) (st' : LoopState) (w' : World),
    afterPasses env n request preset st w = Some (st', w') ->
    exists rows bs,
      images w' = images w ++ rows /\
      blobs w' = blobs w ++ bs /\
      List.length bs = List.length rows /\
      sent w' = sent w ++ map (createdMsg request) rows /\
      validImageCount st'
      = validImageCount st + Z.of_nat (List.length rows) /\
      tries st' = tries st + count request * Z.of_nat n /\
      ((1 <= n)%nat -> loopTest request st' = true).
Proof.
  induction n as [|n IH]; intros st w st' w' Hrun.
  - cbn [afterPasses] in Hrun. injection Hrun as <- <-.
    exists [], []. cbn [List.length map]. rewrite !app_nil_r.
    repeat split; try reflexivity; try lia.
  - cbn [afterPasses] in Hrun.
    destruct (loopBody env request preset st w) as [it w1] eqn:Hbody.
    destruct it as [st1|st1]; [discriminate|].
    destruct (loopTest request st1) eqn:Htest; [|discriminate].
    apply loopBody_spec in Hbody.
    destruct Hbody as (rows1 & bs1 & _ & Hi1 & Hb1 & Hl1 & arts & _ & Hs1
                       & _ & Hv1 & Ht1 & _).
    destruct (IH _ _ _ _ Hrun)
      as (rows2 & bs2 & Hi2 & Hb2 & Hl2 & Hs2 & Hv2 & Ht2 & Hgo).
    exists (rows1 ++ rows2), (bs1 ++ bs2).
    rewrite Hi2, Hi1, Hb2, Hb1, Hs2, Hs1, Hv2, Hv1, Ht2, Ht1.
    rewrite map_app, !length_app, <- !app_assoc.
    repeat split; try reflexivity; try lia.
    intros _. destruct n as [|n'].
    + cbn [afterPasses] in Hrun. injection Hrun as <- _. exact Htest.
    + apply Hgo. lia.
Qed.

(** The loop that made those [n] passes goes on from where they left
    it. *)
Lemma afterPasses_doWhile (n : nat) :
  forall (fuel : nat) (st : LoopState) (w : World) (st' : LoopState)
         (w' : World),
    afterPasses env n request preset st w = Some (st', w') ->
    doWhile env (n + fuel) request preset st w
    = doWhile env fuel request preset st' w'.
Proof.
  induction n as [|n IH]; intros fuel st w st' w' Hrun.
  - cbn [afterPasses] in Hrun. injection Hrun as <- <-. reflexivity.
  - cbn [afterPasses] in Hrun. cbn [Nat.add]. rewrite doWhile_unfold.
    destruct (loopBody env request preset st w) as [it w1].
    destruct it as [st1|st1]; [discriminate|].
    destruct (loopTest request st1); [|discriminate].
    apply IH. exact Hrun.
Qed.

(** A rejected request ends the loop on the spot, whatever went
    before. *)
Lemma doWhile_rejected (fuel : nat) (st : LoopState) (w : World) :
  axios_post env (List.length (posts w)) (passRequest env request preset st)
  = None ->
  doWhile env (S fuel) request preset st w
  = (Aborted (mkLoop (urls st) (validImageCount st)
                     (tries st + count request)),
     withSent (withPosts w [passRequest env request preset st])
              [errorMsg request]).
Proof.
  intros Hax. rewrite doWhile_unfold.
  rewrite (loopBody_rejected env request preset st w Hax). reflexivity.
Qed.

End LaterPasses.

(** ** The pipeline without faults *)

(** A step that agrees with the pipeline above, followed by steps that
    do. *)
Lemma bindF_agree_via {A A' B : Type} (f : A -> A') (mF : Faulty.F A')
    (m : M A) (kF : A' -> Faulty.F B) (k : A -> M B) (w : World) :
  mF w = (let (a, w') := m w in (inr (f a), w')) ->
  (forall a w', kF (f a) w' = Faulty.ok (k a) w') ->
  Faulty.bindF mF kF w = Faulty.ok (bind m k) w.
Proof.
  intros Hm Hk. unfold Faulty.bindF, Faulty.ok, bind. rewrite Hm.
  destruct (m w) as [a w']. rewrite Hk. reflexivity.
Qed.

Lemma bindF_agree {A B : Type} (mF : Faulty.F A) (m : M A)
    (kF : A -> Faulty.F B) (k : A -> M B) (w : World) :
  mF w = Faulty.ok m w ->
  (forall a w', kF a w' = Faulty.ok (k a) w') ->
  Faulty.bindF mF kF w = Faulty.ok (bind m k) w.
Proof.
  intros Hm Hk. apply (bindF_agree_via (fun a => a)); assumption.
Qed.

Section Faultless.

Variable env : Env.
Variable flt : Faulty.Faults.
Hypothesis Hquiet : Faulty.quiet env flt.

Lemma faultless_send (u : Z) (e : WebSocketEvent) (p : Payload) (w : World) :
  Faulty.sendWebsocketMessage flt u e p w
  = Faulty.ok (sendWebsocketMessage u e p) w.
Proof.
  destruct Hquiet as (_ & _ & _ & _ & _ & Hs & _).
  unfold Faulty.sendWebsocketMessage. rewrite Hs. reflexivity.
Qed.

Lemma faultless_create (d : ImageData) (w : World) :
  Faulty.prisma_image_create flt d w = Faulty.ok (prisma_image_create d) w.
Proof.
  destruct Hquiet as (_ & _ & _ & _ & Hc & _).
  unfold Faulty.prisma_image_create. rewrite Hc. reflexivity.
Qed.

Lemma faultless_storeImage (imageId data : string) (w : World) :
  Faulty.storeImage env flt imageId data w
  = Faulty.ok (storeImage env imageId data) w.
Proof.
  destruct Hquiet as (_ & Hm & Hw & Hs3 & _ & _ & Hdir).
  unfold Faulty.storeImage, storeImage.
  destruct (isLocalDevelopment env) eqn:Hlocal; cbn [negb].
  - specialize (Hdir eq_refl). apply String.eqb_neq in Hdir.
    unfold Faulty.saveImageLocally, saveImageLocally, Faulty.bindF,
      Faulty.existsSync, Faulty.mkdirSync, Faulty.writeFileSync, Faulty.ok,
      Faulty.retF, bind, ret, existsSync, mkdirSync, writeBlob.
    rewrite Hdir. cbn [orb].
    destruct (existsb _ (dirs w)); cbn [negb]; rewrite ?Hm, Hw; reflexivity.
  - unfold Faulty.uploadImage, uploadImage, Faulty.bindF, Faulty.s3_send,
      Faulty.ok, Faulty.retF, bind, ret, writeBlob.
    rewrite Hs3. reflexivity.
Qed.

Variable request : ImageRequest.
Variable preset : string.

Lemma faultless_acceptArtifacts (arts : list SDArtifact) :
  forall (st : LoopState) (w : World),
    Faulty.acceptArtifacts env flt request preset arts st w
    = Faulty.ok (acceptArtifacts env request preset arts st) w.
Proof.
  induction arts as [|image rest IH]; intros st w; [reflexivity|].
  cbn [Faulty.acceptArtifacts acceptArtifacts].
  destruct (validImageCount st =? count request); [reflexivity|].
  apply bindF_agree; [reflexivity|intros imageId w1].
  apply bindF_agree; [apply faultless_storeImage|intros url w2].
  apply bindF_agree; [apply faultless_create|intros created w3].
  apply bindF_agree; [apply faultless_send|intros u w4].
  apply IH.
Qed.

(** The answer the client hands on, as the faulty client hands it on. *)
Lemma faultless_postToStableDiffusion (r : ImageRequest) (w : World) :
  Faulty.postToStableDiffusion env flt r preset [] 0 w
  = (let (resp, w') := postToStableDiffusion env r preset [] 0 w in
     (inr (option_map
             (fun x => Faulty.mkGenerationResponse (Some (artifacts x))
                                                   (updatedPrompt x))
             resp),
      w')).
Proof.
  destruct Hquiet as (Hshape & _).
  unfold Faulty.postToStableDiffusion, postToStableDiffusion.
  change (5 <? 0) with false. cbv iota.
  unfold Faulty.bindF at 1. unfold bind at 1.
  unfold Faulty.http_post, http_post. rewrite Hshape.
  destruct (axios_post env (List.length (posts w)) _) as [arts|].
  - reflexivity.
  - unfold Faulty.bindF, bind. rewrite faultless_send.
    unfold Faulty.ok.
    destruct (sendWebsocketMessage _ _ _ _) as [u w1]. reflexivity.
Qed.

Lemma faultless_loopBody (st : LoopState) (w : World) :
  Faulty.loopBody env flt request preset st w
  = Faulty.ok (loopBody env request preset st) w.
Proof.
  unfold Faulty.loopBody, loopBody.
  apply (bindF_agree_via
           (option_map
              (fun x => Faulty.mkGenerationResponse (Some (artifacts x))
                                                    (updatedPrompt x))));
    [apply faultless_postToStableDiffusion|].
  intros [resp|] w1; [|reflexivity].
  cbn [option_map Faulty.response_updatedPrompt Faulty.response_artifacts].
  apply bindF_agree.
  - destruct (truthy (updatedPrompt resp));
      [apply faultless_send|reflexivity].
  - intros u w2.
    apply bindF_agree; [apply faultless_acceptArtifacts|reflexivity].
Qed.

Lemma faultless_doWhile (fuel : nat) :
  forall (st : LoopState) (w : World),
    Faulty.doWhile env flt fuel request preset st w
    = Faulty.ok (doWhile env fuel request preset st) w.
Proof.
  induction fuel as [|fuel IH]; intros st w; [reflexivity|].
  cbn [Faulty.doWhile doWhile].
  apply bindF_agree; [apply faultless_loopBody|].
  intros [st1|st1] w1; [reflexivity|].
  destruct (loopTest request st1); [apply IH|reflexivity].
Qed.

End Faultless.

(** With no fault the two models of [generateImage] agree. *)
Lemma faultless_generateImage (env : Env) (flt : Faulty.Faults) (fuel : nat)
    (request : ImageRequest) (w : World) :
  Faulty.quiet env flt ->
  Faulty.generateImage_fuel env flt fuel request w
  = (Faulty.outcomeOf (fst (generateImage_fuel env fuel request w)),
     snd (generateImage_fuel env fuel request w)).
Proof.
  intros Hquiet.
  unfold Faulty.generateImage_fuel, generateImage_fuel.
  destruct (truthy (apiKey env)); cbn [negb]; [|reflexivity].
  rewrite (faultless_doWhile env flt Hquiet). unfold Faulty.ok.
  unfold bind.
  destruct (doWhile env fuel request (presetOf request) initialLoop w)
    as [ex w1].
  destruct ex as [st|st|]; [reflexivity| |reflexivity].
  destruct (validImageCount st <? count request);
    rewrite (faultless_send env flt Hquiet); reflexivity.
Qed.

(** ** Properties of the pipeline *)

(** The dragon scenario: two images asked; the first batch holds one
    accepted and one filtered image, the second two accepted ones, of
    which only the missing one is taken.  Two requests (for 2, then for
    1), two URIs, two rows, "generation done". *)
Example dragon_scenario :
  let run := generateImage (envWith (Some "sk-test") oneThenTwo)
                           (requestFor 2) emptyWorld in
  fst run = Returned (Some ["http://localhost:8000/images/uuid-0.png";
                            "http://localhost:8000/images/uuid-1.png"]) /\
  map (fun p => samples (body p)) (posts (snd run)) = [2; 1] /\
  map uriOf (images (snd run))
  = ["http://localhost:8000/images/uuid-0.png";
     "http://localhost:8000/images/uuid-1.png"] /\
  map ws_event (sent (snd run))
  = [ImageCreated; ImageCreated; ImageGenerationDone].
Proof.
  vm_compute. repeat split; reflexivity.
Qed.


(** C4.  When the HTTP call is rejected, [postToStableDiffusion] pushes
    one "image error" notification to the requesting user and returns
    undefined; when that happens on the first request of
    [generateImage], no row and no blob is recorded and the result is
    undefined, not an empty list. *)
Theorem hard_failure_aborts
    (env : Env) (request : ImageRequest) (preset : string)
    (history : list string) (depth : Z) (w : World) :
  (depth <= 5 ->
   axios_post env (List.length (posts w)) (sdRequest env request preset) = None ->
   postToStableDiffusion env request preset history depth w
   = (None,
      withSent (withPosts w [sdRequest env request preset])
               [errorMsg request])) /\
  (truthy (apiKey env) = true ->
   axios_post env (List.length (posts w))
              (passRequest env request (presetOf request) initialLoop) = None ->
   generateImage env request w
   = (Returned None,
      withSent (withPosts w [passRequest env request (presetOf request)
                                         initialLoop])
               [errorMsg request])).
Proof.
  split.
  - intros Hd Hax. rewrite postToStableDiffusion_spec by exact Hd.
    rewrite Hax. reflexivity.
  - intros Hkey Hax. unfold generateImage, generateImage_fuel.
    rewrite Hkey. cbn [negb]. unfold maxImageTries.
    change (Z.to_nat 30) with (S 29). cbn [doWhile].
    unfold bind at 1. unfold bind at 1. unfold loopBody.
    unfold bind at 1. rewrite postToStableDiffusion_spec by lia.
    unfold passRequest in Hax. cbn [validImageCount initialLoop] in *.
    rewrite Hax. reflexivity.
Qed.

(** C9.  Every response [generateImage] consumes comes from a call at
    the default depth 0, whose [updatedPrompt] is undefined, and no
    "prompt rephrased" notification is ever pushed. *)
Theorem prompt_never_rephrased
    (env : Env) (request : ImageRequest) (w : World) :
  (forall (r : ImageRequest) (preset : string) (history : list string)
          (w0 : World),
     match fst (postToStableDiffusion env r preset history 0 w0) with
     | Some resp => updatedPrompt resp = None
     | None => True
     end) /\
  exists ms,
    sent (snd (generateImage env request w)) = sent w ++ ms /\
    Forall (fun m => ws_event m <> ImagePromptRephrased) ms.
Proof.
  split.
  - intros r preset history w0.
    rewrite postToStableDiffusion_spec by lia.
    destruct (axios_post env _ _); simpl; auto.
  - destruct (truthy (apiKey env)) eqn:Hkey.
    + destruct (generateImage env request w) as [out w'] eqn:Hrun.
      pose proof (generateImage_finishes _ _ _ _ _ Hrun) as Hfin.
      apply generateImage_fuel_spec in Hrun; [|exact Hkey].
      destruct Hrun as (ps & rows & bs & _ & _ & _ & _ & _ & Hout).
      assert (Hrows : Forall (fun m => ws_event m <> ImagePromptRephrased)
                             (map (createdMsg request) rows)).
      { apply Forall_forall. intros m Hm. apply in_map_iff in Hm.
        destruct Hm as (r & <- & _). simpl. discriminate. }
      simpl. destruct out as [msg|[us|]|].
      * contradiction.
      * destruct Hout as (_ & _ & ->). eexists. split; [reflexivity|].
        apply Forall_app. split; [exact Hrows|].
        constructor; [|constructor]. unfold terminalMsg.
        destruct (_ <? _); simpl; discriminate.
      * destruct Hout as (_ & ->). eexists. split; [reflexivity|].
        apply Forall_app. split; [exact Hrows|].
        constructor; [|constructor]. simpl. discriminate.
      * congruence.
    + exists []. unfold generateImage.
      rewrite generateImage_fuel_missing_key by exact Hkey.
      simpl. rewrite app_nil_r. split; [reflexivity|constructor].
Qed.

(** C3.  For a request with a non-negative count and any generation
    service, also one that answers with more SUCCESS images than it was
    asked for, [generateImage] records at most [request.count] rows, and
    the remainder it asks for in each request lies between 0 and
    [request.count]. *)
Theorem recorded_artifacts_bounded
    (env : Env) (request : ImageRequest) (w : World) :
  0 <= count request ->
  exists ps rows,
    posts (snd (generateImage env request w)) = posts w ++ ps /\
    images (snd (generateImage env request w)) = images w ++ rows /\
    Z.of_nat (List.length rows) <= count request /\
    Forall (fun p => 0 <= samples (body p) <= count request) ps.
Proof.
  intros Hcount. destruct (truthy (apiKey env)) eqn:Hkey.
  - destruct (generateImage env request w) as [out w'] eqn:Hrun.
    apply generateImage_fuel_spec in Hrun; [|exact Hkey].
    destruct Hrun as (ps & rows & bs & Hp & Hi & _ & _ & Hb & _).
    destruct (Hb Hcount) as [Hsam Hrows].
    exists ps, rows. simpl. auto.
  - unfold generateImage.
    rewrite generateImage_fuel_missing_key by exact Hkey.
    exists [], []. simpl. rewrite !app_nil_r. repeat split; auto.
Qed.

(** C10.  A rejection on a later pass keeps what the earlier passes did.
    Let the loop of [generateImage] stand before a further pass after
    [n] answered passes that accepted [k >= 1] images between them, and
    let the generation service reject the request of that pass.  Then
    [generateImage] returns undefined, although the [k] rows are in the
    table and their [k] blobs in the store: nothing is rolled back.  The
    notifications are the [k] "image created" ones and the final "image
    error"; the URIs are not returned and neither "generation done" nor
    "filtered" is pushed. *)
Theorem later_rejection_keeps_earlier_images
    (env : Env) (request : ImageRequest) (w : World)
    (n k : nat) (st : LoopState) (w1 : World) :
  truthy (apiKey env) = true ->
  afterPasses env n request (presetOf request) initialLoop w
  = Some (st, w1) ->
  validImageCount st = Z.of_nat k ->
  (1 <= k)%nat ->
  axios_post env (List.length (posts w1))
             (passRequest env request (presetOf request) st) = None ->
  let run := generateImage env request w in
  (1 <= n)%nat /\
  fst run = Returned None /\
  exists rows bs,
    List.length rows = k /\
    List.length bs = k /\
    images (snd run) = images w ++ rows /\
    blobs (snd run) = blobs w ++ bs /\
    sent (snd run)
    = sent w ++ map (createdMsg request) rows ++ [errorMsg request] /\
    Forall (fun m => ws_event m <> ImageGenerationDone /\
                     ws_event m <> ImageFiltered)
           (map (createdMsg request) rows ++ [errorMsg request]).
Proof.
  intros Hkey Hreach Hk Hk1 Hax run.
  destruct (afterPasses_spec env request (presetOf request) n _ _ _ _ Hreach)
    as (rows & bs & Hi & Hb & Hl & Hs & Hv & Ht & Hgo).
  cbn [initialLoop validImageCount tries] in Hv, Ht.
  assert (Hn : (1 <= n)%nat).
  { destruct n as [|n']; [|lia].
    cbn [afterPasses] in Hreach. injection Hreach as <- _.
    cbn [initialLoop validImageCount] in Hk. lia. }
  specialize (Hgo Hn). unfold loopTest in Hgo.
  apply andb_true_iff in Hgo. destruct Hgo as [Hlt Htr].
  apply Z.ltb_lt in Hlt. apply Z.ltb_lt in Htr. unfold maxImageTries in Htr.
  assert (Hn30 : (n <= 29)%nat) by nia.
  assert (Hrun : run
                 = (Returned None,
                    withSent (withPosts w1 [passRequest env request
                                              (presetOf request) st])
                             [errorMsg request])).
  { subst run. unfold generateImage, generateImage_fuel.
    rewrite Hkey. cbn [negb]. unfold maxImageTries.
    replace (Z.to_nat 30) with (n + S (29 - n))%nat by lia.
    unfold bind at 1.
    rewrite (afterPasses_doWhile env request (presetOf request) n
               (S (29 - n)) _ _ _ _ Hreach).
    rewrite (doWhile_rejected env request (presetOf request) (29 - n) st w1
               Hax).
    reflexivity. }
  split; [exact Hn|]. rewrite Hrun. split; [reflexivity|].
  exists rows, bs. cbn [snd withSent withPosts images blobs sent].
  rewrite Hi, Hb, Hs, <- app_assoc.
  split; [lia|]. split; [lia|].
  split; [reflexivity|]. split; [reflexivity|]. split; [reflexivity|].
  apply Forall_app. split.
  - apply Forall_forall. intros m Hm. apply in_map_iff in Hm.
    destruct Hm as (r & <- & _). simpl. split; discriminate.
  - constructor; [|constructor]. simpl. split; discriminate.
Qed.

(** C2, as corrected.  The try counter is compared with the budget only
    after a pass, so it is below 30 when a pass starts and the pass adds
    the whole of [request.count] to it: when the loop is left, after [n]
    passes, the counter is [n * request.count] and it was below 30
    before the last addition.  It can end above 30. *)
Theorem tries_below_budget_before_last_pass
    (env : Env) (request : ImageRequest) (w : World) :
  exists (st : LoopState) (n : nat),
    (fst (doWhile env (Z.to_nat maxImageTries) request (presetOf request)
                  initialLoop w) = Finished st \/
     fst (doWhile env (Z.to_nat maxImageTries) request (presetOf request)
                  initialLoop w) = Aborted st) /\
    List.length
      (posts (snd (doWhile env (Z.to_nat maxImageTries) request
                           (presetOf request) initialLoop w)))
    = (List.length (posts w) + n)%nat /\
    (1 <= n)%nat /\
    tries st = count request * Z.of_nat n /\
    tries st - count request < maxImageTries.
Proof.
  pose proof (doWhile_terminates env request (presetOf request)
                (Z.to_nat maxImageTries) initialLoop w) as Hfin.
  destruct (doWhile env (Z.to_nat maxImageTries) request (presetOf request)
                    initialLoop w) as [ex w'] eqn:Hrun.
  apply doWhile_spec in Hrun.
  destruct Hrun as (ps & rows & bs & Hp & _ & _ & _ & _ & _ & Hex).
  cbn [fst snd] in *. rewrite Hp, length_app.
  destruct ex as [st|st|].
  - destruct Hex as ((E1 & E2 & _ & _ & E5 & _) & _).
    exists st, (List.length ps). cbn [tries initialLoop] in *.
    repeat split; auto; try lia. apply E5. reflexivity.
  - destruct Hex as ((E1 & E2 & _ & _ & E5 & _) & _).
    exists st, (List.length ps). cbn [tries initialLoop] in *.
    repeat split; auto; try lia. apply E5. reflexivity.
  - exfalso. apply Hfin; unfold maxImageTries; simpl; try lia. reflexivity.
Qed.

(** C2, as stated, fails: with count 7 and a service that filters every
    image the loop makes five passes and leaves with [tries] = 35. *)
Lemma tries_exceed_budget :
  fst (doWhile (envWith (Some "sk-test") filteringService)
               (Z.to_nat maxImageTries) (requestFor 7)
               (presetOf (requestFor 7)) initialLoop emptyWorld)
  = Finished (mkLoop [] 0 35) /\
  ~ (35 <= maxImageTries).
Proof.
  split; [vm_compute; reflexivity|]. unfold maxImageTries. lia.
Qed.


(** C5, as corrected.  With a configured key, a request for [N >= 1]
    images and a service that answers every request with
    CONTENT_FILTERED images only, the loop stops after exactly
    [ceil(30 / N)] passes: the number [n] of passes is the least with
    [30 <= n * N].  Any fuel of at least [n] gives this run; it records
    nothing, pushes the "filtered" notification alone and returns the
    empty list. *)
Theorem all_filtered_exhausts_budget
    (env : Env) (request : ImageRequest) (w : World) :
  truthy (apiKey env) = true ->
  1 <= count request ->
  (forall n p, exists arts,
      axios_post env n p = Some arts /\
      Forall (fun a => finishReason a = CONTENT_FILTERED) arts) ->
  exists n : nat,
    (1 <= n <= Z.to_nat maxImageTries)%nat /\
    count request * (Z.of_nat n - 1) < maxImageTries <= count request * Z.of_nat n /\
    (forall fuel, (n <= fuel)%nat ->
       generateImage_fuel env fuel request w
       = (Returned (Some []),
          withSent
            (withPosts w
               (repeat (passRequest env request (presetOf request) initialLoop)
                       n))
            [filteredMsg request])) /\
    generateImage env request w
    = (Returned (Some []),
       withSent
         (withPosts w
            (repeat (passRequest env request (presetOf request) initialLoop)
                    n))
         [filteredMsg request]).
Proof.
  intros Hkey Hn Hsvc.
  assert (Hsvc' : forall n p, exists arts,
             axios_post env n p = Some arts /\ successesOf arts = []).
  { intros n p. destruct (Hsvc n p) as (arts & Hax & Hall).
    exists arts. split; [exact Hax|]. apply successesOf_none. exact Hall. }
  destruct (doWhile_nothing_accepted env request (presetOf request)
              (Z.to_nat maxImageTries) Hsvc' initialLoop w)
    as (n & Hrun & Hnb & Hlo & Hhi);
    try (unfold maxImageTries; cbn [initialLoop validImageCount tries]; lia).
  cbn [initialLoop validImageCount tries urls] in *.
  exists n.
  assert (Hany : forall fuel, (n <= fuel)%nat ->
    generateImage_fuel env fuel request w
    = (Returned (Some []),
       withSent
         (withPosts w
            (repeat (passRequest env request (presetOf request) initialLoop)
                    n))
         [filteredMsg request]));
    [|repeat split; try lia; try exact Hany;
      unfold generateImage; apply Hany; lia].
  intros fuel Hfuel.
  assert (Hmono : forall a b : nat, (a <= b)%nat ->
            count request * Z.of_nat a <= count request * Z.of_nat b)
    by (intros a b Hab; apply Z.mul_le_mono_nonneg_l; lia).
  pose proof (Hmono n fuel Hfuel) as Hnf.
  destruct (doWhile_nothing_accepted env request (presetOf request)
              fuel Hsvc' initialLoop w)
    as (m & Hrun' & Hmb & Hlo' & Hhi');
    try (cbn [initialLoop validImageCount tries]; unfold maxImageTries in *;
         lia).
  cbn [initialLoop validImageCount tries urls] in *.
  assert (m = n).
  { destruct (Nat.lt_trichotomy m n) as [Hmn|[Hmn|Hmn]]; [|exact Hmn|].
    - pose proof (Hmono m (n - 1)%nat ltac:(lia)) as Hc.
      rewrite Nat2Z.inj_sub in Hc by lia. simpl in Hc. lia.
    - pose proof (Hmono n (m - 1)%nat ltac:(lia)) as Hc.
      rewrite Nat2Z.inj_sub in Hc by lia. simpl in Hc. lia. }
  subst m.
  unfold generateImage_fuel. rewrite Hkey. cbn [negb].
  unfold bind at 1. rewrite Hrun'. cbn [validImageCount urls].
  replace (0 <? count request) with true by (symmetry; apply Z.ltb_lt; lia).
  reflexivity.
Qed.

(** C5, as stated, fails on its bound: with count 7 and every image
    filtered the loop makes five passes, more than 30 / 7. *)
Lemma all_filtered_needs_more_passes :
  fst (generateImage (envWith (Some "sk-test") filteringService)
                     (requestFor 7) emptyWorld)
  = Returned (Some []) /\
  List.length
    (posts (snd (generateImage (envWith (Some "sk-test") filteringService)
                               (requestFor 7) emptyWorld)))
  = 5%nat /\
  ~ (5 * count (requestFor 7) <= maxImageTries) /\
  ~ (5 <= maxImageTries / count (requestFor 7)).
Proof.
  repeat split; try (vm_compute; reflexivity);
    vm_compute; intros H; apply H; reflexivity.
Qed.

(** C6.  Every pass adds the originally requested count to the try
    counter, while the request it sends asks for the remainder
    [count - validImageCount] only.  With count 10, three accepted images
    in the first batch and a second batch asked for the 7 missing ones,
    the counter is 20 after two passes, not 13. *)
Theorem tries_grow_by_requested_count :
  (forall (env : Env) (request : ImageRequest) (preset : string)
          (st : LoopState) (w : World),
     match fst (loopBody env request preset st w) with
     | Abort st' | Completed st' => tries st' = tries st + count request
     end /\
     posts (snd (loopBody env request preset st w))
     = posts w ++ [passRequest env request preset st] /\
     samples (body (passRequest env request preset st))
     = count request - validImageCount st) /\
  exists st1 w1 st2 w2,
    loopBody (envWith (Some "sk-test") threeThenFiltered) (requestFor 10)
             (presetOf (requestFor 10)) initialLoop emptyWorld
    = (Completed st1, w1) /\
    validImageCount st1 = 3 /\
    tries st1 = 10 /\
    loopBody (envWith (Some "sk-test") threeThenFiltered) (requestFor 10)
             (presetOf (requestFor 10)) st1 w1
    = (Completed st2, w2) /\
    map (fun p => samples (body p)) (posts w2) = [10; 7] /\
    tries st2 = 20 /\
    tries st2 <> 13.
Proof.
  split.
  - intros env request preset st w.
    destruct (loopBody env request preset st w) as [it w'] eqn:Hbody.
    apply loopBody_spec in Hbody.
    destruct Hbody as (rows & bs & Hp & _ & _ & _ & Hit).
    cbn [fst snd]. repeat split; [|exact Hp].
    destruct it as [st'|st'].
    + destruct Hit as (_ & _ & -> & _). reflexivity.
    + destruct Hit as (arts & _ & _ & _ & _ & Ht & _). exact Ht.
  - do 4 eexists. split; [vm_compute; reflexivity|].
    split; [reflexivity|]. split; [reflexivity|].
    split; [vm_compute; reflexivity|].
    split; [reflexivity|]. split; [reflexivity|]. discriminate.
Qed.

(** C8, as corrected.  The loop is a [do ... while]: a request with
    count 0 still makes exactly one generation request, asking for 0
    images.  If the service answers it, whatever it answers, nothing is
    recorded and the result is the empty list after the "generation
    done" notification alone; if the service rejects it, the result is
    undefined after the "image error" notification. *)
Theorem zero_count_makes_one_request
    (env : Env) (request : ImageRequest) (w : World) :
  truthy (apiKey env) = true ->
  count request = 0 ->
  samples (body (passRequest env request (presetOf request) initialLoop)) = 0 /\
  generateImage env request w
  = match axios_post env (List.length (posts w))
            (passRequest env request (presetOf request) initialLoop) with
    | Some _ =>
        (Returned (Some []),
         withSent
           (withPosts w [passRequest env request (presetOf request)
                                     initialLoop])
           [doneMsg request])
    | None =>
        (Returned None,
         withSent
           (withPosts w [passRequest env request (presetOf request)
                                     initialLoop])
           [errorMsg request])
    end.
Proof.
  intros Hkey Hzero. split; [simpl; lia|].
  unfold generateImage, generateImage_fuel. rewrite Hkey. cbn [negb].
  change (Z.to_nat maxImageTries) with (S 29).
  unfold bind at 1. rewrite doWhile_unfold.
  destruct (axios_post env (List.length (posts w))
              (passRequest env request (presetOf request) initialLoop))
    as [arts|] eqn:Hax.
  - rewrite (loopBody_nothing_accepted env request _ arts)
      by (auto; right; simpl; lia).
    unfold loopTest. cbn [validImageCount tries urls initialLoop].
    rewrite Hzero. reflexivity.
  - rewrite loopBody_rejected by exact Hax. reflexivity.
Qed.

(** C8, as stated, fails: with count 0 the generation service is still
    called, so the run is not free of other effects, and when that call
    is rejected the result is undefined with an "image error"
    notification instead of the empty list with "generation done". *)
Lemma zero_count_is_not_a_no_op :
  generateImage (envWith (Some "sk-test") downService) (requestFor 0)
                emptyWorld
  = (Returned None,
     mkWorld [sdRequest (envWith (Some "sk-test") downService)
                        (requestFor 0) "fantasy-art"]
             [] [] [] [errorMsg (requestFor 0)] 0) /\
  generateImage (envWith (Some "sk-test") downService) (requestFor 0)
                emptyWorld
  <> (Returned (Some []), withSent emptyWorld [doneMsg (requestFor 0)]) /\
  generateImage (envWith (Some "sk-test") obligingService) (requestFor 0)
                emptyWorld
  <> (Returned (Some []), withSent emptyWorld [doneMsg (requestFor 0)]).
Proof.
  repeat split; try (vm_compute; reflexivity); vm_compute; discriminate.
Qed.

(** ** The properties on concrete runs *)



(** A service that is down: the client and the orchestrator both give
    up after one request and one error notification. *)
Lemma hard_failure_aborts_witness :
  (0 <= 5 /\
   axios_post (envWith (Some "sk-test") downService)
              (List.length (posts emptyWorld))
              (sdRequest (envWith (Some "sk-test") downService)
                         (requestFor 2) "fantasy-art") = None /\
   truthy (apiKey (envWith (Some "sk-test") downService)) = true) /\
  postToStableDiffusion (envWith (Some "sk-test") downService) (requestFor 2)
                        "fantasy-art" [] 0 emptyWorld
  = (None,
     withSent (withPosts emptyWorld
                 [sdRequest (envWith (Some "sk-test") downService)
                            (requestFor 2) "fantasy-art"])
              [errorMsg (requestFor 2)]) /\
  generateImage (envWith (Some "sk-test") downService) (requestFor 2)
                emptyWorld
  = (Returned None,
     withSent (withPosts emptyWorld
                 [passRequest (envWith (Some "sk-test") downService)
                              (requestFor 2) (presetOf (requestFor 2))
                              initialLoop])
              [errorMsg (requestFor 2)]).
Proof.
  split; [repeat split; try reflexivity; lia|].
  split.
  - apply (proj1 (hard_failure_aborts (envWith (Some "sk-test") downService)
                    (requestFor 2) "fantasy-art" [] 0 emptyWorld));
      [lia|reflexivity].
  - apply (proj2 (hard_failure_aborts (envWith (Some "sk-test") downService)
                    (requestFor 2) "fantasy-art" [] 0 emptyWorld));
      reflexivity.
Defined.

(** A service that returns two images too many: two rows all the
    same. *)
Lemma recorded_artifacts_bounded_witness :
  0 <= count (requestFor 2) /\
  exists ps rows,
    posts (snd (generateImage (envWith (Some "sk-test") generousService)
                              (requestFor 2) emptyWorld))
    = posts emptyWorld ++ ps /\
    images (snd (generateImage (envWith (Some "sk-test") generousService)
                               (requestFor 2) emptyWorld))
    = images emptyWorld ++ rows /\
    Z.of_nat (List.length rows) <= count (requestFor 2) /\
    Forall (fun p => 0 <= samples (body p) <= count (requestFor 2)) ps.
Proof.
  split; [simpl; lia|].
  apply (recorded_artifacts_bounded (envWith (Some "sk-test") generousService)
           (requestFor 2) emptyWorld).
  simpl. lia.
Defined.

(** Ten images asked, three accepted on the first pass, then the service
    goes down: the second request is rejected, the three rows and blobs
    stay, the result is undefined. *)
Lemma later_rejection_keeps_earlier_images_witness :
  truthy (apiKey (envWith (Some "sk-test") threeThenDown)) = true /\
  (exists st w1,
     afterPasses (envWith (Some "sk-test") threeThenDown) 1 (requestFor 10)
                 (presetOf (requestFor 10)) initialLoop emptyWorld
     = Some (st, w1) /\
     validImageCount st = 3 /\
     samples (body (passRequest (envWith (Some "sk-test") threeThenDown)
                                (requestFor 10) (presetOf (requestFor 10))
                                st)) = 7 /\
     axios_post (envWith (Some "sk-test") threeThenDown)
                (List.length (posts w1))
                (passRequest (envWith (Some "sk-test") threeThenDown)
                             (requestFor 10) (presetOf (requestFor 10)) st)
     = None) /\
  fst (generateImage (envWith (Some "sk-test") threeThenDown) (requestFor 10)
                     emptyWorld) = Returned None /\
  exists rows bs,
    List.length rows = 3%nat /\
    List.length bs = 3%nat /\
    images (snd (generateImage (envWith (Some "sk-test") threeThenDown)
                               (requestFor 10) emptyWorld))
    = images emptyWorld ++ rows /\
    blobs (snd (generateImage (envWith (Some "sk-test") threeThenDown)
                              (requestFor 10) emptyWorld))
    = blobs emptyWorld ++ bs /\
    sent (snd (generateImage (envWith (Some "sk-test") threeThenDown)
                             (requestFor 10) emptyWorld))
    = sent emptyWorld ++ map (createdMsg (requestFor 10)) rows
                      ++ [errorMsg (requestFor 10)] /\
    Forall (fun m => ws_event m <> ImageGenerationDone /\
                     ws_event m <> ImageFiltered)
           (map (createdMsg (requestFor 10)) rows
                ++ [errorMsg (requestFor 10)]).
Proof.
  destruct (afterPasses (envWith (Some "sk-test") threeThenDown) 1
              (requestFor 10) (presetOf (requestFor 10)) initialLoop
              emptyWorld) as [[st w1]|] eqn:Hr.
  - pose proof Hr as Hr0. vm_compute in Hr0. injection Hr0 as <- <-.
    split; [reflexivity|]. split.
    + eexists. eexists. split; [reflexivity|].
      split; [reflexivity|]. split; reflexivity.
    + exact (proj2 (later_rejection_keeps_earlier_images
                      (envWith (Some "sk-test") threeThenDown)
                      (requestFor 10) emptyWorld 1 3 _ _ eq_refl Hr eq_refl
                      (le_S 1 2 (le_S 1 1 (le_n 1))) eq_refl)).
  - vm_compute in Hr. discriminate.
Defined.

Lemma obligingService_obliges (n : nat) (p : HttpPost) :
  exists arts,
    axios_post (envWith (Some "sk-test") obligingService) n p = Some arts /\
    List.length arts = Z.to_nat (samples (body p)) /\
    Forall (fun a => finishReason a = SUCCESS) arts.
Proof.
  eexists. split; [reflexivity|]. split; [apply repeat_length|].
  apply Forall_forall. intros a Ha. apply repeat_spec in Ha. subst a.
  reflexivity.
Defined.

Lemma filteringService_filters (n : nat) (p : HttpPost) :
  exists arts,
    axios_post (envWith (Some "sk-test") filteringService) n p = Some arts /\
    Forall (fun a => finishReason a = CONTENT_FILTERED) arts.
Proof.
  eexists. split; [reflexivity|].
  apply Forall_forall. intros a Ha. apply repeat_spec in Ha. subst a.
  reflexivity.
Defined.


(** Seven images asked from a service that filters everything. *)
Lemma all_filtered_exhausts_budget_witness :
  (truthy (apiKey (envWith (Some "sk-test") filteringService)) = true /\
   1 <= count (requestFor 7)) /\
  exists n : nat,
    (1 <= n <= Z.to_nat maxImageTries)%nat /\
    count (requestFor 7) * (Z.of_nat n - 1) < maxImageTries
      <= count (requestFor 7) * Z.of_nat n /\
    (forall fuel, (n <= fuel)%nat ->
       generateImage_fuel (envWith (Some "sk-test") filteringService) fuel
                          (requestFor 7) emptyWorld
       = (Returned (Some []),
          withSent
            (withPosts emptyWorld
               (repeat (passRequest (envWith (Some "sk-test") filteringService)
                                    (requestFor 7) (presetOf (requestFor 7))
                                    initialLoop)
                       n))
            [filteredMsg (requestFor 7)])) /\
    generateImage (envWith (Some "sk-test") filteringService) (requestFor 7)
                  emptyWorld
    = (Returned (Some []),
       withSent
         (withPosts emptyWorld
            (repeat (passRequest (envWith (Some "sk-test") filteringService)
                                 (requestFor 7) (presetOf (requestFor 7))
                                 initialLoop)
                    n))
         [filteredMsg (requestFor 7)]).
Proof.
  split; [split; [reflexivity|simpl; lia]|].
  apply (all_filtered_exhausts_budget
           (envWith (Some "sk-test") filteringService) (requestFor 7)
           emptyWorld).
  - reflexivity.
  - simpl. lia.
  - exact filteringService_filters.
Defined.

(** No image asked from an obliging service: one request all the
    same. *)
Lemma zero_count_makes_one_request_witness :
  (truthy (apiKey (envWith (Some "sk-test") obligingService)) = true /\
   count (requestFor 0) = 0) /\
  samples (body (passRequest (envWith (Some "sk-test") obligingService)
                             (requestFor 0) (presetOf (requestFor 0))
                             initialLoop)) = 0 /\
  generateImage (envWith (Some "sk-test") obligingService) (requestFor 0)
                emptyWorld
  = match axios_post (envWith (Some "sk-test") obligingService)
            (List.length (posts emptyWorld))
            (passRequest (envWith (Some "sk-test") obligingService)
                         (requestFor 0) (presetOf (requestFor 0))
                         initialLoop) with
    | Some _ =>
        (Returned (Some []),
         withSent
           (withPosts emptyWorld
              [passRequest (envWith (Some "sk-test") obligingService)
                           (requestFor 0) (presetOf (requestFor 0))
                           initialLoop])
           [doneMsg (requestFor 0)])
    | None =>
        (Returned None,
         withSent
           (withPosts emptyWorld
              [passRequest (envWith (Some "sk-test") obligingService)
                           (requestFor 0) (presetOf (requestFor 0))
                           initialLoop])
           [errorMsg (requestFor 0)])
    end.
Proof.
  split; [split; reflexivity|].
  apply (zero_count_makes_one_request
           (envWith (Some "sk-test") obligingService) (requestFor 0)
           emptyWorld); reflexivity.
Defined.

(** ** Further properties of the image service *)

Section Storage.

Variable env : Env.

Lemma storeImage_exact (imageId data : string) (w : World) :
  storeImage env imageId data w
  = (urlOf env imageId,
     mkWorld (posts w) (dirsAfterStore env (dirs w))
             (blobs w ++ [blobOf env imageId data]) (images w) (sent w)
             (drawn w)).
Proof.
  unfold storeImage, uploadImage, saveImageLocally, urlOf, blobOf,
    dirsAfterStore, dataDirOf.
  destruct (isLocalDevelopment env); cbn [negb].
  - unfold bind, existsSync, mkdirSync, writeBlob, ret.
    destruct (existsb _ (dirs w)); reflexivity.
  - reflexivity.
Qed.

Lemma taken_firstn (c : Z) (arts : list SDArtifact) :
  forall v, v <= c -> taken c v arts = firstn (Z.to_nat (c - v)) arts.
Proof.
  induction arts as [|a rest IH]; intros v Hv.
  - rewrite firstn_nil. reflexivity.
  - simpl. destruct (v =? c) eqn:E.
    + apply Z.eqb_eq in E. subst v. rewrite Z.sub_diag. reflexivity.
    + apply Z.eqb_neq in E. rewrite IH by lia.
      replace (Z.to_nat (c - v)) with (S (Z.to_nat (c - (v + 1)))) by lia.
      reflexivity.
Qed.

Lemma taken_all (c : Z) (arts : list SDArtifact) :
  forall v, c < v -> taken c v arts = arts.
Proof.
  induction arts as [|a rest IH]; intros v Hv; [reflexivity|].
  simpl. replace (v =? c) with false by (symmetry; apply Z.eqb_neq; lia).
  rewrite IH by lia. reflexivity.
Qed.

Variable request : ImageRequest.
Variable preset : string.

(** The [for] loop, effect by effect: the artifacts taken are stored,
    recorded and announced in their order, each under a fresh
    identifier. *)
Lemma acceptArtifacts_exact (arts : list SDArtifact) :
  forall (st : LoopState) (w : World) (st' : LoopState) (w' : World),
    acceptArtifacts env request preset arts st w = (st', w') ->
    let acc := taken (count request) (validImageCount st) arts in
    let ids := drawnIds env (drawn w) (List.length acc) in
    exists rows,
      posts w' = posts w /\
      drawn w' = (drawn w + List.length acc)%nat /\
      blobs w'
      = blobs w ++ map (fun p => blobOf env (fst p) (base64 (snd p)))
                       (combine ids acc) /\
      images w' = images w ++ rows /\
      map row_data rows
      = map (fun i => imageData request preset (urlOf env i)) ids /\
      sent w' = sent w ++ map (createdMsg request) rows /\
      urls st' = urls st ++ map (urlOf env) ids /\
      validImageCount st'
      = validImageCount st + Z.of_nat (List.length acc) /\
      tries st' = tries st.
Proof.
  induction arts as [|image rest IH]; intros st w st' w' H.
  - inversion H; subst. exists []. simpl. rewrite !app_nil_r, Nat.add_0_r.
    repeat split; try reflexivity; lia.
  - simpl in H. cbn [taken]. destruct (validImageCount st =? count request).
    + inversion H; subst. exists []. simpl.
      rewrite !app_nil_r, Nat.add_0_r. repeat split; try reflexivity; lia.
    + unfold bind at 1 in H. unfold draw_uuid at 1 in H.
      unfold bind at 1 in H. rewrite storeImage_exact in H.
      unfold bind at 1 in H. unfold prisma_image_create at 1 in H.
      unfold bind at 1 in H. unfold sendWebsocketMessage at 1 in H.
      cbn [posts dirs blobs images sent drawn] in H.
      apply IH in H. cbn [posts dirs blobs images sent drawn urls
                            validImageCount tries] in H.
      destruct H as (rows & Hp & Hd & Hb & Hi & Hr & Hs & Hu & Hv & Ht).
      eexists (_ :: rows).
      rewrite Hp, Hd, Hb, Hi, Hs, Hu, Hv, Ht. rewrite <- !app_assoc.
      cbn [List.length drawnIds seq map combine app fst snd row_data].
      unfold drawnIds in Hr. rewrite Hr.
      repeat split; try reflexivity; lia.
Qed.

End Storage.

Section Passes.

Variable env : Env.
Variable request : ImageRequest.
Variable preset : string.

Lemma blobOf_name_data (i d : string) :
  blobName (blobOf env i d) = blobName (blobOf env i EmptyString) /\
  blobData (blobOf env i d) = d.
Proof.
  unfold blobOf. destruct (isLocalDevelopment env); simpl; auto.
Qed.

Lemma successesOf_In (arts : list SDArtifact) (a : SDArtifact) :
  In a (successesOf arts) <-> In a arts /\ finishReason a = SUCCESS.
Proof.
  unfold successesOf. rewrite filter_In.
  destruct (finishReason a); simpl; intuition discriminate.
Qed.

Lemma taken_incl (c : Z) (arts : list SDArtifact) :
  forall v a, In a (taken c v arts) -> In a arts.
Proof.
  induction arts as [|x rest IH]; intros v a H; [contradiction|].
  simpl in H. destruct (v =? c); [contradiction|].
  destruct H as [H|H]; [left; exact H|right; eapply IH; exact H].
Qed.

(** One answered pass, effect by effect. *)
Lemma loopBody_exact (st : LoopState) (w : World) (arts : list SDArtifact)
    (it : Iteration) (w' : World) :
  axios_post env (List.length (posts w)) (passRequest env request preset st)
  = Some arts ->
  loopBody env request preset st w = (it, w') ->
  let acc := taken (count request) (validImageCount st) (successesOf arts) in
  let ids := drawnIds env (drawn w) (List.length acc) in
  exists rows st',
    it = Completed st' /\
    posts w' = posts w ++ [passRequest env request preset st] /\
    drawn w' = (drawn w + List.length acc)%nat /\
    blobs w'
    = blobs w ++ map (fun p => blobOf env (fst p) (base64 (snd p)))
                     (combine ids acc) /\
    images w' = images w ++ rows /\
    map row_data rows
    = map (fun i => imageData request preset (urlOf env i)) ids /\
    sent w' = sent w ++ map (createdMsg request) rows /\
    urls st' = urls st ++ map (urlOf env) ids /\
    validImageCount st' = validImageCount st + Z.of_nat (List.length acc) /\
    tries st' = tries st + count request.
Proof.
  intros Hax H. unfold loopBody in H. unfold bind at 1 in H.
  rewrite postToStableDiffusion_spec in H by lia.
  cbn [validImageCount] in H.
  fold (passRequest env request preset st) in H. rewrite Hax in H.
  cbn [updatedPrompt artifacts truthy Z.eqb] in H.
  unfold bind at 1 in H. unfold ret at 1 in H. unfold bind in H.
  fold (successesOf arts) in H.
  destruct (acceptArtifacts _ _ _ _ _ _) as [st2 w2] eqn:Hacc.
  inversion H; subst it w'. clear H.
  apply acceptArtifacts_exact in Hacc.
  cbn [posts dirs blobs images sent drawn urls validImageCount tries] in Hacc.
  destruct Hacc as (rows & Hp & Hd & Hb & Hi & Hr & Hs & Hu & Hv & Ht).
  exists rows, st2. repeat split; assumption.
Qed.

(** A whole run of the loop: identifiers are drawn one per recorded
    image, in order; blob names, row contents and collected URIs are
    those of the identifiers; every stored payload is a SUCCESS artifact
    of the service. *)
Lemma doWhile_exact (fuel : nat) :
  forall (st : LoopState) (w : World) (ex : LoopExit) (w' : World),
    doWhile env fuel request preset st w = (ex, w') ->
    exists (k : nat) rows bs,
      drawn w' = (drawn w + k)%nat /\
      blobs w' = blobs w ++ bs /\
      images w' = images w ++ rows /\
      map blobName bs
      = map (fun i => blobName (blobOf env i EmptyString))
            (drawnIds env (drawn w) k) /\
      Forall (fromAcceptedArtifact env) bs /\
      map row_data rows
      = map (fun i => imageData request preset (urlOf env i))
            (drawnIds env (drawn w) k) /\
      match ex with
      | OutOfFuel => True
      | Aborted st' | Finished st' =>
          urls st' = urls st ++ map (urlOf env) (drawnIds env (drawn w) k)
      end.
Proof.
  induction fuel as [|fuel IH]; intros st w ex w' H.
  - inversion H; subst. exists 0%nat, [], []. simpl.
    rewrite !app_nil_r, Nat.add_0_r. repeat split; auto.
  - rewrite doWhile_unfold in H.
    destruct (loopBody env request preset st w) as [it w1] eqn:Hbody.
    destruct (axios_post env (List.length (posts w))
                (passRequest env request preset st)) as [arts|] eqn:Hax.
    + destruct (loopBody_exact _ _ _ _ _ Hax Hbody)
        as (rows1 & st1 & -> & Hp1 & Hd1 & Hb1 & Hi1 & Hr1 & Hs1 & Hu1 & Hv1 & Ht1).
      set (acc := taken (count request) (validImageCount st) (successesOf arts))
        in *.
      assert (Hnames :
        map blobName
            (map (fun p => blobOf env (fst p) (base64 (snd p)))
                 (combine (drawnIds env (drawn w) (List.length acc)) acc))
        = map (fun i => blobName (blobOf env i EmptyString))
              (drawnIds env (drawn w) (List.length acc))).
      { unfold drawnIds. generalize (drawn w). clear.
        induction acc as [|a acc IHacc]; intros n; [reflexivity|].
        cbn [List.length seq map combine fst snd].
        rewrite IHacc. f_equal. apply blobOf_name_data. }
      assert (Hfrom :
        Forall (fromAcceptedArtifact env)
          (map (fun p => blobOf env (fst p) (base64 (snd p)))
               (combine (drawnIds env (drawn w) (List.length acc)) acc))).
      { apply Forall_forall. intros b Hb. apply in_map_iff in Hb.
        destruct Hb as ([i a] & <- & Hin). apply in_combine_r in Hin.
        unfold acc in Hin. apply taken_incl in Hin.
        apply successesOf_In in Hin. destruct Hin as [Hin Hok].
        exists (List.length (posts w)), (passRequest env request preset st),
          arts, a. repeat split; auto. apply blobOf_name_data. }
      set (bs1 := map (fun p => blobOf env (fst p) (base64 (snd p)))
                      (combine (drawnIds env (drawn w) (List.length acc)) acc))
        in *.
      destruct (loopTest request st1).
      * apply IH in H.
        destruct H as (k & rows & bs & Hd & Hb & Hi & Hn & Hf & Hr & Hex).
        exists (List.length acc + k)%nat, (rows1 ++ rows), (bs1 ++ bs).
        rewrite Hd1 in Hn, Hr, Hex.
        rewrite Hd, Hb, Hi, Hd1, Hb1, Hi1. rewrite <- !app_assoc.
        unfold drawnIds in *.
        rewrite !map_app, seq_app, !map_app, Hnames, Hn, Hr1, Hr.
        repeat split; try reflexivity; try lia.
        -- apply Forall_app. split; assumption.
        -- destruct ex as [st'|st'|]; [| |exact I];
             rewrite Hex, Hu1, <- app_assoc; reflexivity.
      * inversion H; subst ex w'.
        exists (List.length acc), rows1, bs1.
        repeat split; assumption.
    + rewrite loopBody_rejected in Hbody by exact Hax.
      inversion Hbody; subst it w1. inversion H; subst ex w'.
      exists 0%nat, [], []. simpl. rewrite !app_nil_r, Nat.add_0_r.
      repeat split; auto.
Qed.

End Passes.

(** *** Cancellation for string concatenation *)

Lemma string_length_append (a b : string) :
  String.length (a ++ b)%string = (String.length a + String.length b)%nat.
Proof.
  induction a as [|c a IH]; simpl; [reflexivity|]. rewrite IH. reflexivity.
Qed.

Lemma string_app_inv_head (a x y : string) :
  (a ++ x = a ++ y)%string -> x = y.
Proof.
  induction a as [|c a IH]; simpl; intros H; [exact H|].
  inversion H. auto.
Qed.

Lemma string_app_inv_tail (s : string) :
  forall x y : string, (x ++ s = y ++ s)%string -> x = y.
Proof.
  induction x as [|c x IH]; intros [|d y] H; simpl in H.
  - reflexivity.
  - apply (f_equal String.length) in H. simpl in H.
    rewrite string_length_append in H. lia.
  - apply (f_equal String.length) in H. simpl in H.
    rewrite string_length_append in H. lia.
  - inversion H. f_equal. apply IH. assumption.
Qed.

Lemma urlOf_injective (env : Env) (i j : string) :
  urlOf env i = urlOf env j -> i = j.
Proof.
  unfold urlOf. destruct (isLocalDevelopment env); cbn [negb]; intros H.
  - apply string_app_inv_head in H. apply string_app_inv_head in H.
    apply string_app_inv_tail in H. exact H.
  - apply string_app_inv_head in H. apply string_app_inv_tail in H. exact H.
Qed.

Lemma blobName_injective (env : Env) (i j : string) :
  blobName (blobOf env i EmptyString) = blobName (blobOf env j EmptyString) ->
  i = j.
Proof.
  unfold blobOf. destruct (isLocalDevelopment env); cbn [negb blobName];
    intros H.
  - apply string_app_inv_head in H. apply string_app_inv_head in H.
    apply string_app_inv_tail in H. exact H.
  - apply string_app_inv_tail in H. exact H.
Qed.

Lemma NoDup_map_injective {A B : Type} (f : A -> B) (l : list A) :
  (forall x y, In x l -> In y l -> f x = f y -> x = y) ->
  NoDup l -> NoDup (map f l).
Proof.
  intros Hinj Hnd. induction Hnd as [|a l Hnotin Hnd IH]; [constructor|].
  simpl. constructor.
  - intros Hin. apply in_map_iff in Hin. destruct Hin as (b & Hfb & Hb).
    assert (b = a) by (apply Hinj; simpl; auto). subst b. contradiction.
  - apply IH. intros x y Hx Hy. apply Hinj; simpl; auto.
Qed.

Section Requests.

Variable env : Env.
Variable request : ImageRequest.
Variable preset : string.

(** The requests of a run differ in [samples] only, and each asks for
    no more than the one before. *)
Lemma doWhile_requests (fuel : nat) :
  forall (st : LoopState) (w : World),
    exists ps,
      posts (snd (doWhile env fuel request preset st w)) = posts w ++ ps /\
      Forall (fun p => exists v, validImageCount st <= v /\ p = requestAt env request preset v) ps /\
      StronglySorted (fun p q => samples (body q) <= samples (body p)) ps.
Proof.
  induction fuel as [|fuel IH]; intros st w.
  - exists []. simpl. rewrite app_nil_r. repeat constructor.
  - rewrite doWhile_unfold.
    destruct (loopBody env request preset st w) as [it w1] eqn:Hbody.
    apply loopBody_spec in Hbody.
    destruct Hbody as (rows & bs & Hp & _ & _ & _ & Hit).
    assert (Hone : exists v, validImageCount st <= v /\
                             passRequest env request preset st = requestAt env request preset v)
      by (exists (validImageCount st); split; [lia|reflexivity]).
    destruct it as [st1|st1].
    + exists [passRequest env request preset st]. cbn [snd].
      repeat split; auto; repeat constructor; auto.
    + destruct Hit as (arts & _ & _ & _ & Hv & _).
      destruct (loopTest request st1).
      * destruct (IH st1 w1) as (ps & Hps & Hall & Hsorted).
        exists (passRequest env request preset st :: ps).
        rewrite Hps, Hp, <- app_assoc.
        repeat split; auto.
        -- constructor; [exact Hone|].
           eapply Forall_impl; [|exact Hall].
           intros p (v & Hle & ->). exists v. split; [lia|reflexivity].
        -- constructor; [exact Hsorted|].
           eapply Forall_impl; [|exact Hall].
           intros p (v & Hle & ->). simpl. lia.
      * exists [passRequest env request preset st]. cbn [snd].
        repeat split; auto; repeat constructor; auto.
Qed.

(** With at least one accepted image in every answer, [n] passes bring
    [n] more valid images, or the full count. *)
Lemma doWhile_progress (fuel : nat) :
  (forall n p, exists arts,
      axios_post env n p = Some arts /\ successesOf arts <> []) ->
  forall (st : LoopState) (w : World) (ex : LoopExit) (w' : World),
    0 <= validImageCount st <= count request ->
    doWhile env fuel request preset st w = (ex, w') ->
    match ex with
    | Aborted _ => False
    | OutOfFuel => True
    | Finished st' =>
        exists n : nat,
          tries st' = tries st + count request * Z.of_nat n /\
          Z.min (count request) (validImageCount st + Z.of_nat n)
          <= validImageCount st' <= count request
    end.
Proof.
  intros Hsvc. induction fuel as [|fuel IH]; intros st w ex w' Hv H.
  - inversion H; subst. exact I.
  - rewrite doWhile_unfold in H.
    destruct (loopBody env request preset st w) as [it w1] eqn:Hbody.
    apply loopBody_spec in Hbody.
    destruct Hbody as (rows & bs & _ & _ & _ & _ & Hit).
    destruct (Hsvc (List.length (posts w)) (passRequest env request preset st))
      as (arts & Hax & Hsome).
    destruct it as [st1|st1].
    + destruct Hit as (Hnone & _). congruence.
    + destruct Hit as (arts' & Hax' & _ & _ & _ & Ht1 & Hmin).
      rewrite Hax in Hax'. inversion Hax'; subst arts'. clear Hax'.
      assert (Hlen : (1 <= List.length (successesOf arts))%nat).
      { destruct (successesOf arts); [congruence|simpl; lia]. }
      specialize (Hmin ltac:(lia)).
      destruct (loopTest request st1).
      * apply IH in H; [|lia]. destruct ex as [st'|st'|]; auto.
        destruct H as (n & Ht & Hvn). exists (S n). split; lia.
      * inversion H; subst ex w'. exists 1%nat. split; lia.
Qed.

End Requests.

Section Budget.

Variable env : Env.
Variable request : ImageRequest.

(** A second pass is made only for a positive count. *)
Lemma doWhile_second_pass (fuel : nat) (st : LoopState) (w : World)
    (ps : list HttpPost) :
  0 <= validImageCount st ->
  posts (snd (doWhile env fuel request (presetOf request) st w))
  = posts w ++ ps ->
  (2 <= List.length ps)%nat ->
  1 <= count request.
Proof.
  intros Hv Hps Hlen. destruct fuel as [|fuel].
  - simpl in Hps. rewrite <- (app_nil_r (posts w)) in Hps at 1.
    apply app_inv_head in Hps. subst ps. simpl in Hlen. lia.
  - rewrite doWhile_unfold in Hps.
    destruct (loopBody env request (presetOf request) st w) as [it w1]
      eqn:Hbody.
    apply loopBody_spec in Hbody.
    destruct Hbody as (rows & bs & Hp & _ & _ & _ & Hit).
    assert (Hsingle : posts w1 = posts w ++ ps -> False).
    { intros Heq. rewrite Hp in Heq. apply app_inv_head in Heq.
      subst ps. simpl in Hlen. lia. }
    destruct it as [st1|st1]; [exfalso; auto|].
    destruct Hit as (arts & _ & _ & _ & Hv1 & _).
    destruct (loopTest request st1) eqn:Htest; [|exfalso; auto].
    unfold loopTest in Htest. apply andb_prop in Htest.
    destruct Htest as [Hlt _]. apply Z.ltb_lt in Hlt. lia.
Qed.

(** What a run with a configured key sends: at least one request, at
    most 30, and a further one only while [tries] is below the budget. *)
Lemma generateImage_requests (w : World) :
  truthy (apiKey env) = true ->
  exists ps,
    posts (snd (generateImage env request w)) = posts w ++ ps /\
    (1 <= List.length ps <= Z.to_nat maxImageTries)%nat /\
    ((2 <= List.length ps)%nat -> 1 <= count request) /\
    count request * (Z.of_nat (List.length ps) - 1) < maxImageTries.
Proof.
  intros Hkey.
  assert (Hloop : exists ps,
    posts (snd (doWhile env (Z.to_nat maxImageTries) request
                        (presetOf request) initialLoop w)) = posts w ++ ps /\
    (1 <= List.length ps)%nat /\
    count request * (Z.of_nat (List.length ps) - 1) < maxImageTries).
  { pose proof (doWhile_terminates env request (presetOf request)
                  (Z.to_nat maxImageTries) initialLoop w) as Hfin.
    destruct (doWhile env (Z.to_nat maxImageTries) request (presetOf request)
                      initialLoop w) as [ex w1] eqn:Hrun.
    apply doWhile_spec in Hrun.
    destruct Hrun as (ps & rows & bs & Hp & _ & _ & _ & _ & _ & Hex).
    exists ps. cbn [snd fst] in *. split; [exact Hp|].
    destruct ex as [st'|st'|].
    - destruct Hex as ((E1 & E2 & _ & _ & E5 & _) & _).
      cbn [tries initialLoop] in *. specialize (E5 ltac:(reflexivity)).
      split; lia.
    - destruct Hex as ((E1 & E2 & _ & _ & E5 & _) & _).
      cbn [tries initialLoop] in *. specialize (E5 ltac:(reflexivity)).
      split; lia.
    - exfalso. apply Hfin; unfold maxImageTries; simpl; try lia.
      reflexivity. }
  destruct Hloop as (ps & Hp & Hone & Hbudget).
  pose proof (doWhile_second_pass _ initialLoop w ps ltac:(simpl; lia) Hp)
    as Hsecond.
  exists ps. repeat split; try assumption.
  - unfold generateImage, generateImage_fuel. rewrite Hkey. cbn [negb].
    unfold bind at 1.
    destruct (doWhile env (Z.to_nat maxImageTries) request (presetOf request)
                      initialLoop w) as [ex w1].
    cbn [snd] in Hp.
    destruct ex as [st'|st'|]; cbn [snd]; try exact Hp.
    destruct (validImageCount st' <? count request);
      unfold bind, sendWebsocketMessage, ret; cbn [snd posts]; exact Hp.
  - destruct (Nat.le_gt_cases (List.length ps) 1) as [Hle|Hgt].
    + unfold maxImageTries. simpl. lia.
    + specialize (Hsecond Hgt). unfold maxImageTries in *.
      assert (Z.of_nat (List.length ps) - 1
              <= count request * (Z.of_nat (List.length ps) - 1)) by nia.
      lia.
Qed.

End Budget.

(** X1.  [generateImage] returns on every input: thirty passes are
    never used up, so any larger bound on the passes gives the same
    run.  With a configured key the run sends at least one and at most
    thirty requests, and a second one only for a positive count. *)
Theorem generateImage_returns_within_budget
    (env : Env) (request : ImageRequest) (w : World) (fuel : nat) :
  (Z.to_nat maxImageTries <= fuel)%nat ->
  generateImage_fuel env fuel request w = generateImage env request w /\
  fst (generateImage env request w) <> Unfinished /\
  (truthy (apiKey env) = true ->
   exists ps,
     posts (snd (generateImage env request w)) = posts w ++ ps /\
     (1 <= List.length ps <= 30)%nat /\
     ((2 <= List.length ps)%nat -> 1 <= count request) /\
     count request * (Z.of_nat (List.length ps) - 1) < 30).
Proof.
  intros Hfuel.
  destruct (generateImage_terminates env request fuel w Hfuel) as [Hsame Hfin].
  repeat split; try assumption.
  intros Hkey. apply generateImage_requests. exact Hkey.
Qed.

(** X2.  For a non-negative count and a configured key, a run that
    returns a list returns at most [count] URIs, those of the rows it
    created, and closes with exactly one terminal notification:
    "generation done" when the list is full, "filtered" when it is
    short. *)
Theorem done_exactly_when_full
    (env : Env) (request : ImageRequest) (w w' : World) (us : list string) :
  truthy (apiKey env) = true ->
  0 <= count request ->
  generateImage env request w = (Returned (Some us), w') ->
  exists rows,
    images w' = images w ++ rows /\
    us = map uriOf rows /\
    Z.of_nat (List.length us) <= count request /\
    sent w'
    = sent w ++ map (createdMsg request) rows
             ++ [if Z.of_nat (List.length us) =? count request
                 then doneMsg request else filteredMsg request].
Proof.
  intros Hkey Hcount Hrun.
  apply generateImage_fuel_spec in Hrun; [|exact Hkey].
  destruct Hrun as (ps & rows & bs & _ & Hi & _ & _ & Hb & _ & -> & Hs).
  destruct (Hb Hcount) as [_ Hrows].
  exists rows. rewrite length_map. repeat split; try assumption.
  rewrite Hs. unfold terminalMsg.
  destruct (Z.of_nat (List.length rows) <? count request) eqn:Hlt.
  - apply Z.ltb_lt in Hlt.
    replace (Z.of_nat (List.length rows) =? count request) with false
      by (symmetry; apply Z.eqb_neq; lia).
    reflexivity.
  - apply Z.ltb_ge in Hlt.
    replace (Z.of_nat (List.length rows) =? count request) with true
      by (symmetry; apply Z.eqb_eq; lia).
    reflexivity.
Qed.



(** The effects of a whole call on the stores, identifier by
    identifier. *)
Lemma generateImage_exact (env : Env) (request : ImageRequest) (w : World) :
  exists (k : nat) rows bs,
    drawn (snd (generateImage env request w)) = (drawn w + k)%nat /\
    blobs (snd (generateImage env request w)) = blobs w ++ bs /\
    images (snd (generateImage env request w)) = images w ++ rows /\
    map blobName bs
    = map (fun i => blobName (blobOf env i EmptyString))
          (drawnIds env (drawn w) k) /\
    Forall (fromAcceptedArtifact env) bs /\
    map row_data rows
    = map (fun i => imageData request (presetOf request) (urlOf env i))
          (drawnIds env (drawn w) k) /\
    forall us, fst (generateImage env request w) = Returned (Some us) ->
               us = map (urlOf env) (drawnIds env (drawn w) k).
Proof.
  unfold generateImage, generateImage_fuel.
  destruct (truthy (apiKey env)); cbn [negb].
  - unfold bind at 1. unfold bind at 1. unfold bind at 1.
    unfold bind at 1. unfold bind at 1. unfold bind at 1. unfold bind at 1.
    destruct (doWhile env (Z.to_nat maxImageTries) request (presetOf request)
                      initialLoop w) as [ex w1] eqn:Hrun.
    apply doWhile_exact in Hrun.
    destruct Hrun as (k & rows & bs & Hd & Hb & Hi & Hn & Hf & Hr & Hex).
    exists k, rows, bs.
    destruct ex as [st'|st'|]; cbn [fst snd].
    + repeat split; try assumption. discriminate.
    + unfold bind, sendWebsocketMessage, ret.
      destruct (validImageCount st' <? count request);
        cbn [fst snd drawn blobs images];
        (repeat split; try assumption;
         intros us Hus; inversion Hus; subst us; exact Hex).
    + repeat split; try assumption. discriminate.
  - exists 0%nat, [], []. cbn [fst snd ret]. unfold ret. cbn [fst snd].
    rewrite !app_nil_r, Nat.add_0_r. repeat split; auto. discriminate.
Qed.

(** X5.  Every row [generateImage] creates carries the request it was
    made for: its user, prompt and negative prompt, the style preset in
    force ("fantasy-art" when the request names none or an empty one),
    the linked session, conjuration and character (none when the request
    has no linking), and as URI the public address of the object stored
    under the identifier drawn for it: served from [API_URL] in local
    development, from the assets host otherwise. *)
Theorem rows_carry_the_request
    (env : Env) (request : ImageRequest) (w : World) :
  exists rows,
    images (snd (generateImage env request w)) = images w ++ rows /\
    Forall
      (fun r =>
         row_userId (row_data r) = userId request /\
         row_prompt (row_data r) = prompt request /\
         row_negativePrompt (row_data r) = negativePrompt request /\
         row_stylePreset (row_data r)
         = match stylePreset request with
           | Some p => if (p =? EmptyString)%string then "fantasy-art" else p
           | None => "fantasy-art"
           end /\
         row_sessionId (row_data r)
         = match linking request with
           | Some l => sessionId l
           | None => None
           end /\
         row_conjurationId (row_data r)
         = match linking request with
           | Some l => conjurationId l
           | None => None
           end /\
         row_characterId (row_data r)
         = match linking request with
           | Some l => characterId l
           | None => None
           end /\
         exists i,
           row_uri (row_data r)
           = if isLocalDevelopment env
             then (match API_URL env with
                   | Some u => u
                   | None => "undefined"
                   end ++ "/images/" ++ uuidv4 env i ++ ".png")%string
             else ("https://assets.mythweaver.co/" ++ uuidv4 env i ++ ".png")%string)
      rows.
Proof.
  destruct (generateImage_exact env request w)
    as (k & rows & bs & _ & _ & Hi & _ & _ & Hr & _).
  exists rows. split; [exact Hi|].
  apply Forall_forall. intros r Hin.
  apply (in_map row_data) in Hin. rewrite Hr in Hin.
  apply in_map_iff in Hin. destruct Hin as (i & Hi' & Hin).
  unfold drawnIds in Hin. apply in_map_iff in Hin.
  destruct Hin as (n & <- & _).
  rewrite <- Hi'.
  cbn [imageData row_userId row_prompt row_negativePrompt row_stylePreset
       row_sessionId row_conjurationId row_characterId row_uri].
  split; [reflexivity|]. split; [reflexivity|]. split; [reflexivity|].
  split; [reflexivity|]. split; [reflexivity|]. split; [reflexivity|].
  split; [reflexivity|].
  exists n. unfold urlOf, interpolate.
  destruct (isLocalDevelopment env); reflexivity.
Qed.

(** X6.  The blob store never overwrites within a call: when [uuidv4]
    does not repeat itself, the objects written by one [generateImage]
    have pairwise different names (paths or keys), there is one per row,
    and the URIs returned are pairwise different too. *)
Theorem blobs_never_overwritten
    (env : Env) (request : ImageRequest) (w : World) :
  (forall i j, uuidv4 env i = uuidv4 env j -> i = j) ->
  exists rows bs,
    images (snd (generateImage env request w)) = images w ++ rows /\
    blobs (snd (generateImage env request w)) = blobs w ++ bs /\
    List.length bs = List.length rows /\
    NoDup (map blobName bs) /\
    NoDup (map uriOf rows) /\
    forall us, fst (generateImage env request w) = Returned (Some us) ->
               NoDup us.
Proof.
  intros Hinj.
  destruct (generateImage_exact env request w)
    as (k & rows & bs & _ & Hb & Hi & Hn & _ & Hr & Hus).
  assert (Hids : NoDup (drawnIds env (drawn w) k)).
  { unfold drawnIds. apply NoDup_map_injective; [|apply seq_NoDup].
    intros x y _ _. apply Hinj. }
  assert (Huris : map uriOf rows = map (urlOf env) (drawnIds env (drawn w) k)).
  { unfold uriOf. rewrite <- (map_map row_data row_uri), Hr, map_map.
    reflexivity. }
  assert (Hurls : NoDup (map (urlOf env) (drawnIds env (drawn w) k))).
  { apply NoDup_map_injective; [|exact Hids].
    intros x y _ _. apply urlOf_injective. }
  exists rows, bs. repeat split; try assumption.
  - apply (f_equal (@List.length _)) in Hn.
    apply (f_equal (@List.length _)) in Hr.
    rewrite !length_map in Hn, Hr. congruence.
  - rewrite Hn. apply NoDup_map_injective; [|exact Hids].
    intros x y _ _. apply blobName_injective.
  - rewrite Huris. exact Hurls.
  - intros us Hret. rewrite (Hus us Hret). exact Hurls.
Qed.

(** X7.  Only accepted images are stored: the payload of every blob
    written by [generateImage] is the base64 data of an artifact with
    finish reason SUCCESS that the generation service returned; filtered
    and failed artifacts never reach the blob store. *)
Theorem only_accepted_images_are_stored
    (env : Env) (request : ImageRequest) (w : World) :
  exists bs,
    blobs (snd (generateImage env request w)) = blobs w ++ bs /\
    Forall (fun b =>
              exists n p arts a,
                axios_post env n p = Some arts /\
                In a arts /\
                finishReason a = SUCCESS /\
                blobData b = base64 a)
           bs.
Proof.
  destruct (generateImage_exact env request w)
    as (k & rows & bs & _ & Hb & _ & _ & Hf & _).
  exists bs. split; [exact Hb|exact Hf].
Qed.


(** X9.  All requests of one [generateImage] are the same request up to
    [samples].  Each goes to the text-to-image endpoint of engine
    stable-diffusion-v1-6 on [API_HOST] (https://api.stability.ai when
    unset) with the key as bearer token, and carries the prompt with
    weight 1, "blurry, bad, " followed by the negative prompt (the word
    "undefined" when the request has none) with weight -1, guidance
    scale 7, 1024 by 1024, 30 steps and the preset in force.  The first
    asks for [count] samples and none asks for more than the one before
    it. *)
Theorem requests_differ_in_samples_only
    (env : Env) (request : ImageRequest) (w : World) (key : string) :
  STABILITY_API_KEY env = Some key ->
  key <> EmptyString ->
  exists p ps,
    posts (snd (generateImage env request w)) = posts w ++ p :: ps /\
    samples (body p) = count request /\
    Forall
      (fun q =>
         url q
         = (match API_HOST env with
            | Some h => h
            | None => "https://api.stability.ai"
            end
            ++ "/v1/generation/stable-diffusion-v1-6/text-to-image")%string /\
         authorization q = ("Bearer " ++ key)%string /\
         text_prompts (body q)
         = [ mkTextPrompt (prompt request) 1;
             mkTextPrompt
               ("blurry, bad, "
                ++ match negativePrompt request with
                   | Some n => n
                   | None => "undefined"
                   end)%string (-1) ] /\
         cfg_scale (body q) = 7 /\
         height (body q) = 1024 /\
         width (body q) = 1024 /\
         steps (body q) = 30 /\
         style_preset (body q)
         = match stylePreset request with
           | Some s => if (s =? EmptyString)%string then "fantasy-art" else s
           | None => "fantasy-art"
           end)
      (p :: ps) /\
    StronglySorted (fun q q' => samples (body q') <= samples (body q))
                   (p :: ps).
Proof.
  intros Hsome Hne.
  assert (Hkey : truthy (apiKey env) = true).
  { unfold apiKey, truthy. rewrite Hsome.
    destruct (String.eqb_spec key EmptyString); [contradiction|reflexivity]. }
  destruct (doWhile_requests env request (presetOf request)
              (Z.to_nat maxImageTries) initialLoop w)
    as (qs & Hqs & Hall & Hsorted).
  destruct (generateImage_requests env request w Hkey)
    as (ps & Hps & Hlen & _).
  assert (Hsame : ps = qs).
  { apply (app_inv_head (posts w)). rewrite <- Hps, <- Hqs.
    unfold generateImage, generateImage_fuel. rewrite Hkey. cbn [negb].
    unfold bind at 1.
    destruct (doWhile env (Z.to_nat maxImageTries) request (presetOf request)
                      initialLoop w) as [ex w1].
    destruct ex as [st'|st'|]; cbn [snd]; try reflexivity.
    destruct (validImageCount st' <? count request);
      unfold bind, sendWebsocketMessage, ret; reflexivity. }
  subst qs. destruct ps as [|p ps]; [simpl in Hlen; lia|].
  assert (Hfirst : p = sdRequest env request (presetOf request)).
  { change (Z.to_nat maxImageTries) with (S 29) in Hqs.
    rewrite doWhile_unfold in Hqs.
    destruct (loopBody env request (presetOf request) initialLoop w)
      as [it w1] eqn:Hbody.
    apply loopBody_spec in Hbody.
    destruct Hbody as (rows & bs & Hp1 & _).
    assert (Hpre : exists rest, posts
              (snd match it with
                   | Abort st' => (Aborted st', w1)
                   | Completed st' =>
                       if loopTest request st'
                       then doWhile env 29 request (presetOf request) st' w1
                       else (Finished st', w1)
                   end) = posts w1 ++ rest).
    { destruct it as [st1|st1]; [exists []; rewrite app_nil_r; reflexivity|].
      destruct (loopTest request st1);
        [|exists []; rewrite app_nil_r; reflexivity].
      destruct (doWhile_requests env request (presetOf request) 29 st1 w1)
        as (rest & Hrest & _). exists rest. exact Hrest. }
    destruct Hpre as (rest & Hrest). rewrite Hrest, Hp1, <- app_assoc in Hqs.
    apply app_inv_head in Hqs. inversion Hqs.
    unfold passRequest, sdRequest, withCount. cbn [initialLoop validImageCount
      prompt negativePrompt count].
    rewrite Z.sub_0_r. reflexivity. }
  exists p, ps. split; [exact Hps|].
  split; [rewrite Hfirst; reflexivity|]. split; [|exact Hsorted].
  eapply Forall_impl; [|exact Hall].
  intros q (v & _ & ->).
  unfold requestAt, sdRequest, apiHost, nullish, interpolate, apiKey, engineId,
    presetOf, orElse.
  rewrite Hsome.
  cbn [url authorization body text_prompts cfg_scale height width steps
       style_preset withCount prompt negativePrompt].
  repeat (split; [reflexivity|]). reflexivity.
Qed.


Lemma existsb_eqb_In (d : string) (ds : list string) :
  existsb (String.eqb d) ds = true <-> In d ds.
Proof.
  rewrite existsb_exists. split.
  - intros (x & Hin & Heq). apply String.eqb_eq in Heq. subst x. exact Hin.
  - intros Hin. exists d. split; [exact Hin|apply String.eqb_refl].
Qed.


(** X12.  [postToStableDiffusion] by depth: beyond depth 5 it returns
    undefined without sending a request or a notification; up to depth 5
    it sends exactly one request, and an answered call at a depth other
    than 0 reports the request's prompt as [updatedPrompt].  At no depth
    does it touch the blob store or the image table. *)
Theorem postToStableDiffusion_by_depth
    (env : Env) (request : ImageRequest) (preset : string)
    (history : list string) (depth : Z) (w : World) :
  let r := postToStableDiffusion env request preset history depth w in
  (5 < depth -> r = (None, w)) /\
  (depth <= 5 ->
   posts (snd r) = posts w ++ [sdRequest env request preset]) /\
  (depth <= 5 -> depth <> 0 ->
   forall arts,
     axios_post env (List.length (posts w)) (sdRequest env request preset)
     = Some arts ->
     r = (Some (mkResponse arts (Some (prompt request))),
          withPosts w [sdRequest env request preset])) /\
  blobs (snd r) = blobs w /\ images (snd r) = images w /\
  dirs (snd r) = dirs w /\ drawn (snd r) = drawn w.
Proof.
  cbv zeta. destruct (Z.le_gt_cases depth 5) as [Hle|Hgt].
  - rewrite postToStableDiffusion_spec by exact Hle.
    split; [lia|]. split; [|split].
    + intros _. destruct (axios_post env _ _); reflexivity.
    + intros _ Hnz arts Hax. rewrite Hax.
      replace (depth =? 0) with false by (symmetry; apply Z.eqb_neq; lia).
      reflexivity.
    + destruct (axios_post env _ _); cbn [snd blobs images dirs drawn]; auto.
  - unfold postToStableDiffusion.
    replace (5 <? depth) with true by (symmetry; apply Z.ltb_lt; lia).
    unfold ret. cbn [snd]. repeat split; auto; lia.
Qed.

(** *** The further properties on concrete runs *)

Lemma uuidOf_injective (i j : nat) : uuidOf i = uuidOf j -> i = j.
Proof.
  unfold uuidOf. intros H. apply string_app_inv_head in H.
  apply Unsigned.to_uint_inj.
  assert (Hsome : Some (Nat.to_uint i) = Some (Nat.to_uint j))
    by (rewrite <- !NilEmpty.usu, H; reflexivity).
  inversion Hsome. reflexivity.
Defined.

Lemma generateImage_returns_within_budget_witness :
  (Z.to_nat maxImageTries <= 40)%nat /\
  generateImage_fuel mixedEnv 40 (requestFor 10) emptyWorld
  = generateImage mixedEnv (requestFor 10) emptyWorld /\
  fst (generateImage mixedEnv (requestFor 10) emptyWorld) <> Unfinished /\
  (truthy (apiKey mixedEnv) = true ->
   exists ps,
     posts (snd (generateImage mixedEnv (requestFor 10) emptyWorld))
     = posts emptyWorld ++ ps /\
     (1 <= List.length ps <= 30)%nat /\
     ((2 <= List.length ps)%nat -> 1 <= count (requestFor 10)) /\
     count (requestFor 10) * (Z.of_nat (List.length ps) - 1) < 30).
Proof.
  split; [simpl; lia|].
  apply (generateImage_returns_within_budget mixedEnv (requestFor 10)
           emptyWorld 40).
  simpl. lia.
Defined.

Lemma done_exactly_when_full_witness :
  (truthy (apiKey obligingEnv) = true /\
   0 <= count (requestFor 2) /\
   generateImage obligingEnv (requestFor 2) emptyWorld
   = (Returned (Some ["http://localhost:8000/images/uuid-0.png";
                      "http://localhost:8000/images/uuid-1.png"]),
      snd (generateImage obligingEnv (requestFor 2) emptyWorld))) /\
  exists rows,
    images (snd (generateImage obligingEnv (requestFor 2) emptyWorld))
    = images emptyWorld ++ rows /\
    ["http://localhost:8000/images/uuid-0.png";
     "http://localhost:8000/images/uuid-1.png"] = map uriOf rows /\
    Z.of_nat (List.length ["http://localhost:8000/images/uuid-0.png";
                           "http://localhost:8000/images/uuid-1.png"])
    <= count (requestFor 2) /\
    sent (snd (generateImage obligingEnv (requestFor 2) emptyWorld))
    = sent emptyWorld ++ map (createdMsg (requestFor 2)) rows
        ++ [if Z.of_nat
                 (List.length ["http://localhost:8000/images/uuid-0.png";
                               "http://localhost:8000/images/uuid-1.png"])
               =? count (requestFor 2)
            then doneMsg (requestFor 2) else filteredMsg (requestFor 2)].
Proof.
  split; [split; [reflexivity|split; [simpl; lia|vm_compute; reflexivity]]|].
  apply (done_exactly_when_full obligingEnv (requestFor 2) emptyWorld
           (snd (generateImage obligingEnv (requestFor 2) emptyWorld))
           ["http://localhost:8000/images/uuid-0.png";
            "http://localhost:8000/images/uuid-1.png"]).
  - reflexivity.
  - simpl. lia.
  - vm_compute. reflexivity.
Defined.

Lemma obligingService_answers (n : nat) (p : HttpPost) :
  axios_post obligingEnv n p <> None.
Proof. discriminate. Defined.



Lemma blobs_never_overwritten_witness :
  exists rows bs,
    images (snd (generateImage obligingEnv (requestFor 2) emptyWorld))
    = images emptyWorld ++ rows /\
    blobs (snd (generateImage obligingEnv (requestFor 2) emptyWorld))
    = blobs emptyWorld ++ bs /\
    List.length bs = List.length rows /\
    NoDup (map blobName bs) /\
    NoDup (map uriOf rows) /\
    forall us,
      fst (generateImage obligingEnv (requestFor 2) emptyWorld)
      = Returned (Some us) ->
      NoDup us.
Proof.
  apply (blobs_never_overwritten obligingEnv (requestFor 2) emptyWorld).
  exact uuidOf_injective.
Defined.


Lemma requests_differ_in_samples_only_witness :
  exists p ps,
    posts (snd (generateImage mixedEnv (requestFor 10) emptyWorld))
    = posts emptyWorld ++ p :: ps /\
    samples (body p) = count (requestFor 10) /\
    Forall
      (fun q =>
         url q
         = (match API_HOST mixedEnv with
            | Some h => h
            | None => "https://api.stability.ai"
            end
            ++ "/v1/generation/stable-diffusion-v1-6/text-to-image")%string /\
         authorization q = ("Bearer " ++ "sk-test")%string /\
         text_prompts (body q)
         = [ mkTextPrompt (prompt (requestFor 10)) 1;
             mkTextPrompt
               ("blurry, bad, "
                ++ match negativePrompt (requestFor 10) with
                   | Some n => n
                   | None => "undefined"
                   end)%string (-1) ] /\
         cfg_scale (body q) = 7 /\
         height (body q) = 1024 /\
         width (body q) = 1024 /\
         steps (body q) = 30 /\
         style_preset (body q)
         = match stylePreset (requestFor 10) with
           | Some s => if (s =? EmptyString)%string then "fantasy-art" else s
           | None => "fantasy-art"
           end)
      (p :: ps) /\
    StronglySorted (fun q q' => samples (body q') <= samples (body q))
                   (p :: ps).
Proof.
  apply (requests_differ_in_samples_only mixedEnv (requestFor 10) emptyWorld
           "sk-test" eq_refl).
  discriminate.
Defined.


Lemma stingyService_progresses (n : nat) (p : HttpPost) :
  exists arts,
    axios_post stingyEnv n p = Some arts /\ successesOf arts <> [].
Proof.
  eexists. split; [reflexivity|]. discriminate.
Defined.


(** ** Properties of the session controller *)

Module SessionFacts.

Import Backend SessionController SessionTerms.
Local Open Scope call_scope.

Lemma find_hasId (key : Z) (l : list Session.t) (s : Session.t) :
  find (hasId key) l = Some s -> In s l /\ Session.id s = key.
Proof.
  intros H. apply find_some in H. destruct H as [Hin Hid].
  split; [exact Hin|]. apply Z.eqb_eq. exact Hid.
Qed.

Lemma find_update_same (key : Z) (f : Session.t -> Session.t)
    (l : list Session.t) :
  (forall x, Session.id (f x) = Session.id x) ->
  find (hasId key) (map (fun x => if hasId key x then f x else x) l)
  = option_map f (find (hasId key) l).
Proof.
  intros Hid. induction l as [|x l IH]; [reflexivity|].
  simpl. destruct (hasId key x) eqn:Hx.
  - unfold hasId in *. rewrite Hid, Hx. reflexivity.
  - rewrite Hx. exact IH.
Qed.

Lemma find_update_other (key key' : Z) (f : Session.t -> Session.t)
    (l : list Session.t) :
  (forall x, Session.id (f x) = Session.id x) ->
  key' <> key ->
  find (hasId key') (map (fun x => if hasId key x then f x else x) l)
  = find (hasId key') l.
Proof.
  intros Hid Hne. induction l as [|x l IH]; [reflexivity|].
  simpl. destruct (hasId key x) eqn:Hx.
  - unfold hasId in *. rewrite Hid. apply Z.eqb_eq in Hx.
    replace (Session.id x =? key') with false
      by (symmetry; apply Z.eqb_neq; lia).
    exact IH.
  - destruct (hasId key' x); [reflexivity|exact IH].
Qed.

Lemma find_delete_same (key : Z) (l : list Session.t) :
  find (hasId key) (filter (fun x => negb (hasId key x)) l) = None.
Proof.
  induction l as [|x l IH]; [reflexivity|].
  simpl. destruct (hasId key x) eqn:Hx; simpl; [exact IH|].
  rewrite Hx. exact IH.
Qed.

Lemma find_delete_other (key key' : Z) (l : list Session.t) :
  key' <> key ->
  find (hasId key') (filter (fun x => negb (hasId key x)) l)
  = find (hasId key') l.
Proof.
  intros Hne. induction l as [|x l IH]; [reflexivity|].
  simpl. destruct (hasId key x) eqn:Hx; simpl.
  - unfold hasId in *. apply Z.eqb_eq in Hx.
    replace (Session.id x =? key') with false
      by (symmetry; apply Z.eqb_neq; lia).
    exact IH.
  - destruct (hasId key' x); [reflexivity|exact IH].
Qed.

Lemma apply_keeps_id (d : Data.t) (s : Session.t) :
  Session.id (Data.apply d s) = Session.id s.
Proof. reflexivity. Qed.

(** [getSession], case by case. *)
Lemma getSession_cases (user : Z) (info : TrackingInfo) (key : Z) (db : State) :
  getSession user info key db
  = match find (hasId key) (sessions db) with
    | None => (inl notFound, db)
    | Some s =>
        match Session.userId s with
        | Some owner =>
            if owner =? user then (inr s, tracking db GetSession user info)
            else (inl noAccess, db)
        | None => (inr s, tracking db GetSession user info)
        end
    end.
Proof.
  unfold getSession, andThen, session_findUnique.
  destruct (find (hasId key) (sessions db)) as [s|]; [|reflexivity].
  destruct (Session.userId s) as [owner|]; [|reflexivity].
  destruct (owner =? user); reflexivity.
Qed.

Lemma getSession_granted (user : Z) (info : TrackingInfo) (key : Z)
    (db : State) (s : Session.t) :
  find (hasId key) (sessions db) = Some s ->
  accessible user s ->
  getSession user info key db = (inr s, tracking db GetSession user info).
Proof.
  intros Hfind Hacc. rewrite getSession_cases, Hfind.
  destruct Hacc as [-> | ->]; [reflexivity|].
  rewrite Z.eqb_refl. reflexivity.
Qed.

Lemma getSession_failure (user : Z) (info : TrackingInfo) (key : Z)
    (db : State) (e : Thrown) :
  fst (getSession user info key db) = inl e ->
  getSession user info key db = (inl e, db).
Proof.
  rewrite getSession_cases.
  destruct (find (hasId key) (sessions db)) as [s|].
  - destruct (Session.userId s) as [owner|].
    + destruct (owner =? user); simpl; intros H; [discriminate|].
      inversion H. reflexivity.
    + simpl. discriminate.
  - simpl. intros H. inversion H. reflexivity.
Qed.

(** X13.  [getSession] is the access check of the controller: what it
    returns is the session of the table with the key asked for, and that
    session has no owner or belongs to the caller.  It answers "not
    found" (404) for an unknown key and "forbidden" (403) for a session
    of another user; it never changes a table, and tracks the call only
    when it succeeds. *)
Theorem getSession_checks_access
    (user : Z) (info : TrackingInfo) (key : Z) (db : State) :
  match getSession user info key db with
  | (inr s, db') =>
      find (hasId key) (sessions db) = Some s /\
      In s (sessions db) /\ Session.id s = key /\
      accessible user s /\
      db' = tracking db GetSession user info
  | (inl e, db') =>
      db' = db /\
      ((e = notFound /\ find (hasId key) (sessions db) = None) \/
       (e = noAccess /\
        exists s owner,
          find (hasId key) (sessions db) = Some s /\
          Session.userId s = Some owner /\ owner <> user))
  end.
Proof.
  rewrite getSession_cases.
  destruct (find (hasId key) (sessions db)) as [s|] eqn:Hfind.
  - destruct (find_hasId _ _ _ Hfind) as [Hin Hid].
    destruct (Session.userId s) as [owner|] eqn:Hown.
    + destruct (owner =? user) eqn:Heq.
      * apply Z.eqb_eq in Heq. subst owner.
        repeat split; auto. right. exact Hown.
      * apply Z.eqb_neq in Heq. split; [reflexivity|]. right.
        split; [reflexivity|]. exists s, owner. auto.
    + repeat split; auto. left. exact Hown.
  - split; [reflexivity|]. left. auto.
Qed.

(** X14.  None of the calls that change a session goes past the access
    check: whenever [getSession] would refuse the caller (unknown key,
    or a session of another user), [patchSession], [deleteSession],
    [postGenerateSummary] and [postSessionAudio] fail with the same
    error and leave every table, the queue and the tracking log as they
    were. *)
Theorem refused_callers_change_nothing
    (cfg : Config) (user : Z) (info : TrackingInfo) (key : Z) (db : State)
    (e : Thrown) (patch : PatchSessionRequest)
    (summary : PostCompleteSessionRequest) (audio : PostSessionAudioRequest) :
  fst (getSession user info key db) = inl e ->
  patchSession user info key patch db = (inl e, db) /\
  deleteSession user info key db = (inl e, db) /\
  postGenerateSummary cfg user info key summary db = (inl e, db) /\
  postSessionAudio cfg user info key audio db = (inl e, db).
Proof.
  intros Hget. apply getSession_failure in Hget. rename Hget into Hrun.
  unfold patchSession, deleteSession, postGenerateSummary, postSessionAudio.
  unfold andThen at 1. rewrite Hrun.
  split; [reflexivity|].
  unfold andThen at 1. unfold andThen at 1. rewrite Hrun.
  split; [reflexivity|].
  unfold andThen at 1. rewrite Hrun.
  split; [reflexivity|].
  unfold andThen at 1. rewrite Hrun. reflexivity.
Qed.


Lemma patchData_wellTyped (user : Z) (request : PatchSessionRequest) :
  patch_archived request <> Null ->
  Data.wellTyped (patchData user request) = true.
Proof.
  intros Hnull. unfold Data.wellTyped, patchData.
  cbn [Data.archived Data.completed Data.isNull].
  destruct (patch_archived request); [reflexivity|contradiction|reflexivity].
Qed.

Lemma patchSession_granted (user : Z) (info : TrackingInfo) (key : Z)
    (request : PatchSessionRequest) (db : State) (s : Session.t) :
  find (hasId key) (sessions db) = Some s ->
  accessible user s ->
  patch_archived request <> Null ->
  patchSession user info key request db
  = (inr (patched user request s),
     tracking
       (withSessions (tracking db GetSession user info)
          (map (fun x => if hasId key x then patched user request x else x)
               (sessions db)))
       UpdateSession user info).
Proof.
  intros Hfind Hacc Hnull. unfold patchSession. unfold andThen at 1.
  rewrite (getSession_granted _ _ _ _ _ Hfind Hacc).
  unfold andThen, session_update, track, pure.
  rewrite (patchData_wellTyped user request Hnull).
  cbn [negb sessions tracking]. rewrite Hfind. reflexivity.
Qed.

(** X16.  [patchSession] writes what the body carries and makes the
    caller the owner.  The body can hold every key the PATCH route
    admits: the name, the image, planning, recap, summary, transcript and
    suggestions, the five suggested texts, and [archived].  On a session
    the caller may see, each text column is left alone when its key is
    absent, emptied when it is null and set when it has a value;
    [archived] is set when the body gives it, so a patch can archive a
    session and take it out of the archive again.  The owner becomes the
    caller whatever the body holds, also for a session that had none.
    The key, the campaign, the completed flag, the audio columns and the
    creation time never change, the session returned is the one then in
    the table, and no other session is touched. *)
Theorem patchSession_writes_request_and_owner
    (user : Z) (info : TrackingInfo) (key : Z)
    (request : PatchSessionRequest) (db : State) (s : Session.t) :
  find (hasId key) (sessions db) = Some s ->
  (Session.userId s = None \/ Session.userId s = Some user) ->
  patch_archived request <> Null ->
  exists s' db',
    patchSession user info key request db = (inr s', db') /\
    find (hasId key) (sessions db') = Some s' /\
    Session.userId s' = Some user /\
    (forall (k : Key string) (column : Session.t -> option string),
        In (k, column)
           [ (patch_name request, Session.name);
             (patch_imageUri request, Session.imageUri);
             (patch_planning request, Session.planning);
             (patch_recap request, Session.recap);
             (patch_summary request, Session.summary);
             (patch_transcript request, Session.transcript);
             (patch_suggestions request, Session.suggestions);
             (patch_suggestedName request, Session.suggestedName);
             (patch_suggestedSummary request, Session.suggestedSummary);
             (patch_suggestedSuggestions request,
              Session.suggestedSuggestions);
             (patch_suggestedImageUri request, Session.suggestedImageUri);
             (patch_suggestedImagePrompt request,
              Session.suggestedImagePrompt) ] ->
        column s' = match k with
                    | Absent => column s
                    | Null => None
                    | Value v => Some v
                    end) /\
    Session.archived s' = match patch_archived request with
                          | Value b => b
                          | Absent | Null => Session.archived s
                          end /\
    (Session.id s', Session.campaignId s', Session.completed s',
     Session.createdAt s', Session.audioName s', Session.audioUri s')
    = (Session.id s, Session.campaignId s, Session.completed s,
       Session.createdAt s, Session.audioName s, Session.audioUri s) /\
    (forall key', key' <> key ->
       find (hasId key') (sessions db') = find (hasId key') (sessions db)) /\
    tracked db'
    = tracked db ++ [(GetSession, user, info); (UpdateSession, user, info)].
Proof.
  intros Hfind Hacc Hnull. eexists. eexists.
  split; [apply patchSession_granted; eassumption|].
  cbn [sessions tracking withSessions tracked].
  split.
  { rewrite find_update_same by (intros; apply apply_keeps_id).
    rewrite Hfind. reflexivity. }
  split; [reflexivity|]. split.
  { intros k column Hin. cbn [In] in Hin.
    repeat (destruct Hin as [Heq|Hin];
            [injection Heq as <- <-; reflexivity|]).
    contradiction. }
  split; [reflexivity|]. split; [reflexivity|]. split.
  - intros key' Hne.
    apply find_update_other; [intros; apply apply_keeps_id|exact Hne].
  - rewrite <- app_assoc. reflexivity.
Qed.

Lemma setNullable_twice {A : Type} (k : Key A) (old : option A) :
  Data.setNullable k (Data.setNullable k old) = Data.setNullable k old.
Proof. destruct k; reflexivity. Qed.

Lemma set_twice {A : Type} (k : Key A) (old : A) :
  Data.set k (Data.set k old) = Data.set k old.
Proof. destruct k; reflexivity. Qed.

Lemma apply_twice (d : Data.t) (s : Session.t) :
  Data.apply d (Data.apply d s) = Data.apply d s.
Proof.
  unfold Data.apply.
  cbn [Session.id Session.userId Session.campaignId Session.name
       Session.imageUri Session.planning Session.recap Session.summary
       Session.transcript Session.suggestions Session.suggestedName
       Session.suggestedSummary Session.suggestedSuggestions
       Session.suggestedImageUri Session.suggestedImagePrompt
       Session.archived Session.completed Session.audioName Session.audioUri
       Session.createdAt].
  rewrite !setNullable_twice, !set_twice. reflexivity.
Qed.

Lemma patched_twice (user : Z) (request : PatchSessionRequest)
    (s : Session.t) :
  patched user request (patched user request s) = patched user request s.
Proof.
  unfold patched. apply apply_twice.
Qed.

(** X17.  Patching is idempotent on the table: sending the same body a
    second time succeeds, returns the same session and leaves the
    sessions as the first patch left them, whatever keys the body holds
    (values or nulls, [archived] included). *)
Theorem patchSession_twice_is_once
    (user : Z) (info : TrackingInfo) (key : Z)
    (request : PatchSessionRequest) (db : State) (s : Session.t) :
  find (hasId key) (sessions db) = Some s ->
  (Session.userId s = None \/ Session.userId s = Some user) ->
  patch_archived request <> Null ->
  exists s' db1 db2,
    patchSession user info key request db = (inr s', db1) /\
    patchSession user info key request db1 = (inr s', db2) /\
    sessions db2 = sessions db1.
Proof.
  intros Hfind Hacc Hnull.
  pose proof (patchSession_granted user info key request db s Hfind Hacc
                Hnull) as Hfirst.
  set (db1 := tracking
       (withSessions (tracking db GetSession user info)
          (map (fun x => if hasId key x then patched user request x else x)
               (sessions db)))
       UpdateSession user info) in *.
  assert (Hfind1 : find (hasId key) (sessions db1)
                   = Some (patched user request s)).
  { unfold db1. cbn [sessions tracking withSessions].
    rewrite find_update_same by (intros; apply apply_keeps_id).
    rewrite Hfind. reflexivity. }
  assert (Hacc1 : accessible user (patched user request s))
    by (right; reflexivity).
  pose proof (patchSession_granted user info key request db1 _ Hfind1 Hacc1
                Hnull) as Hsecond.
  rewrite patched_twice in Hsecond.
  eexists. exists db1. eexists.
  split; [exact Hfirst|]. split; [exact Hsecond|].
  cbn [sessions tracking withSessions]. unfold db1.
  cbn [sessions tracking withSessions]. rewrite map_map.
  apply map_ext. intros x. destruct (hasId key x) eqn:Hx.
  - replace (hasId key (patched user request x)) with true
      by (symmetry; exact Hx).
    apply patched_twice.
  - rewrite Hx. reflexivity.
Qed.

(** *** Roles *)

Lemma member_lookup (db : State) (user campaign : Z) (m : Member) :
  find (fun m =>
          match memberUserId m with
          | Some u => u =? user
          | None => false
          end
          && (memberCampaignId m =? campaign))
       (members db) = Some m ->
  memberOf db user campaign m.
Proof.
  intros Hfind. apply find_some in Hfind. destruct Hfind as [Hin Hm].
  apply andb_true_iff in Hm. destruct Hm as [Hu Hc].
  apply Z.eqb_eq in Hc.
  destruct (memberUserId m) as [u|] eqn:Hmu; [|discriminate].
  apply Z.eqb_eq in Hu. subst u. split; [exact Hin|]. split; assumption.
Qed.

Lemma member_found (db : State) (user campaign : Z) (m : Member) :
  uniqueMembers db ->
  memberOf db user campaign m ->
  find (fun m =>
          match memberUserId m with
          | Some u => u =? user
          | None => false
          end
          && (memberCampaignId m =? campaign))
       (members db) = Some m.
Proof.
  intros Huniq Hm.
  destruct (find _ (members db)) as [m'|] eqn:Hfind.
  - apply member_lookup in Hfind. f_equal.
    exact (Huniq user campaign m' m Hfind Hm).
  - destruct Hm as (Hin & Hu & Hc).
    pose proof (find_none _ _ Hfind m Hin) as Hno. cbv beta in Hno.
    rewrite Hu, Hc, !Z.eqb_refl in Hno. discriminate.
Qed.

(** What the role test of the two DM-only calls comes to. *)
Lemma notDM_cases (cfg : Config) (db : State) (user campaign : Z) :
  (forall m, uniqueMembers db -> memberOf db user campaign m ->
             role m = DM cfg ->
             notDM cfg (find (fun m =>
                                match memberUserId m with
                                | Some u => u =? user
                                | None => false
                                end
                                && (memberCampaignId m =? campaign))
                             (members db)) = false) /\
  ((forall m, memberOf db user campaign m -> role m <> DM cfg) ->
   notDM cfg (find (fun m =>
                      match memberUserId m with
                      | Some u => u =? user
                      | None => false
                      end
                      && (memberCampaignId m =? campaign))
                   (members db)) = true).
Proof.
  split.
  - intros m Huniq Hm Hrole. rewrite (member_found _ _ _ _ Huniq Hm).
    unfold notDM. rewrite Hrole, Z.eqb_refl. reflexivity.
  - intros Hnone. destruct (find _ (members db)) as [m|] eqn:Hfind;
      [|reflexivity].
    apply member_lookup in Hfind. specialize (Hnone m Hfind).
    unfold notDM. destruct (Z.eqb_spec (role m) (DM cfg));
      [contradiction|reflexivity].
Qed.

(** X18.  [postGenerateSummary] is for the DM.  On a session the caller
    may see: when the caller's row in the members of the session's
    campaign has the DM role, the recap is stored on the session, every
    other column and every other session stay as they are, and exactly
    one job (caller, session) is put on the completion queue.  A caller
    without such a row, or with a row of another role, gets "forbidden",
    and neither the sessions nor the queue change. *)
Theorem postGenerateSummary_is_for_the_dm
    (cfg : Config) (user : Z) (info : TrackingInfo) (key : Z)
    (request : PostCompleteSessionRequest) (db : State) (s : Session.t) :
  find (hasId key) (sessions db) = Some s ->
  accessible user s ->
  let r := postGenerateSummary cfg user info key request db in
  (forall m,
      uniqueMembers db ->
      memberOf db user (Session.campaignId s) m ->
      role m = DM cfg ->
      fst r = inr true /\
      find (hasId key) (sessions (snd r))
      = Some (withRecap s (complete_recap request)) /\
      (forall key', key' <> key ->
         find (hasId key') (sessions (snd r))
         = find (hasId key') (sessions db)) /\
      jobs (snd r) = jobs db ++ [(user, key)] /\
      tracked (snd r)
      = tracked db ++ [(GetSession, user, info);
                       (CompleteSession, user, info)]) /\
  ((forall m, memberOf db user (Session.campaignId s) m -> role m <> DM cfg) ->
   r = (inl (notTheDM "You do not have permission to complete this session."),
        tracking db GetSession user info)).
Proof.
  intros Hfind Hacc. cbv zeta.
  remember (postGenerateSummary cfg user info key request db) as r eqn:Hr.
  unfold postGenerateSummary in Hr.
  unfold andThen at 1 in Hr.
  rewrite (getSession_granted _ _ _ _ _ Hfind Hacc) in Hr.
  unfold andThen at 1 in Hr. unfold member_findUnique in Hr.
  cbn [members tracking] in Hr.
  destruct (notDM_cases cfg db user (Session.campaignId s)) as [Hdm Hnot].
  split.
  - intros m Huniq Hm Hrole. rewrite (Hdm m Huniq Hm Hrole) in Hr.
    unfold andThen, session_update, queue_add, track, pure in Hr.
    cbn [negb Data.wellTyped recapData Data.archived Data.completed
         Data.isNull andb sessions tracking] in Hr.
    rewrite Hfind in Hr. subst r.
    cbn [fst snd sessions jobs tracked withSessions tracking].
    split; [reflexivity|]. split.
    { rewrite find_update_same by (intros; apply apply_keeps_id).
      rewrite Hfind. reflexivity. }
    split.
    { intros key' Hne.
      apply find_update_other; [intros; apply apply_keeps_id|exact Hne]. }
    split; [reflexivity|]. rewrite <- app_assoc. reflexivity.
  - intros Hnone. rewrite (Hnot Hnone) in Hr. exact Hr.
Qed.

(** X19.  [postSessionAudio] is for the DM too.  When the caller's row
    in the members of the session's campaign has the DM role, the name
    and the URI of the recording are stored on the session, nothing else
    changes in the table, and the answer carries the two; a caller
    without such a row, or with a row of another role, who may see the
    session gets "forbidden" and nothing is stored. *)
Theorem postSessionAudio_is_for_the_dm
    (cfg : Config) (user : Z) (info : TrackingInfo) (key : Z)
    (request : PostSessionAudioRequest) (db : State) (s : Session.t) :
  find (hasId key) (sessions db) = Some s ->
  accessible user s ->
  let r := postSessionAudio cfg user info key request db in
  (forall m,
      uniqueMembers db ->
      memberOf db user (Session.campaignId s) m ->
      role m = DM cfg ->
      fst r = inr (mkPostSessionAudioResponse (audio_name request)
                                              (audio_uri request)) /\
      find (hasId key) (sessions (snd r))
      = Some (withAudio s (audio_name request) (audio_uri request)) /\
      (forall key', key' <> key ->
         find (hasId key') (sessions (snd r))
         = find (hasId key') (sessions db)) /\
      tracked (snd r)
      = tracked db ++ [(GetSession, user, info);
                       (SessionAudioUploaded, user, info)]) /\
  ((forall m, memberOf db user (Session.campaignId s) m -> role m <> DM cfg) ->
   r = (inl (notTheDM
               "You do not have permission to add audio to this session."),
        tracking db GetSession user info)).
Proof.
  intros Hfind Hacc. cbv zeta.
  remember (postSessionAudio cfg user info key request db) as r eqn:Hr.
  unfold postSessionAudio in Hr.
  unfold andThen at 1 in Hr.
  rewrite (getSession_granted _ _ _ _ _ Hfind Hacc) in Hr.
  unfold andThen at 1 in Hr. unfold member_findUnique in Hr.
  cbn [members tracking] in Hr.
  destruct (notDM_cases cfg db user (Session.campaignId s)) as [Hdm Hnot].
  split.
  - intros m Huniq Hm Hrole. rewrite (Hdm m Huniq Hm Hrole) in Hr.
    unfold andThen, session_update, track, pure in Hr.
    cbn [negb Data.wellTyped audioData Data.archived Data.completed
         Data.isNull andb sessions tracking] in Hr.
    rewrite Hfind in Hr. subst r.
    cbn [fst snd sessions jobs tracked withSessions tracking].
    split; [reflexivity|]. split.
    { rewrite find_update_same by (intros; apply apply_keeps_id).
      rewrite Hfind. reflexivity. }
    split.
    { intros key' Hne.
      apply find_update_other; [intros; apply apply_keeps_id|exact Hne]. }
    rewrite <- app_assoc. reflexivity.
  - intros Hnone. rewrite (Hnot Hnone) in Hr. exact Hr.
Qed.

Lemma mailMembers_sends (cfg : Config) (c : Campaign) (s : Session.t)
    (ms : list (Member * option User)) :
  forall db,
    mailMembers cfg c s ms db
    = (inr tt,
       mkState (sessions db) (members db) (campaigns db) (users db)
               (characters db) (tracked db) (jobs db)
               (mails db ++ map (recapMail cfg c s) ms) (warnings db)).
Proof.
  induction ms as [|m ms IH]; intros db.
  - simpl. unfold pure. rewrite app_nil_r. destruct db; reflexivity.
  - simpl. unfold andThen, sendTransactionalEmail. rewrite IH.
    cbn [sessions members campaigns users characters tracked jobs mails
         warnings]. rewrite <- app_assoc. reflexivity.
Qed.

Lemma orElse_textOf (o : option string) : orElse o EmptyString = textOf o.
Proof.
  destruct o as [x|]; [|reflexivity]. simpl.
  destruct (String.eqb_spec x EmptyString) as [->|_]; reflexivity.
Qed.

Lemma emailOf_addressOf (db : State) (m : Member) :
  orElse (emailOf (m, userOf db m)) EmptyString = addressOf db m.
Proof.
  unfold emailOf, addressOf, userOf. cbn [fst snd].
  destruct (memberUserId m) as [u|]; [|apply orElse_textOf].
  destruct (find (fun x => userKey x =? u) (users db)) as [x|];
    [|apply orElse_textOf].
  destruct (String.eqb_spec (email x) EmptyString) as [He|He];
    [apply orElse_textOf|].
  simpl. destruct (String.eqb_spec (email x) EmptyString);
    [contradiction|reflexivity].
Qed.

Lemma Forall2_map_right {A B : Type} (P : A -> B -> Prop) (f : A -> B)
    (l : list A) :
  (forall a, P a (f a)) -> Forall2 P l (map f l).
Proof.
  intros H. induction l as [|a l IH]; simpl; constructor; auto.
Qed.

(** X20.  [postCompleteSession] does not look at the caller: whoever
    calls it, and whoever owns the session, when the session and its
    campaign exist every member of the campaign is sent one recap mail
    and the session is then marked completed, its other columns and the
    other sessions staying as they are; nothing is tracked or queued.
    The mail uses the template "post-session", names the campaign in its
    subject and goes to the e-mail of the member's user, else to the
    address on the member row, else to the empty address; it carries that
    address, the campaign name, the summary, the suggestions and the image
    of the session (empty when null) and the link to the session's edit
    page.  An unknown session or campaign gives "bad request" after a
    warning, and no mail. *)
Theorem postCompleteSession_mails_every_member
    (cfg : Config) (user : Z) (info : TrackingInfo) (key : Z) (db : State) :
  let r := postCompleteSession cfg user info key db in
  (find (hasId key) (sessions db) = None ->
   r = (inl (badRequest "Session not found."),
        warned db "Session not found" key)) /\
  (forall s,
      find (hasId key) (sessions db) = Some s ->
      find (fun c => campaignKey c =? Session.campaignId s) (campaigns db)
      = None ->
      r = (inl (badRequest "Campaign not found."),
           warned db "Campaign not found" key)) /\
  (forall s c,
      find (hasId key) (sessions db) = Some s ->
      find (fun c => campaignKey c =? Session.campaignId s) (campaigns db)
      = Some c ->
      fst r = inr tt /\
      (exists ms sent,
          Permutation ms
            (filter (fun m => memberCampaignId m =? Session.campaignId s)
                    (members db)) /\
          mails (snd r) = mails db ++ sent /\
          Forall2
            (fun m mail =>
               mail
               = mkMail "post-session"
                   ("🎲 MythWeaver Session Recap: " ++ campaignName c ++ " 🐉")
                   (addressOf db m)
                   [ ("CHARACTER_NAME", addressOf db m);
                     ("CAMPAIGN_NAME", campaignName c);
                     ("SUMMARY", textOf (Session.summary s));
                     ("SUGGESTIONS", textOf (Session.suggestions s));
                     ("SESSION_URL",
                      (urlPrefix cfg ++ "/sessions/"
                       ++ showNumber (Session.id s) ++ "/edit")%string);
                     ("SESSION_IMAGE_URI", textOf (Session.imageUri s)) ])
            ms sent) /\
      find (hasId key) (sessions (snd r)) = Some (asCompleted s) /\
      (forall key', key' <> key ->
         find (hasId key') (sessions (snd r))
         = find (hasId key') (sessions db)) /\
      tracked (snd r) = tracked db /\
      jobs (snd r) = jobs db /\
      warnings (snd r) = warnings db).
Proof.
  cbv zeta.
  remember (postCompleteSession cfg user info key db) as r eqn:Hr.
  unfold postCompleteSession in Hr. unfold andThen at 1 in Hr.
  unfold session_findUnique in Hr.
  split; [|split].
  - intros Hfind. rewrite Hfind in Hr. exact Hr.
  - intros s Hfind Hc. rewrite Hfind in Hr.
    unfold andThen at 1 in Hr. unfold campaign_findUnique in Hr.
    rewrite Hc in Hr. exact Hr.
  - intros s c Hfind Hc. rewrite Hfind in Hr.
    unfold andThen at 1 in Hr. unfold campaign_findUnique in Hr.
    rewrite Hc in Hr.
    unfold andThen at 1 in Hr. rewrite mailMembers_sends in Hr.
    unfold andThen, session_update, pure in Hr.
    cbn [negb Data.wellTyped completedData Data.archived Data.completed
         Data.isNull andb sessions] in Hr.
    rewrite Hfind in Hr. subst r.
    cbn [fst snd sessions mails tracked jobs warnings withSessions].
    pose proof (find_some _ _ Hc) as [_ Hkey]. apply Z.eqb_eq in Hkey.
    split; [reflexivity|]. split.
    { exists (filter (fun m => memberCampaignId m =? Session.campaignId s)
                     (members db)).
      eexists. split; [apply Permutation_refl|].
      split; [reflexivity|]. rewrite Hkey, map_map.
      apply Forall2_map_right. intros m. unfold recapMail.
      rewrite emailOf_addressOf, !orElse_textOf. reflexivity. }
    split.
    { rewrite find_update_same by (intros; apply apply_keeps_id).
      rewrite Hfind. reflexivity. }
    split.
    { intros key' Hne.
      apply find_update_other; [intros; apply apply_keeps_id|exact Hne]. }
    split; [reflexivity|]. split; reflexivity.
Qed.

(** *** Listing *)

Lemma insertByDate_In (first : Session.t -> Session.t -> bool)
    (s x : Session.t) (l : list Session.t) :
  In x (insertByDate first s l) <-> x = s \/ In x l.
Proof.
  induction l as [|y l IH]; simpl.
  - intuition.
  - destruct (Session.createdAt y <? Session.createdAt s); simpl.
    + intuition.
    + destruct ((Session.createdAt y =? Session.createdAt s) && first s y);
        simpl.
      * intuition.
      * rewrite IH. intuition.
Qed.

Lemma newestFirst_In (first : Session.t -> Session.t -> bool)
    (x : Session.t) (l : list Session.t) :
  In x (newestFirst first l) <-> In x l.
Proof.
  induction l as [|y l IH]; simpl; [reflexivity|].
  rewrite insertByDate_In, IH. intuition.
Qed.

Lemma insertByDate_sorted (first : Session.t -> Session.t -> bool)
    (s : Session.t) (l : list Session.t) :
  StronglySorted newerOrEqual l ->
  StronglySorted newerOrEqual (insertByDate first s l).
Proof.
  assert (Hfront : forall y l,
             StronglySorted newerOrEqual l ->
             Forall (newerOrEqual y) l ->
             Session.createdAt y <= Session.createdAt s ->
             StronglySorted newerOrEqual (s :: y :: l)).
  { intros y l0 Hsorted Hall Hle.
    constructor; [constructor; assumption|].
    constructor; [exact Hle|].
    eapply Forall_impl; [|exact Hall].
    intros z Hz. unfold newerOrEqual in *. lia. }
  induction 1 as [|y l Hsorted IH Hall]; simpl.
  - repeat constructor.
  - destruct (Session.createdAt y <? Session.createdAt s) eqn:Hlt.
    + apply Z.ltb_lt in Hlt. apply Hfront; [assumption|assumption|lia].
    + apply Z.ltb_ge in Hlt.
      destruct ((Session.createdAt y =? Session.createdAt s) && first s y)
        eqn:Htie.
      * apply andb_true_iff in Htie. destruct Htie as [Heq _].
        apply Z.eqb_eq in Heq. apply Hfront; [assumption|assumption|lia].
      * constructor; [exact IH|].
        apply Forall_forall. intros z Hz. apply insertByDate_In in Hz.
        destruct Hz as [->|Hz].
        -- unfold newerOrEqual. lia.
        -- rewrite Forall_forall in Hall. apply Hall. exact Hz.
Qed.

Lemma newestFirst_sorted (first : Session.t -> Session.t -> bool)
    (l : list Session.t) :
  StronglySorted newerOrEqual (newestFirst first l).
Proof.
  induction l as [|y l IH]; simpl; [constructor|].
  apply insertByDate_sorted. exact IH.
Qed.

(** Without ties the order is the same whatever the database prefers. *)
Lemma insertByDate_no_ties (first first' : Session.t -> Session.t -> bool)
    (s : Session.t) (l : list Session.t) :
  (forall x, In x l -> Session.createdAt x <> Session.createdAt s) ->
  insertByDate first s l = insertByDate first' s l.
Proof.
  induction l as [|y l IH]; intros Hne; [reflexivity|]. simpl.
  assert (Hy : (Session.createdAt y =? Session.createdAt s) = false)
    by (apply Z.eqb_neq; apply Hne; left; reflexivity).
  rewrite Hy. cbn [andb]. rewrite IH; [reflexivity|].
  intros x Hx. apply Hne. right. exact Hx.
Qed.

Lemma newestFirst_no_ties (first first' : Session.t -> Session.t -> bool)
    (l : list Session.t) :
  NoDup (map Session.createdAt l) ->
  newestFirst first l = newestFirst first' l.
Proof.
  induction l as [|y l IH]; intros Hnd; [reflexivity|]. simpl.
  inversion Hnd as [|t ts Hnotin Hnd']; subst.
  rewrite (IH Hnd'). apply insertByDate_no_ties.
  intros x Hx Heq. apply Hnotin. apply newestFirst_In in Hx.
  rewrite <- Heq. apply in_map. exact Hx.
Qed.

(** Sessions picked from a table without equal creation times have
    none either. *)
Lemma filter_distinct_times (keep : Session.t -> bool)
    (table : list Session.t) :
  NoDup (map Session.createdAt table) ->
  NoDup (map Session.createdAt (filter keep table)).
Proof.
  induction table as [|s table IH]; intros Hnd; [constructor|].
  cbn [map filter] in *.
  inversion Hnd as [|t ts Hnotin Hnd']; subst.
  destruct (keep s); [|apply IH; exact Hnd'].
  cbn [map]. constructor; [|apply IH; exact Hnd'].
  intros Hin. apply Hnotin. apply in_map_iff in Hin.
  destruct Hin as (x & Hx & Hin). apply filter_In in Hin.
  rewrite <- Hx. apply in_map. apply Hin.
Qed.

Lemma firstn_In {A : Type} (n : nat) (l : list A) (x : A) :
  In x (firstn n l) -> In x l.
Proof.
  intros H. rewrite <- (firstn_skipn n l). apply in_or_app. left. exact H.
Qed.

Lemma skipn_In {A : Type} (n : nat) (l : list A) (x : A) :
  In x (skipn n l) -> In x l.
Proof.
  intros H. rewrite <- (firstn_skipn n l). apply in_or_app. right. exact H.
Qed.

Lemma sorted_skipn {A : Type} (R : A -> A -> Prop) (n : nat) :
  forall l, StronglySorted R l -> StronglySorted R (skipn n l).
Proof.
  induction n as [|n IH]; intros l H; [exact H|].
  destruct H as [|x l Hs Hall]; [constructor|]. simpl. apply IH. exact Hs.
Qed.

Lemma sorted_firstn {A : Type} (R : A -> A -> Prop) (n : nat) :
  forall l, StronglySorted R l -> StronglySorted R (firstn n l).
Proof.
  induction n as [|n IH]; intros l H; [constructor|].
  destruct H as [|x l Hs Hall]; [constructor|]. simpl.
  constructor; [apply IH; exact Hs|].
  apply Forall_forall. intros y Hy. rewrite Forall_forall in Hall.
  apply Hall. eapply firstn_In. exact Hy.
Qed.

Lemma page_In {A : Type} (skip take : option nat) (l : list A) (x : A) :
  In x (page skip take l) -> In x l.
Proof.
  unfold page. intros H.
  assert (Hskip : In x (match skip with Some n => skipn n l | None => l end)).
  { destruct take as [n|]; [eapply firstn_In; exact H|exact H]. }
  destruct skip as [n|]; [eapply skipn_In; exact Hskip|exact Hskip].
Qed.

Lemma page_sorted {A : Type} (R : A -> A -> Prop) (skip take : option nat)
    (l : list A) :
  StronglySorted R l -> StronglySorted R (page skip take l).
Proof.
  intros H. unfold page.
  assert (Hskip : StronglySorted R
                    (match skip with Some n => skipn n l | None => l end))
    by (destruct skip; [apply sorted_skipn|]; exact H).
  destruct take; [apply sorted_firstn|]; exact Hskip.
Qed.

Lemma matchesWhere_spec (user campaign : Z) (arch : bool) (s : Session.t) :
  matchesWhere user campaign arch s = true <->
  Session.userId s = Some user /\ Session.campaignId s = campaign /\
  Session.archived s = arch.
Proof.
  unfold matchesWhere. rewrite !andb_true_iff, Z.eqb_eq, Bool.eqb_true_iff.
  destruct (Session.userId s) as [u|].
  - rewrite Z.eqb_eq. split.
    + intros [[-> Hc] Ha]. auto.
    + intros (Hu & Hc & Ha). inversion Hu. auto.
  - split; [intros [[H _] _]; discriminate|intros [H _]; discriminate].
Qed.

(** X21.  [getSessions] lists the caller's own sessions only: every
    session returned is in the table, belongs to the caller, to the
    campaign asked for and has the archived flag asked for; the list is
    ordered newest first, whichever way the database settles sessions
    of the same age, and holds at most [limit] sessions.  Without
    [offset] and [limit] it holds every such session.  The call changes
    no table and is tracked once. *)
Theorem getSessions_lists_own_sessions
    (cfg : Config) (user : Z) (info : TrackingInfo) (campaign : Z)
    (offset limit : option nat) (arch : bool) (db : State) :
  exists l,
    getSessions cfg user info campaign offset limit arch db
    = (inr (mkGetSessionsResponse l offset limit),
       tracking db GetSessions user info) /\
    Forall (fun s =>
              In s (sessions db) /\ Session.userId s = Some user /\
              Session.campaignId s = campaign /\ Session.archived s = arch)
           l /\
    StronglySorted newerOrEqual l /\
    (forall n, limit = Some n -> (List.length l <= n)%nat) /\
    (offset = None -> limit = None ->
     forall s, In s (sessions db) -> Session.userId s = Some user ->
               Session.campaignId s = campaign -> Session.archived s = arch ->
               In s l).
Proof.
  eexists. split; [reflexivity|]. split; [|split; [|split]].
  - apply Forall_forall. intros s Hin. apply page_In in Hin.
    apply (proj1 (newestFirst_In _ _ _)) in Hin.
    apply (proj1 (filter_In _ _ _)) in Hin.
    destruct Hin as [Hin Hm]. apply (proj1 (matchesWhere_spec _ _ _ _)) in Hm.
    tauto.
  - apply page_sorted. apply newestFirst_sorted.
  - intros n ->. unfold page. apply firstn_le_length.
  - intros -> -> s Hin Hu Hc Ha. unfold page.
    apply (proj2 (newestFirst_In _ _ _)). apply (proj2 (filter_In _ _ _)).
    split; [exact Hin|]. apply (proj2 (matchesWhere_spec _ _ _ _)). auto.
Qed.

Lemma firstn_add_skipn {A : Type} (n m : nat) :
  forall l : list A, firstn n l ++ firstn m (skipn n l) = firstn (n + m) l.
Proof.
  induction n as [|n IH]; intros l; [reflexivity|].
  destruct l as [|x l]; simpl.
  - rewrite firstn_nil. reflexivity.
  - rewrite IH. reflexivity.
Qed.

(** X22.  Pages fit together when no two sessions of the table were
    created at the same instant: the page of [n] sessions from [o]
    followed by the page of [m] sessions from [o + n], asked on the table
    as the first call left it, is the page of [n + m] sessions from [o];
    no session is lost or repeated between two consecutive pages.  (With
    equal creation times the database may list the ties differently from
    one query to the next, and nothing of the kind holds.) *)
Theorem getSessions_pages_compose
    (cfg : Config) (user : Z) (info : TrackingInfo) (campaign : Z)
    (o n m : nat) (arch : bool) (db : State) :
  NoDup (map Session.createdAt (sessions db)) ->
  let first := getSessions cfg user info campaign (Some o) (Some n) arch db in
  let second :=
    getSessions cfg user info campaign (Some (o + n)%nat) (Some m) arch
                (snd first) in
  let both :=
    getSessions cfg user info campaign (Some o) (Some (n + m)%nat) arch db in
  exists l1 l2 l,
    fst first = inr (mkGetSessionsResponse l1 (Some o) (Some n)) /\
    fst second = inr (mkGetSessionsResponse l2 (Some (o + n)%nat) (Some m)) /\
    fst both = inr (mkGetSessionsResponse l (Some o) (Some (n + m)%nat)) /\
    l1 ++ l2 = l.
Proof.
  intros Hnd. cbv zeta. do 3 eexists.
  split; [reflexivity|]. split; [reflexivity|]. split; [reflexivity|].
  cbn [snd sessions].
  rewrite (newestFirst_no_ties
             (tieOrder cfg (tracking db GetSessions user info))
             (tieOrder cfg db))
    by (apply filter_distinct_times; exact Hnd).
  unfold page.
  rewrite <- firstn_add_skipn. f_equal. f_equal.
  rewrite Nat.add_comm. rewrite skipn_skipn. reflexivity.
Qed.

Lemma find_app_last (f : Session.t -> bool) (l : list Session.t)
    (s : Session.t) :
  find f l = None -> find f (l ++ [s]) = if f s then Some s else None.
Proof.
  induction l as [|x l IH]; simpl; [reflexivity|].
  destruct (f x); [discriminate|exact IH].
Qed.

(** X23.  What [postSession] creates can be fetched: when the key the
    database gives the new row is not in use, the session created belongs
    to the caller, carries the campaign and the name of the request, is
    appended to the table, and [getSession] returns it to the caller and
    refuses it to every other user. *)
Theorem postSession_then_getSession
    (cfg : Config) (user : Z) (info : TrackingInfo)
    (request : PostSessionRequest) (db : State) :
  find (hasId (Session.id (freshSession cfg (sessions db)))) (sessions db)
  = None ->
  exists s db',
    postSession cfg user info request db = (inr s, db') /\
    Session.id s = Session.id (freshSession cfg (sessions db)) /\
    Session.userId s = Some user /\
    Session.campaignId s = post_campaignId request /\
    Session.name s = Some (post_name request) /\
    sessions db' = sessions db ++ [s] /\
    fst (getSession user info (Session.id s) db') = inr s /\
    forall other, other <> user ->
      getSession other info (Session.id s) db' = (inl noAccess, db').
Proof.
  intros Hfresh. eexists. eexists. split; [reflexivity|].
  cbn [Session.id Session.userId Session.campaignId Session.name sessions
       withSessions].
  repeat split; try reflexivity.
  - rewrite getSession_cases. cbn [sessions].
    rewrite find_app_last by exact Hfresh.
    unfold hasId at 1. cbn [Session.id]. rewrite Z.eqb_refl.
    cbn [Session.userId]. rewrite Z.eqb_refl. reflexivity.
  - intros other Hne. rewrite getSession_cases. cbn [sessions].
    rewrite find_app_last by exact Hfresh.
    unfold hasId at 1. cbn [Session.id]. rewrite Z.eqb_refl.
    cbn [Session.userId].
    replace (user =? other) with false by (symmetry; apply Z.eqb_neq; lia).
    reflexivity.
Qed.

End SessionFacts.

(** ** Properties of the seed script *)

Module SeedFacts.

Import Backend Seed.
Local Open Scope call_scope.

Lemma find_last {A : Type} (f : A -> bool) (l : list A) (x : A) :
  find f l = None -> f x = true -> find f (l ++ [x]) = Some x.
Proof.
  intros Hnone Hx. induction l as [|y l IH]; simpl.
  - rewrite Hx. reflexivity.
  - simpl in Hnone. destruct (f y); [discriminate|]. apply IH. exact Hnone.
Qed.

(** X24.  The seed script only adds what is missing and can be run
    again: it never fails, leaves every row that exists as it is (a user
    with the seeded address or a character with key 1 that is already
    there is not rewritten), adds at most one user and one character,
    and a second run changes nothing.  Afterwards the seeded user and a
    character with key 1 exist. *)
Theorem seed_adds_once (cfg : Config) (db : State) :
  let db1 := snd (seed cfg db) in
  fst (seed cfg db) = inr tt /\
  seed cfg db1 = (inr tt, db1) /\
  (exists us cs,
     Backend.users db1 = Backend.users db ++ us /\
     Backend.characters db1 = Backend.characters db ++ cs /\
     (List.length us <= 1)%nat /\ (List.length cs <= 1)%nat /\
     Forall (fun u => email u = "azurfluh@bitmischief.io") us /\
     Forall (fun c => c = mkCharacter 1 "Muad'Dib") cs) /\
  (exists u, In u (Backend.users db1) /\ email u = "azurfluh@bitmischief.io") /\
  (exists c, In c (Backend.characters db1) /\ characterKey c = 1) /\
  sessions db1 = sessions db /\ members db1 = members db /\
  campaigns db1 = campaigns db.
Proof.
  cbv zeta. unfold seed, users, characters, seedUsers, seedCharacters.
  unfold andThen, user_upsert, character_upsert, pure.
  cbn [seed_email characterKey].
  destruct (find (fun u => (email u =? "azurfluh@bitmischief.io")%string)
                 (Backend.users db)) as [u|] eqn:Hu;
    cbn [fst snd sessions members campaigns Backend.users Backend.characters
         tracked jobs mails warnings];
    destruct (find (fun c => characterKey c =? 1) (Backend.characters db))
      as [c|] eqn:Hc;
    cbn [fst snd sessions members campaigns Backend.users Backend.characters
         tracked jobs mails warnings];
    rewrite ?Hu, ?Hc, ?(find_last _ _ _ Hu), ?(find_last _ _ _ Hc)
      by reflexivity;
    cbn [fst snd sessions members campaigns Backend.users Backend.characters
         tracked jobs mails warnings];
    rewrite ?Hu, ?Hc, ?(find_last _ _ _ Hu), ?(find_last _ _ _ Hc)
      by reflexivity;
    (split; [reflexivity|]); (split; [reflexivity|]).
  - split; [exists [], []; rewrite !app_nil_r; repeat split; auto|].
    apply find_some in Hu. apply find_some in Hc.
    destruct Hu as [Hu1 Hu2]. destruct Hc as [Hc1 Hc2].
    apply String.eqb_eq in Hu2. apply Z.eqb_eq in Hc2.
    split; [exists u; auto|]. split; [exists c; auto|]. auto.
  - split; [exists [], [mkCharacter 1 "Muad'Dib"]; rewrite !app_nil_r;
            repeat split; auto; repeat constructor|].
    apply find_some in Hu. destruct Hu as [Hu1 Hu2].
    apply String.eqb_eq in Hu2.
    split; [exists u; auto|].
    split; [exists (mkCharacter 1 "Muad'Dib"); split;
            [apply in_or_app; right; left; reflexivity|reflexivity]|]. auto.
  - split; [eexists [_], []; rewrite !app_nil_r;
            repeat split; auto; repeat constructor|].
    apply find_some in Hc. destruct Hc as [Hc1 Hc2]. apply Z.eqb_eq in Hc2.
    split; [eexists; split;
            [apply in_or_app; right; left; reflexivity|reflexivity]|].
    split; [exists c; auto|]. auto.
  - split; [eexists [_], [_]; repeat split; auto; repeat constructor|].
    split; [eexists; split;
            [apply in_or_app; right; left; reflexivity|reflexivity]|].
    split; [eexists; split;
            [apply in_or_app; right; left; reflexivity|reflexivity]|]. auto.
Qed.

End SeedFacts.

(** ** The controller's properties on a small database *)

Module SessionWitnesses.

Import Backend SessionController SessionTerms SessionFacts Fixtures.

(** User 1 asks for the session of user 2. *)
Lemma refused_callers_change_nothing_witness :
  fst (getSession 1 info 2 db0) = inl noAccess /\
  patchSession 1 info 2 rename db0 = (inl noAccess, db0) /\
  deleteSession 1 info 2 db0 = (inl noAccess, db0) /\
  postGenerateSummary cfg0 1 info 2 recap0 db0 = (inl noAccess, db0) /\
  postSessionAudio cfg0 1 info 2 audio0 db0 = (inl noAccess, db0).
Proof.
  split; [reflexivity|].
  apply (refused_callers_change_nothing cfg0 1 info 2 db0 noAccess rename
           recap0 audio0).
  reflexivity.
Defined.


(** User 1 revises the session that has no owner: it gets the new name
    and the suggested one, loses its summary, is archived and belongs to
    user 1. *)
Lemma patchSession_writes_request_and_owner_witness :
  exists s' db',
    patchSession 1 info 3 revise db0 = (inr s', db') /\
    find (hasId 3) (sessions db') = Some s' /\
    Session.userId s' = Some 1 /\
    Session.name s' = Some "The spice must flow" /\
    Session.summary s' = None /\
    Session.suggestedName s' = Some "Arrakis" /\
    Session.planning s' = Session.planning session3 /\
    Session.archived s' = true.
Proof.
  destruct (patchSession_writes_request_and_owner 1 info 3 revise db0 session3
              eq_refl (or_introl eq_refl))
    as (s' & db' & Hrun & Hfind & Howner & Hkeys & Harch & _).
  { discriminate. }
  exists s', db'.
  split; [exact Hrun|]. split; [exact Hfind|]. split; [exact Howner|].
  split; [apply (Hkeys (Value "The spice must flow") Session.name);
          left; reflexivity|].
  split; [apply (Hkeys Null Session.summary);
          do 4 right; left; reflexivity|].
  split; [apply (Hkeys (Value "Arrakis") Session.suggestedName);
          do 7 right; left; reflexivity|].
  split; [apply (Hkeys Absent Session.planning);
          do 2 right; left; reflexivity|].
  exact Harch.
Defined.

Lemma patchSession_twice_is_once_witness :
  exists s' db1 db2,
    patchSession 1 info 3 revise db0 = (inr s', db1) /\
    patchSession 1 info 3 revise db1 = (inr s', db2) /\
    sessions db2 = sessions db1.
Proof.
  apply (patchSession_twice_is_once 1 info 3 revise db0 session3 eq_refl
           (or_introl eq_refl)).
  discriminate.
Defined.

Lemma db0_uniqueMembers : uniqueMembers db0.
Proof.
  intros user campaign m m' (Hin & Hu & Hc) (Hin' & Hu' & Hc').
  simpl in Hin, Hin'.
  destruct Hin as [<-|[<-|[<-|[]]]]; destruct Hin' as [<-|[<-|[<-|[]]]];
    simpl in *; try reflexivity; congruence.
Qed.

Lemma db0_players (user : Z) (m : Member) :
  user <> 1 -> memberOf db0 user 7 m -> role m <> DM cfg0.
Proof.
  intros Hne (Hin & Hu & _). simpl in Hin.
  destruct Hin as [<-|[<-|[<-|[]]]]; simpl in *;
    try discriminate; congruence.
Qed.

(** User 1, the DM of campaign 7, asks for the summary of session 1;
    user 2, a player of the campaign, asks for the summary of session 2,
    which is theirs; user 3, no member at all, asks for that of session
    3, which has no owner. *)
Lemma postGenerateSummary_is_for_the_dm_witness :
  (fst (postGenerateSummary cfg0 1 info 1 recap0 db0) = inr true /\
   find (hasId 1)
        (sessions (snd (postGenerateSummary cfg0 1 info 1 recap0 db0)))
   = Some (withRecap session1 "The worm came.") /\
   jobs (snd (postGenerateSummary cfg0 1 info 1 recap0 db0)) = [(1, 1)]) /\
  postGenerateSummary cfg0 2 info 2 recap0 db0
  = (inl (notTheDM "You do not have permission to complete this session."),
     tracking db0 GetSession 2 info) /\
  postGenerateSummary cfg0 3 info 3 recap0 db0
  = (inl (notTheDM "You do not have permission to complete this session."),
     tracking db0 GetSession 3 info).
Proof.
  split; [|split].
  - destruct (proj1 (postGenerateSummary_is_for_the_dm cfg0 1 info 1 recap0
                       db0 session1 eq_refl (or_intror eq_refl))
                    (mkMember (Some 1) 7 1 None) db0_uniqueMembers
                    (conj (or_introl eq_refl) (conj eq_refl eq_refl))
                    eq_refl)
      as (H1 & H2 & _ & H4 & _).
    split; [exact H1|]. split; [exact H2|exact H4].
  - apply (proj2 (postGenerateSummary_is_for_the_dm cfg0 2 info 2 recap0
                    db0 session2 eq_refl (or_intror eq_refl))).
    intros m. apply db0_players. discriminate.
  - apply (proj2 (postGenerateSummary_is_for_the_dm cfg0 3 info 3 recap0
                    db0 session3 eq_refl (or_introl eq_refl))).
    intros m. apply db0_players. discriminate.
Defined.

(** The same three callers upload a recording. *)
Lemma postSessionAudio_is_for_the_dm_witness :
  (fst (postSessionAudio cfg0 1 info 1 audio0 db0)
   = inr (mkPostSessionAudioResponse "session.mp3"
            "https://cdn.example.org/session.mp3") /\
   find (hasId 1) (sessions (snd (postSessionAudio cfg0 1 info 1 audio0 db0)))
   = Some (withAudio session1 "session.mp3"
                     "https://cdn.example.org/session.mp3")) /\
  postSessionAudio cfg0 2 info 2 audio0 db0
  = (inl (notTheDM
            "You do not have permission to add audio to this session."),
     tracking db0 GetSession 2 info) /\
  postSessionAudio cfg0 3 info 3 audio0 db0
  = (inl (notTheDM
            "You do not have permission to add audio to this session."),
     tracking db0 GetSession 3 info).
Proof.
  split; [|split].
  - destruct (proj1 (postSessionAudio_is_for_the_dm cfg0 1 info 1 audio0
                       db0 session1 eq_refl (or_intror eq_refl))
                    (mkMember (Some 1) 7 1 None) db0_uniqueMembers
                    (conj (or_introl eq_refl) (conj eq_refl eq_refl))
                    eq_refl)
      as (H1 & H2 & _).
    split; [exact H1|exact H2].
  - apply (proj2 (postSessionAudio_is_for_the_dm cfg0 2 info 2 audio0
                    db0 session2 eq_refl (or_intror eq_refl))).
    intros m. apply db0_players. discriminate.
  - apply (proj2 (postSessionAudio_is_for_the_dm cfg0 3 info 3 audio0
                    db0 session3 eq_refl (or_introl eq_refl))).
    intros m. apply db0_players. discriminate.
Defined.

(** User 2, a player, completes session 1, which belongs to user 1: the
    three members of campaign 7 are mailed (the DM at the user's
    address, the player and the guest at the address on their row) and
    the session is marked completed. *)
Lemma postCompleteSession_mails_every_member_witness :
  fst (postCompleteSession cfg0 2 info 1 db0) = inr tt /\
  map recipient (mails (snd (postCompleteSession cfg0 2 info 1 db0)))
  = ["dm@example.org"; "player@example.org"; "guest@example.org"] /\
  find (hasId 1) (sessions (snd (postCompleteSession cfg0 2 info 1 db0)))
  = Some (asCompleted session1).
Proof.
  destruct (proj2 (proj2 (postCompleteSession_mails_every_member cfg0 2 info
                            1 db0))
                  session1 (mkCampaign 7 "Dune") eq_refl eq_refl)
    as (Hdone & _ & Hfind & _).
  split; [exact Hdone|]. split; [vm_compute; reflexivity|exact Hfind].
Defined.

(** The four sessions of the shelf in two pages of two. *)
Lemma getSessions_pages_compose_witness :
  NoDup (map Session.createdAt (sessions shelf)) /\
  exists l1 l2 l,
    fst (getSessions cfg0 1 info 7 (Some 0%nat) (Some 2%nat) false shelf)
    = inr (mkGetSessionsResponse l1 (Some 0%nat) (Some 2%nat)) /\
    fst (getSessions cfg0 1 info 7 (Some (0 + 2)%nat) (Some 2%nat) false
           (snd (getSessions cfg0 1 info 7 (Some 0%nat) (Some 2%nat) false
                   shelf)))
    = inr (mkGetSessionsResponse l2 (Some (0 + 2)%nat) (Some 2%nat)) /\
    fst (getSessions cfg0 1 info 7 (Some 0%nat) (Some (2 + 2)%nat) false
           shelf)
    = inr (mkGetSessionsResponse l (Some 0%nat) (Some (2 + 2)%nat)) /\
    l1 ++ l2 = l.
Proof.
  assert (Hnd : NoDup (map Session.createdAt (sessions shelf))).
  { simpl. repeat constructor; simpl; intuition discriminate. }
  split; [exact Hnd|].
  apply (getSessions_pages_compose cfg0 1 info 7 0 2 2 false shelf Hnd).
Defined.

(** User 2 creates a session; the table gives it key 4. *)
Lemma postSession_then_getSession_witness :
  find (hasId (Session.id (freshSession cfg0 (sessions db0)))) (sessions db0)
  = None /\
  exists s db',
    postSession cfg0 2 info newSession db0 = (inr s, db') /\
    Session.id s = Session.id (freshSession cfg0 (sessions db0)) /\
    Session.userId s = Some 2 /\
    Session.campaignId s = post_campaignId newSession /\
    Session.name s = Some (post_name newSession) /\
    sessions db' = sessions db0 ++ [s] /\
    fst (getSession 2 info (Session.id s) db') = inr s /\
    forall other, other <> 2 ->
      getSession other info (Session.id s) db' = (inl noAccess, db').
Proof.
  split; [reflexivity|].
  apply (postSession_then_getSession cfg0 2 info newSession db0).
  reflexivity.
Defined.

(** The recap mails of campaign 7: the DM's user address, the player's
    own address (the user has none), the guest's own address. *)
Example recap_recipients :
  map recipient (mails (snd (postCompleteSession cfg0 2 info 2 db0)))
  = ["dm@example.org"; "player@example.org"; "guest@example.org"] /\
  map (fun m => nth 4 (map snd (variables m)) EmptyString)
      (mails (snd (postCompleteSession cfg0 2 info 2 db0)))
  = repeat "https://app.example.org/sessions/2/edit" 3.
Proof.
  split; vm_compute; reflexivity.
Qed.

End SessionWitnesses.
